(** * Google-Maps-Scrapper: job orchestration core

    A shallow embedding of the Python sources
    (job_service.py, scraper_runner.py, main.py, app.py) together with the
    properties of the design specification that concern them.

    Conventions of the embedding:
    - Python [int] is [Z]; Python [float] (timestamps, rates, progress) is
      idealised as the rationals [Q], so rounding is outside the model;
    - Python [bytes] are [string] (a list of 8-bit characters), and a [str]
      is held as its UTF-8 encoding: [Text.utf8_valid] tells whether the
      bytes of a file decode, case folding is that of ASCII ([Text.lower]),
      and what depends on the folding of a name is stated for ASCII
      strings;
    - [Optional[T]] is [option T]; a raised exception is the left injection
      of a sum whose right injection is the returned value;
    - [dict] is [gmap], [OrderedDict] and [deque] are lists, oldest first;
    - every [time.time()] / [datetime.utcnow()] reading is an explicit
      argument of the function that performs it; a naive [datetime] is
      held as the number that its [.timestamp()] returns, which is off the
      reading of [time.time()] by the local UTC offset (taken as constant
      over the life of a job), see [JobService.utcnow_timestamp]. *)

From Stdlib Require Import ZArith QArith Lqa List String Ascii Bool Lia.
From Stdlib Require Import Sorted.
From stdpp Require Import gmap strings list sorting pretty.

Local Open Scope Z_scope.

(** ** Python exceptions *)

Module Py.

(** Only the classes that the modelled code raises or catches.
    [KeyboardInterrupt] derives from [BaseException] only, so an
    [except Exception] clause lets it through. *)
Inductive exn : Type :=
| TypeError (msg : string)
| KeyError
| RateLimitExceeded (msg : string)
| JobNotFound (job_id : string)
| OtherException (name : string)
| KeyboardInterrupt.

Definition is_Exception (e : exn) : bool :=
  match e with
  | KeyboardInterrupt => false
  | _ => true
  end.

End Py.

(** ** app.py: [class LRUCache] *)

Module LRU.
Section lru.
Context {K V : Type} `{EqDecision K}.

(** [self.cache] is an [OrderedDict]: its items in insertion order,
    the first item being the one [popitem(last=False)] removes. *)
Record LRUCache : Type := mkLRU {
  cache : list (K * V);
  max_size : Z
}.

Definition empty (m : Z) : LRUCache := mkLRU [] m.

Definition keys (c : LRUCache) : list K := (cache c).*1.

(** [key in d] and [d[key]]. *)
Fixpoint od_get (k : K) (d : list (K * V)) : option V :=
  match d with
  | [] => None
  | (k', v) :: d' => if decide (k' = k) then Some v else od_get k d'
  end.

Definition od_remove (k : K) (d : list (K * V)) : list (K * V) :=
  filter (λ kv, kv.1 ≠ k) d.

(** [d.move_to_end(key)]; the callers guard it by [key in d]. *)
Definition move_to_end (k : K) (d : list (K * V)) : list (K * V) :=
  match od_get k d with
  | Some v => od_remove k d ++ [(k, v)]
  | None => d
  end.

(** [d[key] = value]: an existing key keeps its place. *)
Fixpoint od_set (k : K) (v : V) (d : list (K * V)) : list (K * V) :=
  match d with
  | [] => [(k, v)]
  | (k', v') :: d' =>
      if decide (k' = k) then (k, v) :: d' else (k', v') :: od_set k v d'
  end.

(** [d.popitem(last=False)] raises [KeyError] on an empty dictionary. *)
Definition popitem_first (d : list (K * V)) : Py.exn + (K * V) * list (K * V) :=
  match d with
  | [] => inl Py.KeyError
  | kv :: d' => inr (kv, d')
  end.

Definition get (k : K) (c : LRUCache) : option V * LRUCache :=
  match od_get k (cache c) with
  | Some _ =>
      let d := move_to_end k (cache c) in
      (od_get k d, mkLRU d (max_size c))
  | None => (None, c)
  end.

Definition put (k : K) (v : V) (c : LRUCache) : Py.exn + LRUCache :=
  match od_get k (cache c) with
  | Some _ => inr (mkLRU (od_set k v (move_to_end k (cache c))) (max_size c))
  | None =>
      if (max_size c <=? Z.of_nat (length (cache c)))%Z then
        match popitem_first (cache c) with
        | inl e => inl e
        | inr (_, d') => inr (mkLRU (od_set k v d') (max_size c))
        end
      else inr (mkLRU (od_set k v (cache c)) (max_size c))
  end.

(** Sequences of cache operations; a [put] that raises leaves the cache
    as it was. *)
Inductive op : Type :=
| Get (k : K)
| Put (k : K) (v : V).

Definition op_key (o : op) : K :=
  match o with Get k => k | Put k _ => k end.

Definition step (c : LRUCache) (o : op) : LRUCache :=
  match o with
  | Get k => (get k c).2
  | Put k v => match put k v c with inr c' => c' | inl _ => c end
  end.

Definition run (ops : list op) (c : LRUCache) : LRUCache :=
  fold_left step ops c.

(** Position in the trace of the last operation naming [k]. *)
Fixpoint last_access_from (i : nat) (ops : list op) (k : K) : option nat :=
  match ops with
  | [] => None
  | o :: ops' =>
      match last_access_from (S i) ops' k with
      | Some j => Some j
      | None => if decide (op_key o = k) then Some i else None
      end
  end.

Definition last_access (ops : list op) (k : K) : option nat :=
  last_access_from 0 ops k.

(** [k1] was last accessed strictly before [k2]. *)
Definition less_recent (ops : list op) (k1 k2 : K) : Prop :=
  ∃ i j, last_access ops k1 = Some i ∧ last_access ops k2 = Some j ∧ (i < j)%nat.

(** The keys, oldest first, are in the order of their last access. *)
Definition recency_sorted (ops : list op) (ks : list K) : Prop :=
  StronglySorted (less_recent ops) ks ∧
  Forall (λ k, is_Some (last_access ops k)) ks.

End lru.
Arguments LRUCache : clear implicits.
Arguments op : clear implicits.
End LRU.

(** ** Python text helpers *)

Module Text.

Definition is_upper (c : ascii) : bool :=
  let n := nat_of_ascii c in (65 <=? n)%nat && (n <=? 90)%nat.

Definition lower_char (c : ascii) : ascii :=
  if is_upper c then ascii_of_nat (nat_of_ascii c + 32) else c.

(** [s.lower()] on ASCII text: the letters [A] to [Z] are folded, every
    other byte is kept.  [str.lower()] also folds the letters outside
    ASCII, so what depends on the folding of a business type is stated
    for ASCII strings ([is_ascii]).  On the bytes of UTF-8 text the test
    ['name' in line.lower()] is not affected: no character outside ASCII
    has a lower case that contains one of the letters [n], [a], [m],
    [e]. *)
Fixpoint lower (s : string) : string :=
  match s with
  | EmptyString => EmptyString
  | String c s' => String (lower_char c) (lower s')
  end.


Definition in_range (lo hi : nat) (c : ascii) : bool :=
  let n := nat_of_ascii c in (lo <=? n)%nat && (n <=? hi)%nat.

(** The strict UTF-8 decoder, as far as it accepts or rejects: [more] is
    the number of continuation bytes still due and [lo], [hi] bound the
    next one.  Overlong forms, surrogates, code points above U+10FFFF and
    a sequence cut off by the end of the data are rejected. *)
Fixpoint utf8_from (more lo hi : nat) (s : string) : bool :=
  match s with
  | EmptyString =>
      match more with
      | O => true
      | S _ => false
      end
  | String c s' =>
      match more with
      | S more' => in_range lo hi c && utf8_from more' 128 191 s'
      | O =>
          if in_range 0 127 c then utf8_from 0 128 191 s'
          else if in_range 194 223 c then utf8_from 1 128 191 s'
          else if in_range 224 224 c then utf8_from 2 160 191 s'
          else if in_range 225 236 c || in_range 238 239 c then utf8_from 2 128 191 s'
          else if in_range 237 237 c then utf8_from 2 128 159 s'
          else if in_range 240 240 c then utf8_from 3 144 191 s'
          else if in_range 241 243 c then utf8_from 3 128 191 s'
          else if in_range 244 244 c then utf8_from 3 128 143 s'
          else false
      end
  end.

(** Whether [bytes.decode('utf-8')] succeeds. *)
Definition utf8_valid (s : string) : bool := utf8_from 0 128 191 s.

(** [s.startswith(p)] *)
Fixpoint startswith (p s : string) : bool :=
  match p, s with
  | EmptyString, _ => true
  | String a p', String b s' => bool_decide (a = b) && startswith p' s'
  | String _ _, EmptyString => false
  end.

(** [sub in s] *)
Fixpoint contains (sub s : string) : bool :=
  startswith sub s ||
  match s with
  | EmptyString => false
  | String _ s' => contains sub s'
  end.

Fixpoint skip (n : nat) (s : string) : string :=
  match n, s with
  | S n', String _ s' => skip n' s'
  | _, _ => s
  end.

(** [s.count(sub)]: occurrences that do not overlap, scanning from the
    left; the empty pattern is found between any two characters. *)
Fixpoint count_from (fuel : nat) (sub s : string) : Z :=
  match fuel with
  | O => 0
  | S fuel' =>
      if startswith sub s then
        match sub, s with
        | EmptyString, EmptyString => 1
        | EmptyString, String _ s' => 1 + count_from fuel' sub s'
        | String _ _, _ => 1 + count_from fuel' sub (skip (String.length sub) s)
        end
      else
        match s with
        | EmptyString => 0
        | String _ s' => count_from fuel' sub s'
        end
  end.

Definition count (sub s : string) : Z :=
  count_from (S (String.length s)) sub s.

(** [len(s)] as a Python [int]. *)
Definition len (s : string) : Z := Z.of_nat (String.length s).

(** The slice [s[i:i+n]], as [f.seek(i); f.read(n)] returns it. *)
Definition slice (i n : Z) (s : string) : string :=
  String.substring (Z.to_nat i) (Nat.min (Z.to_nat n) (String.length s - Z.to_nat i))
    s.

Definition newline : ascii := ascii_of_nat 10.
Definition carriage_return : ascii := ascii_of_nat 13.

(** Lines of a file opened in binary mode: split after each ["\n"]. *)
Fixpoint count_lines_binary (s : string) (pending : bool) : Z :=
  match s with
  | EmptyString => if pending then 1 else 0
  | String c s' =>
      if bool_decide (c = newline) then 1 + count_lines_binary s' false
      else count_lines_binary s' true
  end.

(** Lines of a file opened in text mode (universal newlines): a line
    ends at ["\n"], at ["\r\n"] or at a lone ["\r"]. *)
Fixpoint count_lines_text (s : string) (pending : bool) : Z :=
  match s with
  | EmptyString => if pending then 1 else 0
  | String c s' =>
      if bool_decide (c = newline) then 1 + count_lines_text s' false
      else if bool_decide (c = carriage_return) then
        match s' with
        | String c' s'' =>
            if bool_decide (c' = newline) then count_lines_text s' false
            else 1 + count_lines_text s' false
        | EmptyString => 1
        end
      else count_lines_text s' true
  end.

(** [f.readline()] in text mode, without the line end. *)
Fixpoint first_line (s : string) : string :=
  match s with
  | EmptyString => EmptyString
  | String c s' =>
      if bool_decide (c = newline) || bool_decide (c = carriage_return)
      then EmptyString
      else String c (first_line s')
  end.

(** [s.strip()]: white space is removed at both ends. *)
Definition is_space (c : ascii) : bool :=
  let n := nat_of_ascii c in
  ((9 <=? n)%nat && (n <=? 13)%nat) || ((28 <=? n)%nat && (n <=? 32)%nat).

Fixpoint lstrip (s : string) : string :=
  match s with
  | String c s' => if is_space c then lstrip s' else s
  | EmptyString => EmptyString
  end.

Fixpoint rstrip (s : string) : string :=
  match s with
  | EmptyString => EmptyString
  | String c s' =>
      match rstrip s' with
      | EmptyString => if is_space c then EmptyString else String c EmptyString
      | r => String c r
      end
  end.

Definition strip (s : string) : string := rstrip (lstrip s).

(** The two line ends that the writers of the repository produce:
    ["\n"] ([DataFrame.to_csv] on POSIX) and ["\r\n"] ([csv.DictWriter],
    whose default line terminator it is). *)
Definition lf : string := String newline EmptyString.
Definition crlf : string := String carriage_return (String newline EmptyString).

(** A text without a line break inside. *)
Fixpoint one_line (s : string) : bool :=
  match s with
  | EmptyString => true
  | String c s' =>
      negb (bool_decide (c = newline)) && negb (bool_decide (c = carriage_return))
      && one_line s'
  end.

(** The text of a file that holds the given lines, each with its line
    end. *)
Fixpoint unlines (eol : string) (lines : list string) : string :=
  match lines with
  | [] => EmptyString
  | line :: lines' => line +:+ eol +:+ unlines eol lines'
  end.

End Text.

(** ** hashlib.md5 (RFC 1321) on byte strings *)

Module MD5.

Definition word : Z := 4294967296.

Definition K_table : list Z :=
  [3614090360; 3905402710; 606105819; 3250441966; 4118548399; 1200080426;
   2821735955; 4249261313; 1770035416; 2336552879; 4294925233; 2304563134;
   1804603682; 4254626195; 2792965006; 1236535329; 4129170786; 3225465664;
   643717713; 3921069994; 3593408605; 38016083; 3634488961; 3889429448;
   568446438; 3275163606; 4107603335; 1163531501; 2850285829; 4243563512;
   1735328473; 2368359562; 4294588738; 2272392833; 1839030562; 4259657740;
   2763975236; 1272893353; 4139469664; 3200236656; 681279174; 3936430074;
   3572445317; 76029189; 3654602809; 3873151461; 530742520; 3299628645;
   4096336452; 1126891415; 2878612391; 4237533241; 1700485571; 2399980690;
   4293915773; 2240044497; 1873313359; 4264355552; 2734768916; 1309151649;
   4149444226; 3174756917; 718787259; 3951481745].

Definition S_table : list Z :=
  [7; 12; 17; 22; 7; 12; 17; 22; 7; 12; 17; 22; 7; 12; 17; 22;
   5; 9; 14; 20; 5; 9; 14; 20; 5; 9; 14; 20; 5; 9; 14; 20;
   4; 11; 16; 23; 4; 11; 16; 23; 4; 11; 16; 23; 4; 11; 16; 23;
   6; 10; 15; 21; 6; 10; 15; 21; 6; 10; 15; 21; 6; 10; 15; 21].

Definition add32 (x y : Z) : Z := (x + y) mod word.
Definition not32 (x : Z) : Z := Z.lxor x (word - 1).
Definition rotl32 (x n : Z) : Z :=
  Z.lor (Z.shiftl x n mod word) (Z.shiftr x (32 - n)).

Definition bytes_of_string (s : string) : list Z :=
  (λ c, Z.of_nat (nat_of_ascii c)) <$> list_ascii_of_string s.

(** Little-endian bytes of [x], [n] of them. *)
Fixpoint le_bytes (n : nat) (x : Z) : list Z :=
  match n with
  | O => []
  | S n' => x mod 256 :: le_bytes n' (x / 256)
  end.

Fixpoint le_word (bs : list Z) : Z :=
  match bs with
  | [] => 0
  | b :: bs' => b + 256 * le_word bs'
  end.

Definition pad (msg : list Z) : list Z :=
  let n := Z.of_nat (length msg) in
  msg ++ [128] ++ replicate (Z.to_nat ((55 - n) mod 64)) 0
      ++ le_bytes 8 ((8 * n) mod 2 ^ 64).

(** The sixteen message words of one 64-byte block. *)
Definition block_words (block : list Z) : list Z :=
  (λ i, le_word (take 4 (drop (4 * i) block))) <$> seq 0 16.

Definition st : Type := Z * Z * Z * Z.

Definition round (M : list Z) (s : st) (i : nat) : st :=
  let '(A, B, C, D) := s in
  let iz := Z.of_nat i in
  let '(F, g) :=
    if (i <? 16)%nat then (Z.lor (Z.land B C) (Z.land (not32 B) D), iz)
    else if (i <? 32)%nat then
      (Z.lor (Z.land D B) (Z.land (not32 D) C), (5 * iz + 1) mod 16)
    else if (i <? 48)%nat then (Z.lxor (Z.lxor B C) D, (3 * iz + 5) mod 16)
    else (Z.lxor C (Z.lor B (not32 D)), (7 * iz) mod 16) in
  let F' := add32 (add32 (add32 F A) (K_table !!! i)) (M !!! Z.to_nat g) in
  (D, add32 B (rotl32 F' (S_table !!! i)), B, C).

Definition process_block (s : st) (block : list Z) : st :=
  let '(a0, b0, c0, d0) := s in
  let '(A, B, C, D) := fold_left (round (block_words block)) (seq 0 64) s in
  (add32 a0 A, add32 b0 B, add32 c0 C, add32 d0 D).

Fixpoint blocks (fuel : nat) (bs : list Z) : list (list Z) :=
  match fuel, bs with
  | S fuel', _ :: _ => take 64 bs :: blocks fuel' (drop 64 bs)
  | _, _ => []
  end.

Definition init : st := (1732584193, 4023233417, 2562383102, 271733878).

Definition digest (msg : list Z) : list Z :=
  let p := pad msg in
  let '(a, b, c, d) := fold_left process_block (blocks (length p) p) init in
  le_bytes 4 a ++ le_bytes 4 b ++ le_bytes 4 c ++ le_bytes 4 d.

Definition hex_digit (n : Z) : ascii :=
  if (n <? 10) then ascii_of_nat (48 + Z.to_nat n)
  else ascii_of_nat (87 + Z.to_nat n).

Fixpoint hex (bs : list Z) : string :=
  match bs with
  | [] => EmptyString
  | b :: bs' => String (hex_digit (b / 16)) (String (hex_digit (b mod 16)) (hex bs'))
  end.

(** [hashlib.md5(s.encode()).hexdigest()] *)
Definition hexdigest (s : string) : string := hex (digest (bytes_of_string s)).

End MD5.

(** ** main.py: places, the checkpoint store and the start of
       [scrape_places] *)

Module Main.

(** A value held by a scraped record. *)
Inductive cell : Type :=
| CStr (s : string)
| CInt (z : Z)
| CFloat (q : Q)
| CNone.

(** A record as a dictionary from column names to values, columns in
    insertion order. *)
Definition row : Type := list (string * cell).

Record Place : Type := mkPlace {
  name : string;
  address : string;
  website : string;
  phone_number : string;
  reviews_count : option Z;
  reviews_average : option Q;
  store_shopping : string;
  in_store_pickup : string;
  store_delivery : string;
  place_type : string;
  opens_at : string;
  introduction : string
}.

Definition asdict (p : Place) : row :=
  [("name", CStr (name p)); ("address", CStr (address p));
   ("website", CStr (website p)); ("phone_number", CStr (phone_number p));
   ("reviews_count", from_option CInt CNone (reviews_count p));
   ("reviews_average", from_option CFloat CNone (reviews_average p));
   ("store_shopping", CStr (store_shopping p));
   ("in_store_pickup", CStr (in_store_pickup p));
   ("store_delivery", CStr (store_delivery p));
   ("place_type", CStr (place_type p)); ("opens_at", CStr (opens_at p));
   ("introduction", CStr (introduction p))].

Record ScrapingCache : Type := mkScrapingCache {
  search_query : string;
  output_file : string;
  total_target : Z;
  scraped_count : Z;
  last_scraped_index : Z;
  timestamp : string;
  cache_id : string
}.

(** An output file: its bytes, and whether [open] succeeds on it. *)
Record file : Type := mkFile {
  content : string;
  readable : bool
}.

(** The files the code reads and writes: output files by path, and the
    JSON files of the cache directory by cache id.  A JSON file that
    cannot be read back is [None]. *)
Record FS : Type := mkFS {
  files : gmap string file;
  cache_files : gmap string (option ScrapingCache)
}.

(** The bytes [open(path)] gives access to; [None] when it raises. *)
Definition open_file (fs : FS) (path : string) : option string :=
  match files fs !! path with
  | Some f => if readable f then Some (content f) else None
  | None => None
  end.

(** [os.path.getsize(path)] of an existing file. *)
Definition getsize (fs : FS) (path : string) : Z :=
  match files fs !! path with
  | Some f => Text.len (content f)
  | None => 0
  end.

(** [os.path.exists(path)] *)
Definition path_exists (fs : FS) (path : string) : bool :=
  bool_decide (is_Some (files fs !! path)).

(** [CacheManager.generate_cache_id] *)
Definition generate_cache_id (search_query output_file : string) : string :=
  MD5.hexdigest (search_query +:+ "_" +:+ output_file).

(** [CacheManager.save_cache]; [now] is [datetime.now().isoformat()]. *)
Definition save_cache (fs : FS) (search_query output_file : string)
    (total_target scraped_count last_scraped_index : Z) (now : string)
    : string * FS :=
  let cache_id := generate_cache_id search_query output_file in
  let cache_data :=
    mkScrapingCache search_query output_file total_target scraped_count
      last_scraped_index now cache_id in
  (cache_id, mkFS (files fs) (<[cache_id := Some cache_data]> (cache_files fs))).

(** [CacheManager.load_cache]: a cache whose output file is gone is
    removed; a file that cannot be parsed is logged and skipped. *)
Definition load_cache (fs : FS) (search_query output_file : string)
    : option ScrapingCache * FS :=
  let cache_id := generate_cache_id search_query output_file in
  match cache_files fs !! cache_id with
  | Some (Some cache_data) =>
      if path_exists fs (Main.output_file cache_data) then (Some cache_data, fs)
      else (None, mkFS (files fs) (delete cache_id (cache_files fs)))
  | Some None => (None, fs)
  | None => (None, fs)
  end.

(** [CacheManager.clear_cache] *)
Definition clear_cache (fs : FS) (search_query output_file : string) : FS :=
  let cache_id := generate_cache_id search_query output_file in
  mkFS (files fs) (delete cache_id (cache_files fs)).

(** [CacheManager.get_existing_data_count].  The file is opened with
    [encoding='utf-8'] and read to its end by the line count, so bytes
    that are not valid UTF-8 raise [UnicodeDecodeError] inside the [try],
    and the bare [except] returns 0, as it does when [open] fails. *)
Definition get_existing_data_count (fs : FS) (output_file : string) : Z :=
  match open_file fs output_file with
  | Some content =>
      if Text.utf8_valid content then
        let line_count := Text.count_lines_text content false in
        let first_line := Text.strip (Text.first_line content) in
        let has_header :=
          Text.startswith "name," first_line
          || Text.contains "name" (Text.lower first_line) in
        Z.max 0 (line_count - (if has_header then 1 else 0))
      else 0
  | None => 0
  end.

(** [CacheManager.get_existing_data_count_lightning] *)
Definition get_existing_data_count_lightning (fs : FS) (output_file : string) : Z :=
  match open_file fs output_file with
  | None => 0
  | Some content =>
      let file_size := Text.len content in
      if file_size =? 0 then 0
      else
        let estimate :=
          if 1024 * 1024 <? file_size then
            let sample := Text.slice (file_size / 2) 4096 content in
            let sample_lines := Text.count (String Text.newline EmptyString) sample in
            if (0 <? Text.len sample) && (0 <? sample_lines) then
              Some (Z.max 0 ((file_size * sample_lines) / Text.len sample - 1))
            else None
          else None in
        match estimate with
        | Some n => n
        | None => Z.max 0 (Text.count_lines_binary content false - 1)
        end
  end.

(** The values of the local variables of [scrape_places] when the
    browser session is about to start, or when the function has already
    returned the empty list because the cache says the target was
    reached. *)
Record start_state : Type := mkStart {
  start_index : Z;
  is_append_mode : bool;
  existing_count : Z;
  returned_early : bool
}.

(** [scrape_places], up to the [try] that opens the browser. *)
Definition scrape_places_start (fs : FS) (search_for : string) (total : Z)
    (output_path : string) (ultra_fast_append : bool) : start_state * FS :=
  let is_append_mode := path_exists fs output_path || ultra_fast_append in
  let '(cache, fs) := load_cache fs search_for output_path in
  let start_index := 0 in
  let existing_count :=
    if ultra_fast_append then get_existing_data_count_lightning fs output_path
    else get_existing_data_count fs output_path in
  match cache with
  | Some cache =>
      if scraped_count cache <=? existing_count then
        let start_index := last_scraped_index cache + 1 in
        let is_append_mode := true in
        if total <=? scraped_count cache
        then (mkStart start_index is_append_mode existing_count true, fs)
        else (mkStart start_index is_append_mode existing_count false, fs)
      else (mkStart start_index is_append_mode existing_count false, fs)
  | None => (mkStart start_index is_append_mode existing_count false, fs)
  end.

(** *** Writing the output file *)

(** The text of a file; empty when there is none. *)
Definition file_text (fs : FS) (path : string) : string :=
  match files fs !! path with
  | Some f => content f
  | None => EmptyString
  end.

(** [open(path, 'w')] and one [write]: a file that is created can be
    read, one that is replaced keeps its permissions.  The writes
    themselves are taken to succeed. *)
Definition write_text (fs : FS) (path text : string) : FS :=
  let readable :=
    match files fs !! path with
    | Some f => readable f
    | None => true
    end in
  mkFS (<[path := mkFile text readable]> (files fs)) (cache_files fs).

(** [open(path, 'a')] and one [write]. *)
Definition append_text (fs : FS) (path text : string) : FS :=
  write_text fs path (file_text fs path +:+ text).

(** How the two libraries lay the records out is left open:
    [csv_header] is the text written by [writer.writeheader()] and
    [csv_record place] the text written by
    [writer.writerow(asdict(place))], each with its line end;
    [frame_header batch] and [frame_record batch place] are the header
    and the line of one place as [DataFrame.to_csv] writes them for the
    frame built from [batch] (the frame drops the columns that are empty
    throughout the batch, so both depend on the batch). *)
Record Layout : Type := mkLayout {
  csv_header : string;
  csv_record : Place → string;
  frame_header : list Place → string;
  frame_record : list Place → Place → string
}.

Definition records (render : Place → string) (places : list Place) : string :=
  foldr (λ place text, render place +:+ text) EmptyString places.

(** [save_places_to_csv] *)
Definition save_places_to_csv (layout : Layout) (fs : FS) (places : list Place)
    (output_path : string) (append : bool) : FS :=
  match places with
  | [] => fs
  | _ =>
      let file_exists := path_exists fs output_path in
      let header := negb (append && file_exists) in
      let text :=
        (if header then frame_header layout places else EmptyString)
        +:+ records (frame_record layout places) places in
      if append then append_text fs output_path text
      else write_text fs output_path text
  end.

(** [save_places_to_csv_ultra_fast] *)
Definition save_places_to_csv_ultra_fast (layout : Layout) (fs : FS)
    (places : list Place) (output_path : string) : FS :=
  match places with
  | [] => fs
  | _ =>
      let file_exists := path_exists fs output_path in
      let fs :=
        if file_exists then fs else write_text fs output_path (csv_header layout) in
      append_text fs output_path (records (csv_record layout) places)
  end.

(** [save_places_to_csv_batch_optimized] *)
Definition save_places_to_csv_batch_optimized (layout : Layout) (fs : FS)
    (places : list Place) (output_path : string) : FS :=
  match places with
  | [] => fs
  | _ =>
      let file_exists := path_exists fs output_path in
      let output_buffer :=
        (if file_exists then EmptyString else csv_header layout)
        +:+ records (csv_record layout) places in
      if file_exists then append_text fs output_path output_buffer
      else write_text fs output_path output_buffer
  end.

(** *** The loop over the listings *)

(** What the browser gives for one listing: the details pane loads and
    [extract_place] returns a place; or the pane does not load in time or
    an [Exception] is raised, and the listing is skipped; or a
    [KeyboardInterrupt] arrives while the listing is being opened. *)
Inductive listing : Type :=
| Loaded (place : Place)
| Failed
| Interrupted.

(** The local variables of [scrape_places] that the loop updates, and
    the files. *)
Record session : Type := mkSession {
  s_places : list Place;
  s_scraped_in_session : Z;
  s_total_scraped : Z;
  s_is_append_mode : bool;
  s_fs : FS
}.

(** The choice between the three writers, as the loop and its interrupt
    handler make it. *)
Definition save_pending (layout : Layout) (ultra_fast_append is_append_mode : bool)
    (fs : FS) (places : list Place) (output_path : string) : FS :=
  if is_append_mode && ultra_fast_append then
    save_places_to_csv_batch_optimized layout fs places output_path
  else if is_append_mode then
    save_places_to_csv_ultra_fast layout fs places output_path
  else save_places_to_csv layout fs places output_path false.

(** [for idx, listing in enumerate(listings)], from position [idx] on;
    [len_listings] is [len(listings)] and [now] gives the timestamp of a
    checkpoint written at a listing.  The result is the pair returned by
    the interrupt handler, or the variables at the end of the loop. *)
Fixpoint scrape_loop (layout : Layout) (now : Z → string) (search_for : string)
    (total : Z) (output_path : string) (ultra_fast_append : bool)
    (start_index len_listings idx : Z) (listings : list listing) (s : session)
    : (list Place * FS) + session :=
  match listings with
  | [] => inr s
  | listing :: rest =>
      let actual_idx := start_index + idx in
      match listing with
      | Failed =>
          scrape_loop layout now search_for total output_path ultra_fast_append
            start_index len_listings (idx + 1) rest s
      | Interrupted =>
          let fs :=
            match s_places s with
            | [] => s_fs s
            | places =>
                save_pending layout ultra_fast_append (s_is_append_mode s) (s_fs s)
                  places output_path
            end in
          let fs :=
            (save_cache fs search_for output_path total (s_total_scraped s) actual_idx
               (now actual_idx)).2 in
          inl (s_places s, fs)
      | Loaded place =>
          if bool_decide (name place = "") then
            scrape_loop layout now search_for total output_path ultra_fast_append
              start_index len_listings (idx + 1) rest s
          else
            let places := s_places s ++ [place] in
            let scraped_in_session := s_scraped_in_session s + 1 in
            let total_scraped := s_total_scraped s + 1 in
            if (scraped_in_session mod 10 =? 0) || (actual_idx =? len_listings - 1) then
              let fs :=
                save_pending layout ultra_fast_append (s_is_append_mode s) (s_fs s)
                  places output_path in
              let fs :=
                (save_cache fs search_for output_path total total_scraped actual_idx
                   (now actual_idx)).2 in
              scrape_loop layout now search_for total output_path ultra_fast_append
                start_index len_listings (idx + 1) rest
                (mkSession [] scraped_in_session total_scraped true fs)
            else
              scrape_loop layout now search_for total output_path ultra_fast_append
                start_index len_listings (idx + 1) rest
                (mkSession places scraped_in_session total_scraped
                   (s_is_append_mode s) (s_fs s))
      end
  end.

(** What a stretch of the loop that starts in append mode has done to
    the files when it has written the places [flushed], in one or more
    batches, at listings between [lo] and [hi]: nothing when there are
    none; otherwise the output file has grown by the header, if it was
    new, and the records of [flushed], and the checkpoint is the one of
    the last batch, which counts them. *)
Definition loop_writes (layout : Layout) (now : Z → string) (search_for : string)
    (total : Z) (output_path : string) (lo hi : Z) (s s' : session)
    (flushed : list Place) : Prop :=
  (flushed = [] ∧ s_fs s' = s_fs s)
  ∨ (flushed ≠ []
     ∧ files (s_fs s')
       = files (append_text (s_fs s) output_path
                  ((if path_exists (s_fs s) output_path then EmptyString
                    else csv_header layout)
                   +:+ records (csv_record layout) flushed))
     ∧ ∃ last_idx,
         lo ≤ last_idx ∧ last_idx < hi
         ∧ cache_files (s_fs s')
           = <[generate_cache_id search_for output_path :=
                 Some (mkScrapingCache search_for output_path total
                         (s_total_scraped s - Z.of_nat (length (s_places s))
                          + Z.of_nat (length flushed))
                         last_idx (now last_idx)
                         (generate_cache_id search_for output_path))]>
               (cache_files (s_fs s))).

(** What the page gives before the loop: no list of listings (no result
    appears, the listings cannot be located, or a page operation raises
    an [Exception]; the function then returns the empty list), or the
    listings located. *)
Inductive browser : Type :=
| NoListings
| Listings (found : list listing).

(** The slice [l[:stop]] *)
Definition first_items {A} (stop : Z) (l : list A) : list A :=
  let stop :=
    if stop <? 0 then Z.max (stop + Z.of_nat (length l)) 0 else stop in
  take (Z.to_nat stop) l.

(** [listings[:total]] and, when resuming, [listings[start_index:]] *)
Definition listings_to_visit {A} (total start_index : Z) (found : list A) : list A :=
  let listings := first_items total found in
  if 0 <? start_index then drop (Z.to_nat start_index) listings else listings.

(** The places among the listings that load and carry a name: the ones
    the loop keeps. *)
Definition named_places (listings : list listing) : list Place :=
  omap (λ listing,
          match listing with
          | Loaded place => if bool_decide (name place = "") then None else Some place
          | _ => None
          end) listings.

(** [scrape_places]: the places returned and the files afterwards. *)
Definition scrape_places (layout : Layout) (now : Z → string) (page : browser)
    (fs : FS) (search_for : string) (total : Z) (output_path : string)
    (ultra_fast_append : bool) : list Place * FS :=
  let '(st, fs) := scrape_places_start fs search_for total output_path ultra_fast_append in
  if returned_early st then ([], fs)
  else
    match page with
    | NoListings => ([], fs)
    | Listings found =>
        let listings := listings_to_visit total (start_index st) found in
        match scrape_loop layout now search_for total output_path ultra_fast_append
                (start_index st) (Z.of_nat (length listings)) 0 listings
                (mkSession [] 0 (existing_count st) (is_append_mode st) fs) with
        | inl (places, fs) => (places, fs)
        | inr s =>
            (s_places s,
             if total <=? s_total_scraped s
             then clear_cache (s_fs s) search_for output_path
             else s_fs s)
        end
    end.

(** *** The command line *)

(** The parsed arguments: [-s] and [-t] may be absent. *)
Record Args : Type := mkArgs {
  a_search : option string;
  a_total : option Z;
  a_output : string;
  a_append : bool;
  a_ultra_fast : bool
}.

(** The local variables of [main] at the call of [scrape_places]. *)
Record Plan : Type := mkPlan {
  p_search_for : string;
  p_total : Z;
  p_output_path : string;
  p_append : bool;
  p_ultra_fast : bool
}.

(** [main], up to the call of [scrape_places]. *)
Definition main_plan (args : Args) (fs : FS) : Plan * FS :=
  let search_for :=
    match a_search args with
    | Some s => if bool_decide (s = "") then "turkish stores in toronto Canada" else s
    | None => "turkish stores in toronto Canada"
    end in
  let total :=
    match a_total args with
    | Some t => if t =? 0 then 1 else t
    | None => 1
    end in
  let output_path := a_output args in
  let append := a_append args in
  let ultra_fast := a_ultra_fast args in
  let ultra_fast := if append && negb ultra_fast then true else ultra_fast in
  let '(cache, fs) := load_cache fs search_for output_path in
  match cache with
  | Some _ => (mkPlan search_for total output_path true true, fs)
  | None => (mkPlan search_for total output_path append ultra_fast, fs)
  end.

(** [main]: the files it leaves. *)
Definition main (layout : Layout) (now : Z → string) (page : browser) (args : Args)
    (fs : FS) : FS :=
  let '(plan, fs) := main_plan args fs in
  let '(places, fs) :=
    scrape_places layout now page fs (p_search_for plan) (p_total plan)
      (p_output_path plan) (p_ultra_fast plan) in
  match places with
  | [] => fs
  | _ =>
      if p_ultra_fast plan then
        save_places_to_csv_batch_optimized layout fs places (p_output_path plan)
      else
        save_places_to_csv layout fs places (p_output_path plan) (p_append plan)
  end.

End Main.

(** ** app.py: the duplicate check and its caches *)

Module App.

(** A cached verdict: the dictionary with keys ['is_duplicate'] and
    ['count'].  (The ['hash'] that the fingerprint layer stores next to
    them is never read and is left out.) *)
Record entry : Type := mkEntry {
  is_duplicate : bool;
  count : Z
}.

(** The module-level caches, and the number of times the bytes of an
    output file were opened, which the code does not record but the
    specification speaks about. *)
Record Caches : Type := mkCaches {
  _duplicate_cache : LRU.LRUCache string entry;
  _content_hash_cache : gmap string entry;
  scans : nat
}.

(** [_duplicate_cache = LRUCache(max_size=200)], all else empty. *)
Definition initial : Caches := mkCaches (LRU.empty 200) ∅ 0.

(** [f"{output_file}:{file_size}:{business_type.lower()}"] *)
Definition cache_key (output_file : string) (file_size : Z) (business_type : string)
    : string :=
  output_file +:+ ":" +:+ pretty file_size +:+ ":" +:+ Text.lower business_type.

(** [_check_content_fingerprint]; [None] is the pair [(None, None)] of
    its [except] clause.  The samples are counted as bytes and then
    decoded with [errors='ignore'] and lower-cased for the search of the
    business type; the model folds the ASCII letters and keeps every
    other byte, which is what the code does on ASCII files and business
    types. *)
Definition _check_content_fingerprint (fs : Main.FS) (st : Caches)
    (output_file business_type : string) (areas : list string) (file_size : Z)
    : option (bool * Z) * Caches :=
  let fingerprint_key := cache_key output_file file_size business_type in
  match _content_hash_cache st !! fingerprint_key with
  | Some cached => (Some (is_duplicate cached, count cached), st)
  | None =>
      let st := mkCaches (_duplicate_cache st) (_content_hash_cache st) (S (scans st)) in
      match Main.open_file fs output_file with
      | None => (None, st)
      | Some f =>
          let sample_size := Z.min 8192 (Z.max 1024 (file_size / 1000)) in
          let header_sample := Text.slice 0 sample_size f in
          let middle_sample :=
            if sample_size * 2 <? file_size
            then Text.slice (file_size / 2) (sample_size / 2) f else "" in
          let end_sample :=
            if sample_size * 3 <? file_size
            then Text.slice (Z.max (file_size - sample_size / 2) 0) (sample_size / 2) f
            else "" in
          let newline_count := Text.count (String Text.newline EmptyString) header_sample in
          let estimated_count :=
            if 0 <? newline_count
            then Z.max 1 ((file_size * newline_count) / Text.len header_sample)
            else 1 in
          let business_lower := Text.lower business_type in
          let total_sample :=
            Text.lower (header_sample +:+ middle_sample +:+ end_sample) in
          let business_occurrences := Text.count business_lower total_sample in
          let is_duplicate := (3 <? business_occurrences) && (50 <? estimated_count) in
          (Some (is_duplicate, estimated_count),
           mkCaches (_duplicate_cache st)
             (<[fingerprint_key := mkEntry is_duplicate estimated_count]>
                (_content_hash_cache st))
             (scans st))
      end
  end.

(** [_check_duplicate_streaming] and [_check_duplicate_cached_pandas] are
    entered only after the fingerprint layer could not read the file.
    Each of them opens the file again inside a [try] whose [except]
    returns [(False, 0)]; with the file unreadable throughout the call
    that is what they return. *)
Definition _check_duplicate_streaming (fs : Main.FS) (st : Caches)
    (output_file business_type : string) (areas : list string) (file_size : Z)
    : (bool * option Z) * Caches :=
  ((false, Some 0), mkCaches (_duplicate_cache st) (_content_hash_cache st) (S (scans st))).

Definition _check_duplicate_cached_pandas (fs : Main.FS) (st : Caches)
    (output_file business_type : string) (areas : list string)
    : (bool * option Z) * Caches :=
  ((false, Some 0), mkCaches (_duplicate_cache st) (_content_hash_cache st) (S (scans st))).

(** [check_duplicate_file]: the pair [(is_duplicate, count)] and the
    caches afterwards. *)
Definition check_duplicate_file (fs : Main.FS) (st : Caches)
    (business_type : string) (areas : list string) (output_file : string)
    : (bool * option Z) * Caches :=
  if negb (Main.path_exists fs output_file) then ((false, None), st)
  else
    let file_size := Main.getsize fs output_file in
    if file_size =? 0 then ((false, None), st)
    else
      let cache_key := cache_key output_file file_size business_type in
      match LRU.get cache_key (_duplicate_cache st) with
      | (Some cached_result, lru) =>
          ((is_duplicate cached_result, Some (count cached_result)),
           mkCaches lru (_content_hash_cache st) (scans st))
      | (None, lru) =>
          let st := mkCaches lru (_content_hash_cache st) (scans st) in
          match _check_content_fingerprint fs st output_file business_type areas file_size with
          | (Some (is_duplicate, count), st) =>
              match LRU.put cache_key (mkEntry is_duplicate count) (_duplicate_cache st) with
              | inr lru =>
                  ((is_duplicate, Some count),
                   mkCaches lru (_content_hash_cache st) (scans st))
              | inl _ => ((false, None), st)
              end
          | (None, st) =>
              if 1024 * 1024 <? file_size
              then _check_duplicate_streaming fs st output_file business_type areas file_size
              else _check_duplicate_cached_pandas fs st output_file business_type areas
          end
      end.

(** [clear_duplicate_check_caches] empties the four module-level
    dictionaries; [_duplicate_cache] is not among them.  Of the four only
    [_content_hash_cache] is ever written by the layers modelled here. *)
Definition clear_duplicate_check_caches (st : Caches) : Caches :=
  mkCaches (_duplicate_cache st) ∅ (scans st).

(** [optimize_duplicate_check_caches] deletes the entries [v] with
    [current_time - v.get('timestamp', 0) > 3600].  The entries of
    [_content_hash_cache] are written without a ['timestamp'], so the
    default [0] is what is compared. *)
Definition optimize_duplicate_check_caches (current_time : Q) (st : Caches) : Caches :=
  let cache_timeout := 3600%Q in
  let expired (v : entry) := negb (Qle_bool (current_time - 0) cache_timeout) in
  mkCaches (_duplicate_cache st)
    (filter (λ kv, expired kv.2 = false) (_content_hash_cache st))
    (scans st).

End App.

(** ** Binding the arguments of a call to a [def] *)

Module PyCall.

(** A parameter of a plain [def] (no [*args], no [**kwargs]). *)
Record param : Type := mkParam {
  p_name : string;
  p_has_default : bool
}.

Definition quoted (s : string) : string := "'" +:+ s +:+ "'".

(** The keyword arguments are matched first: one that names no
    parameter, or names a parameter already filled by position, raises
    [TypeError]. *)
Fixpoint bind_keywords (fname : string) (params : list param) (npos : nat)
    (kwargs : list string) : option Py.exn :=
  match kwargs with
  | [] => None
  | kw :: kwargs' =>
      if bool_decide (kw ∈ p_name <$> params) then
        if bool_decide (kw ∈ p_name <$> take npos params) then
          Some (Py.TypeError
                  (fname +:+ "() got multiple values for argument " +:+ quoted kw))
        else bind_keywords fname params npos kwargs'
      else
        Some (Py.TypeError
                (fname +:+ "() got an unexpected keyword argument " +:+ quoted kw))
  end.

(** [fname(a1, ..., a_npos, kw1=..., ...)]: [None] when the call binds. *)
Definition bind (fname : string) (params : list param) (npos : nat)
    (kwargs : list string) : option Py.exn :=
  match bind_keywords fname params npos kwargs with
  | Some e => Some e
  | None =>
      if (length params <? npos)%nat then
        Some (Py.TypeError (fname +:+ "() takes too many positional arguments"))
      else if forallb
                (λ p, p_has_default p || bool_decide (p_name p ∈ kwargs))
                (drop npos params)
      then None
      else Some (Py.TypeError (fname +:+ "() missing required positional arguments"))
  end.

End PyCall.

(** ** scraper_runner.py *)

Module Runner.

(** What [int(v)] makes of a payload value [v]. *)
Inductive int_arg : Type :=
| IntLike (z : Z)
| NotInt.

(** The payloads are dictionaries; a field is [None] when the key is
    absent.  Only the keys that the handlers read are kept, each with
    the type of the job field it is stored in. *)
Record ProgressPayload : Type := mkProgress {
  pp_progress : option Q;
  pp_current : option Z;
  pp_error_message : option string;
  pp_status : option string;
  pp_timestamp : option Q
}.

Record MetricsPayload : Type := mkMetrics {
  mp_elapsed_seconds : option Q
}.

Record RecordPayload : Type := mkRecords {
  rp_records : list Main.row;
  rp_total_scraped : option int_arg
}.

Inductive callback : Type :=
| OnProgress (payload : ProgressPayload)
| OnMetrics (payload : MetricsPayload)
| OnRecordBatch (payload : RecordPayload).

(** Which of the three optional callbacks were supplied. *)
Record ScraperCallbacks : Type := mkCallbacks {
  progress : bool;
  metrics : bool;
  record_batch : bool
}.

Record ScraperJobConfig : Type := mkConfig {
  search_query : string;
  total_results : Z;
  output_file : string;
  append_mode : bool;
  ultra_fast_append : bool
}.

Record ScraperRunResult : Type := mkResult {
  success : bool;
  elapsed_seconds : Q;
  error : option Py.exn
}.

(** [def scrape_places(search_for, total, output_path="result.csv",
    ultra_fast_append=False)] in main.py. *)
Definition scrape_places_params : list PyCall.param :=
  [PyCall.mkParam "search_for" false; PyCall.mkParam "total" false;
   PyCall.mkParam "output_path" true; PyCall.mkParam "ultra_fast_append" true].

(** The keyword arguments of the call in [run]; two arguments are
    positional. *)
Definition run_call_keywords : list string :=
  ["output_path"; "ultra_fast_append"; "progress_callback";
   "metrics_callback"; "record_callback"].

(** What the callee does once the call is bound: the callbacks it
    invokes, in order, and how it ends. *)
Record scrape_behaviour : Type := mkBehaviour {
  sb_calls : list callback;
  sb_result : Py.exn + list Main.Place
}.

(** [handle_progress] / [handle_record] keep [self._last_total_scraped]. *)
Definition track (last : option int_arg) (c : callback) : option int_arg :=
  match c with
  | OnProgress p =>
      match pp_current p with Some z => Some (IntLike z) | None => last end
  | OnMetrics _ => last
  | OnRecordBatch r =>
      match rp_total_scraped r with Some v => Some v | None => last end
  end.

Definition forwarded (cbs : ScraperCallbacks) (c : callback) : bool :=
  match c with
  | OnProgress _ => progress cbs
  | OnMetrics _ => metrics cbs
  | OnRecordBatch _ => record_batch cbs
  end.

(** The body of the [try] block of [run]: the payloads handed to the
    supplied callbacks, and the exception that leaves the block, if any.
    [save] is the exception raised by the write of the leftover places. *)
Definition run_try (params : list PyCall.param) (body : scrape_behaviour)
    (save : option Py.exn) (config : ScraperJobConfig) (cbs : ScraperCallbacks)
    : list callback * option Py.exn :=
  match PyCall.bind "scrape_places" params 2 run_call_keywords with
  | Some e => ([], Some e)
  | None =>
      let delivered := List.filter (forwarded cbs) (sb_calls body) in
      let last_total_scraped := fold_left track (sb_calls body) None in
      match sb_result body with
      | inl e => (delivered, Some e)
      | inr [] => (delivered, None)
      | inr leftover =>
          match save with
          | Some e => (delivered, Some e)
          | None =>
              if record_batch cbs then
                let total_scraped :=
                  match last_total_scraped with
                  | Some v => v
                  | None => IntLike (Z.of_nat (length leftover))
                  end in
                (delivered ++
                   [OnRecordBatch (mkRecords (Main.asdict <$> leftover) (Some total_scraped))],
                 None)
              else (delivered, None)
          end
      end
  end.

(** [InProcessScraperRunner.run] against a callee with the given
    parameters: the payloads delivered, and the result returned or the
    exception that escapes the [except Exception] clause. *)
Definition run_with (params : list PyCall.param) (body : scrape_behaviour)
    (save : option Py.exn) (start_time end_time : Q)
    (config : ScraperJobConfig) (cbs : ScraperCallbacks)
    : list callback * (Py.exn + ScraperRunResult) :=
  let elapsed := (end_time - start_time)%Q in
  match run_try params body save config cbs with
  | (delivered, None) => (delivered, inr (mkResult true elapsed None))
  | (delivered, Some exc) =>
      if Py.is_Exception exc
      then (delivered, inr (mkResult false elapsed (Some exc)))
      else (delivered, inl exc)
  end.

(** [InProcessScraperRunner.run] as the repository has it. *)
Definition run := run_with scrape_places_params.

End Runner.

(** ** job_service.py *)

Module JobService.

Definition Qltb (a b : Q) : bool := negb (Qle_bool b a).

(** The dataclass.  [start_time] and [end_time] are naive [datetime]
    values read from [datetime.utcnow()].  The code reads them back
    through [.timestamp()] (the sweep and the elapsed time of
    [_handle_metrics]) and through their difference ([_run_job]); a field
    holds the number that [.timestamp()] returns for the value stored,
    see [utcnow_timestamp]. *)
Record ScrapingJobState : Type := mkJob {
  job_id : string;
  search_query : string;
  total_results : Z;
  output_file : string;
  append_mode : bool;
  fast_append : bool;
  status : string;
  progress : Q;
  result_count : Z;
  error_message : option string;
  start_time : Q;
  end_time : option Q;
  throughput_per_minute : Q;
  eta_seconds : option Q;
  elapsed_seconds : Q;
  last_update : option Q;
  progress_samples : list (Q * Z);
  recent_records : list Main.row
}.

(** Assignment to one attribute. *)
Definition set_status (x : string) (job : ScrapingJobState) : ScrapingJobState :=
  mkJob (job_id job) (search_query job) (total_results job)
    (output_file job) (append_mode job) (fast_append job) x (progress job)
    (result_count job) (error_message job) (start_time job) (end_time job)
    (throughput_per_minute job) (eta_seconds job) (elapsed_seconds job)
    (last_update job) (progress_samples job) (recent_records job).

Definition set_progress (x : Q) (job : ScrapingJobState) : ScrapingJobState :=
  mkJob (job_id job) (search_query job) (total_results job)
    (output_file job) (append_mode job) (fast_append job) (status job) x
    (result_count job) (error_message job) (start_time job) (end_time job)
    (throughput_per_minute job) (eta_seconds job) (elapsed_seconds job)
    (last_update job) (progress_samples job) (recent_records job).

Definition set_result_count (x : Z) (job : ScrapingJobState) : ScrapingJobState :=
  mkJob (job_id job) (search_query job) (total_results job)
    (output_file job) (append_mode job) (fast_append job) (status job)
    (progress job) x (error_message job) (start_time job) (end_time job)
    (throughput_per_minute job) (eta_seconds job) (elapsed_seconds job)
    (last_update job) (progress_samples job) (recent_records job).

Definition set_error_message (x : option string) (job : ScrapingJobState) : ScrapingJobState :=
  mkJob (job_id job) (search_query job) (total_results job)
    (output_file job) (append_mode job) (fast_append job) (status job)
    (progress job) (result_count job) x (start_time job) (end_time job)
    (throughput_per_minute job) (eta_seconds job) (elapsed_seconds job)
    (last_update job) (progress_samples job) (recent_records job).

Definition set_end_time (x : option Q) (job : ScrapingJobState) : ScrapingJobState :=
  mkJob (job_id job) (search_query job) (total_results job)
    (output_file job) (append_mode job) (fast_append job) (status job)
    (progress job) (result_count job) (error_message job) (start_time job) x
    (throughput_per_minute job) (eta_seconds job) (elapsed_seconds job)
    (last_update job) (progress_samples job) (recent_records job).

Definition set_throughput_per_minute (x : Q) (job : ScrapingJobState) : ScrapingJobState :=
  mkJob (job_id job) (search_query job) (total_results job)
    (output_file job) (append_mode job) (fast_append job) (status job)
    (progress job) (result_count job) (error_message job) (start_time job)
    (end_time job) x (eta_seconds job) (elapsed_seconds job)
    (last_update job) (progress_samples job) (recent_records job).

Definition set_eta_seconds (x : option Q) (job : ScrapingJobState) : ScrapingJobState :=
  mkJob (job_id job) (search_query job) (total_results job)
    (output_file job) (append_mode job) (fast_append job) (status job)
    (progress job) (result_count job) (error_message job) (start_time job)
    (end_time job) (throughput_per_minute job) x (elapsed_seconds job)
    (last_update job) (progress_samples job) (recent_records job).

Definition set_elapsed_seconds (x : Q) (job : ScrapingJobState) : ScrapingJobState :=
  mkJob (job_id job) (search_query job) (total_results job)
    (output_file job) (append_mode job) (fast_append job) (status job)
    (progress job) (result_count job) (error_message job) (start_time job)
    (end_time job) (throughput_per_minute job) (eta_seconds job) x
    (last_update job) (progress_samples job) (recent_records job).

Definition set_last_update (x : option Q) (job : ScrapingJobState) : ScrapingJobState :=
  mkJob (job_id job) (search_query job) (total_results job)
    (output_file job) (append_mode job) (fast_append job) (status job)
    (progress job) (result_count job) (error_message job) (start_time job)
    (end_time job) (throughput_per_minute job) (eta_seconds job)
    (elapsed_seconds job) x (progress_samples job) (recent_records job).

Definition set_progress_samples (x : list (Q * Z)) (job : ScrapingJobState) : ScrapingJobState :=
  mkJob (job_id job) (search_query job) (total_results job)
    (output_file job) (append_mode job) (fast_append job) (status job)
    (progress job) (result_count job) (error_message job) (start_time job)
    (end_time job) (throughput_per_minute job) (eta_seconds job)
    (elapsed_seconds job) (last_update job) x (recent_records job).

Definition set_recent_records (x : list Main.row) (job : ScrapingJobState) : ScrapingJobState :=
  mkJob (job_id job) (search_query job) (total_results job)
    (output_file job) (append_mode job) (fast_append job) (status job)
    (progress job) (result_count job) (error_message job) (start_time job)
    (end_time job) (throughput_per_minute job) (eta_seconds job)
    (elapsed_seconds job) (last_update job) (progress_samples job) x.

(** [deque(maxlen=n).append(x)] *)
Definition deque_append {A} (maxlen : nat) (x : A) (d : list A) : list A :=
  let d' := d ++ [x] in drop (length d' - maxlen) d'.

Definition recent_records_maxlen : nat := 25.

Record JobService : Type := mkService {
  _jobs : gmap string ScrapingJobState;
  _job_starts : list Q;
  _rate_limit : Z;
  _rate_limit_window : Z;
  _cleanup_after_seconds : Z;
  _metrics_window_seconds : Z;
  _max_concurrent_jobs : Z
}.

(** [JobService(socketio, ...)] with the given settings, and with the
    defaults of [__init__]. *)
Definition new (rate_limit rate_limit_window cleanup_after_seconds
    metrics_window_seconds max_concurrent_jobs : Z) : JobService :=
  mkService ∅ [] rate_limit rate_limit_window cleanup_after_seconds
    metrics_window_seconds max_concurrent_jobs.

Definition with_defaults : JobService := new 2 60 900 180 2.

Definition set_jobs (jobs : gmap string ScrapingJobState) (svc : JobService)
    : JobService :=
  mkService jobs (_job_starts svc) (_rate_limit svc) (_rate_limit_window svc)
    (_cleanup_after_seconds svc) (_metrics_window_seconds svc)
    (_max_concurrent_jobs svc).

Definition set_job_starts (starts : list Q) (svc : JobService) : JobService :=
  mkService (_jobs svc) starts (_rate_limit svc) (_rate_limit_window svc)
    (_cleanup_after_seconds svc) (_metrics_window_seconds svc)
    (_max_concurrent_jobs svc).

(** The events handed to [socketio.emit]. *)
Inductive emitted : Type :=
| job_progress (job_id : string) (progress : Q) (result_count : Z)
    (status : string) (timestamp : Q) (error_message : option string)
    (end_time : option Q)
| job_metrics (job_id : string) (throughput_per_minute : Q)
    (eta_seconds : option Q) (elapsed_seconds : Q) (result_count : Z)
    (total_results : Z)
| job_record_batch (job_id : string) (records preview : list Main.row)
    (result_count : Z).

(** *** Helpers *)

(** [datetime.utcnow().timestamp()] at the moment [time.time()] reads
    [now], on a machine whose local time is [utc_offset] seconds ahead of
    UTC: [utcnow()] is the UTC wall time without a time zone, and
    [.timestamp()] reads a value without a time zone as local time.
    Only with [TZ=UTC] is this the reading of [time.time()] itself. *)
Definition utcnow_timestamp (utc_offset now : Q) : Q := (now - utc_offset)%Q.

(** The [while] loop of [_enforce_rate_limit_locked]. *)
Fixpoint drop_expired (now_ts : Q) (window : Z) (starts : list Q) : list Q :=
  match starts with
  | first :: rest =>
      if Qltb (inject_Z window) (now_ts - first)
      then drop_expired now_ts window rest
      else starts
  | [] => []
  end.

Definition _enforce_rate_limit_locked (now_ts : Q) (svc : JobService)
    : option Py.exn * JobService :=
  let svc := set_job_starts (drop_expired now_ts (_rate_limit_window svc) (_job_starts svc)) svc in
  if _rate_limit svc <=? Z.of_nat (length (_job_starts svc))
  then (Some (Py.RateLimitExceeded "Too many scraping jobs started recently"), svc)
  else (None, svc).

Definition _current_running_jobs_locked (svc : JobService) : Z :=
  Z.of_nat (size (filter (λ kv, status kv.2 = "running") (_jobs svc))).

(** [job.end_time and job.end_time.timestamp() < cutoff] *)
Definition cleanup_due (cutoff : Q) (job : ScrapingJobState) : bool :=
  match end_time job with
  | Some t => Qltb t cutoff
  | None => false
  end.

Definition _cleanup_finished_jobs_locked (now : Q) (svc : JobService) : JobService :=
  let cutoff := (now - inject_Z (_cleanup_after_seconds svc))%Q in
  set_jobs (filter (λ kv, cleanup_due cutoff kv.2 = false) (_jobs svc)) svc.

(** The [while] loop of [_prune_progress_samples_locked]. *)
Fixpoint drop_older (cutoff : Q) (samples : list (Q * Z)) : list (Q * Z) :=
  match samples with
  | first :: rest =>
      if Qltb first.1 cutoff then drop_older cutoff rest else samples
  | [] => []
  end.

Definition _prune_progress_samples_locked (metrics_window_seconds : Z)
    (job : ScrapingJobState) : ScrapingJobState :=
  match last (progress_samples job) with
  | None => job
  | Some latest =>
      let cutoff := (latest.1 - inject_Z metrics_window_seconds)%Q in
      set_progress_samples (drop_older cutoff (progress_samples job)) job
  end.

Definition _update_metrics_locked (job : ScrapingJobState) : ScrapingJobState :=
  if (length (progress_samples job) <? 2)%nat then
    set_eta_seconds None (set_throughput_per_minute 0%Q job)
  else
    match head (progress_samples job), last (progress_samples job) with
    | Some (first_ts, first_count), Some (last_ts, last_count) =>
        let delta_count := last_count - first_count in
        let delta_time := (last_ts - first_ts)%Q in
        if Qle_bool delta_time 0 || (delta_count <=? 0) then
          set_eta_seconds None (set_throughput_per_minute 0%Q job)
        else
          let throughput_per_second := (inject_Z delta_count / delta_time)%Q in
          let job := set_throughput_per_minute (throughput_per_second * 60)%Q job in
          let remaining := Z.max (total_results job - result_count job) 0 in
          set_eta_seconds
            (if Qltb 0 throughput_per_second
             then Some (inject_Z remaining / throughput_per_second)%Q
             else None)
            job
    | _, _ => job
    end.

(** [job.last_update or time.time()] *)
Definition timestamp_or (now : Q) (job : ScrapingJobState) : Q :=
  match last_update job with
  | Some t => if Qeq_bool t 0 then now else t
  | None => now
  end.

Definition _build_progress_payload_locked (now : Q) (job : ScrapingJobState) : emitted :=
  job_progress (job_id job) (progress job) (result_count job) (status job)
    (timestamp_or now job) (error_message job) (end_time job).

Definition _build_metrics_payload_locked (job : ScrapingJobState) : emitted :=
  job_metrics (job_id job) (throughput_per_minute job) (eta_seconds job)
    (elapsed_seconds job) (result_count job) (total_results job).

(** A value is true in a condition unless it is [None] or empty. *)
Definition truthy (s : option string) : option string :=
  match s with
  | Some EmptyString => None
  | _ => s
  end.

(** *** What each handler does to the job it finds *)

(** The locked part of [_handle_progress]; [now] is the [time.time()]
    that stands in for a missing ['timestamp']. *)
Definition progress_update (metrics_window_seconds : Z) (now : Q)
    (payload : Runner.ProgressPayload) (job : ScrapingJobState) : ScrapingJobState :=
  let job := set_progress (default (progress job) (Runner.pp_progress payload)) job in
  let job := set_result_count (default (result_count job) (Runner.pp_current payload)) job in
  let job :=
    match truthy (Runner.pp_error_message payload) with
    | Some error_message => set_error_message (Some error_message) job
    | None => job
    end in
  let job :=
    match truthy (Runner.pp_status payload) with
    | Some status => set_status status job
    | None => if bool_decide (status job = "pending") then set_status "running" job else job
    end in
  let job := set_last_update (Some (default now (Runner.pp_timestamp payload))) job in
  let job :=
    set_progress_samples
      (progress_samples job ++ [(default now (Runner.pp_timestamp payload), result_count job)])
      job in
  _prune_progress_samples_locked metrics_window_seconds job.

(** The locked part of [_handle_metrics]; [now] is [time.time()], and
    [start_time job] stands for [job.start_time.timestamp()]. *)
Definition metrics_update (now : Q) (payload : Runner.MetricsPayload)
    (job : ScrapingJobState) : ScrapingJobState :=
  let job :=
    match Runner.mp_elapsed_seconds payload with
    | Some elapsed => set_elapsed_seconds elapsed job
    | None => set_elapsed_seconds (now - start_time job)%Q job
    end in
  _update_metrics_locked job.

(** The locked part of [_handle_record_batch], for a non-empty batch. *)
Definition record_batch_update (payload : Runner.RecordPayload)
    (job : ScrapingJobState) : ScrapingJobState :=
  let job :=
    set_recent_records
      (fold_left (λ d record, deque_append recent_records_maxlen record d)
         (Runner.rp_records payload) (recent_records job))
      job in
  match Runner.rp_total_scraped payload with
  | Some (Runner.IntLike total_scraped) => set_result_count total_scraped job
  | Some Runner.NotInt => job
  | None => job
  end.

(** [str(result.error)] *)
Definition str_of_exn (e : Py.exn) : string :=
  match e with
  | Py.TypeError msg => msg
  | Py.KeyError => ""
  | Py.RateLimitExceeded msg => msg
  | Py.JobNotFound job_id => job_id
  | Py.OtherException name => name
  | Py.KeyboardInterrupt => ""
  end.

(** The locked part of [_run_job], after [runner.run] has returned;
    [finished] is [datetime.utcnow()] on the scale of [.timestamp()],
    [now] is [time.time()]. *)
Definition finish_update (finished now : Q) (result : Runner.ScraperRunResult)
    (state : ScrapingJobState) : ScrapingJobState :=
  let state := set_end_time (Some finished) state in
  let state := set_elapsed_seconds (finished - start_time state)%Q state in
  let state :=
    if bool_decide (status state = "interrupted") || bool_decide (status state = "failed")
    then state
    else if Runner.success result then set_status "completed" state
    else set_status "failed" state in
  let state :=
    match Runner.success result, Runner.error result with
    | false, Some e => set_error_message (Some (str_of_exn e)) state
    | _, _ => state
    end in
  let state :=
    match last_update state with
    | None => set_last_update (Some now) state
    | Some _ => state
    end in
  _update_metrics_locked state.

(** *** The public API and the callbacks, on the registry *)

(** The five clock readings of one [start_job] call, in program order:
    in [_cleanup_finished_jobs_locked], in [_enforce_rate_limit_locked],
    for [last_update], for [start_time], and for [_job_starts].  Four of
    them are readings of [time.time()]; [t_created] is the
    [datetime.utcnow()] of the dataclass default, on the scale of
    [.timestamp()]. *)
Record StartClock : Type := mkStartClock {
  t_cleanup : Q;
  t_check : Q;
  t_update : Q;
  t_created : Q;
  t_append : Q
}.

(** [start_job], up to the release of the lock: the exception raised or
    the state returned, and the registry afterwards.  The worker thread
    it then starts runs [_run_job]. *)
Definition start_job (clk : StartClock) (job_id search_query : string)
    (total_results : Z) (output_file : string) (append_mode fast_append : bool)
    (svc : JobService) : (Py.exn + ScrapingJobState) * JobService :=
  let svc := _cleanup_finished_jobs_locked (t_cleanup clk) svc in
  match _enforce_rate_limit_locked (t_check clk) svc with
  | (Some e, svc) => (inl e, svc)
  | (None, svc) =>
      if _max_concurrent_jobs svc <=? _current_running_jobs_locked svc then
        (inl (Py.RateLimitExceeded "Maximum concurrent scraping jobs in progress"), svc)
      else
        let state :=
          mkJob job_id search_query total_results output_file append_mode
            fast_append "running" 0%Q 0 None (t_created clk) None 0%Q None 0%Q
            (Some (t_update clk)) [] [] in
        (inr state,
         set_job_starts (_job_starts svc ++ [t_append clk])
           (set_jobs (<[job_id := state]> (_jobs svc)) svc))
  end.

Definition get_job (job_id : string) (svc : JobService) : Py.exn + ScrapingJobState :=
  match _jobs svc !! job_id with
  | Some job => inr job
  | None => inl (Py.JobNotFound job_id)
  end.

Definition _handle_progress (now : Q) (job_id : string)
    (payload : Runner.ProgressPayload) (svc : JobService)
    : JobService * list emitted :=
  match _jobs svc !! job_id with
  | None => (svc, [])
  | Some job =>
      let job := progress_update (_metrics_window_seconds svc) now payload job in
      (set_jobs (<[job_id := job]> (_jobs svc)) svc,
       [_build_progress_payload_locked now job])
  end.

Definition _handle_metrics (now : Q) (job_id : string)
    (payload : Runner.MetricsPayload) (svc : JobService)
    : JobService * list emitted :=
  match _jobs svc !! job_id with
  | None => (svc, [])
  | Some job =>
      let job := metrics_update now payload job in
      (set_jobs (<[job_id := job]> (_jobs svc)) svc,
       [_build_metrics_payload_locked job])
  end.

Definition _handle_record_batch (job_id : string)
    (payload : Runner.RecordPayload) (svc : JobService)
    : JobService * list emitted :=
  match Runner.rp_records payload with
  | [] => (svc, [])
  | records =>
      match _jobs svc !! job_id with
      | None => (svc, [])
      | Some job =>
          let job := record_batch_update payload job in
          (set_jobs (<[job_id := job]> (_jobs svc)) svc,
           [job_record_batch job_id records (recent_records job) (result_count job)])
      end
  end.

(** One callback of the worker of [job_id], as [_run_job] wires it. *)
Definition deliver (now : Q) (job_id : string) (c : Runner.callback)
    (svc : JobService) : JobService * list emitted :=
  match c with
  | Runner.OnProgress payload => _handle_progress now job_id payload svc
  | Runner.OnMetrics payload => _handle_metrics now job_id payload svc
  | Runner.OnRecordBatch payload => _handle_record_batch job_id payload svc
  end.

(** The callbacks of one worker, in order, each at its clock reading. *)
Fixpoint deliver_all (job_id : string) (calls : list (Q * Runner.callback))
    (svc : JobService) : JobService * list emitted :=
  match calls with
  | [] => (svc, [])
  | (now, c) :: calls' =>
      let '(svc, ev) := deliver now job_id c svc in
      let '(svc, events) := deliver_all job_id calls' svc in
      (svc, ev ++ events)
  end.

(** The three clock readings at the end of [_run_job]: [t_finished] is
    [datetime.utcnow()] on the scale of [.timestamp()], [t_now] and
    [t_sweep] are readings of [time.time()]. *)
Record FinishClock : Type := mkFinishClock {
  t_finished : Q;
  t_now : Q;
  t_sweep : Q
}.

(** The object that the worker holds.  [_run_job] never looks its job
    up: it keeps the [state] object that [start_job] handed to the
    thread.  Job ids are drawn fresh for every submission (app.py uses
    [uuid4]), so as long as the registry has an entry under the id, that
    entry is this very object, with all that the callbacks have assigned
    to it; when the registry has none, the object is as the worker was
    given it, no callback having found it. *)
Definition held (state : ScrapingJobState) (svc : JobService) : ScrapingJobState :=
  default state (_jobs svc !! job_id state).

(** [_run_job] from the return of [runner.run] on: the worker stamps the
    object it holds, publishes the two final events and sweeps, whether
    or not the job is still registered; the registry shows the stamped
    state only when the object is in it. *)
Definition finish (clk : FinishClock) (state : ScrapingJobState)
    (result : Runner.ScraperRunResult) (svc : JobService)
    : JobService * list emitted :=
  let state' := finish_update (t_finished clk) (t_now clk) result (held state svc) in
  let svc :=
    match _jobs svc !! job_id state with
    | Some _ => set_jobs (<[job_id state := state']> (_jobs svc)) svc
    | None => svc
    end in
  (_cleanup_finished_jobs_locked (t_sweep clk) svc,
   [_build_progress_payload_locked (t_now clk) state';
    _build_metrics_payload_locked state']).

(** The whole of [_run_job] for the worker started with [state]: the
    runner delivers its callbacks, which address the job by
    [state.job_id], each at the given clock reading, and then returns or
    raises.  When it raises, the statements after [runner.run] are not
    executed and the exception ends the worker thread. *)
Definition _run_job (state : ScrapingJobState)
    (calls : list (Q * Runner.callback))
    (outcome : Py.exn + Runner.ScraperRunResult) (clk : FinishClock)
    (svc : JobService) : JobService * list emitted * option Py.exn :=
  let '(svc, events) := deliver_all (job_id state) calls svc in
  match outcome with
  | inl e => (svc, events, Some e)
  | inr result =>
      let '(svc, ev) := finish clk state result svc in
      (svc, events ++ ev, None)
  end.

Definition terminal (status : string) : bool :=
  bool_decide (status = "completed") || bool_decide (status = "failed")
  || bool_decide (status = "interrupted").

(** The slice [l[-limit:]]: a negative start counts from the end and is
    clamped at the front; a start of zero or more counts from the
    front. *)
Definition last_items {A} (limit : Z) (l : list A) : list A :=
  let start := - limit in
  let start :=
    if start <? 0 then Z.max (start + Z.of_nat (length l)) 0 else start in
  drop (Z.to_nat start) l.

(** The dictionary returned by [get_preview]. *)
Record Preview : Type := mkPreview {
  pv_records : list Main.row;
  pv_columns : list string;
  pv_result_count : Z;
  pv_progress : Q;
  pv_total_results : Z;
  pv_status : string
}.

Definition get_preview (job_id : string) (limit : Z) (svc : JobService)
    : Py.exn + Preview :=
  match _jobs svc !! job_id with
  | None => inl (Py.JobNotFound job_id)
  | Some job =>
      let records := last_items limit (recent_records job) in
      let columns :=
        match records with
        | record :: _ => record.*1
        | [] => []
        end in
      inr (mkPreview records columns (result_count job) (progress job)
             (total_results job) (status job))
  end.

(** The event name under which a payload is handed to [socketio.emit]. *)
Definition event_name (e : emitted) : string :=
  match e with
  | job_progress _ _ _ _ _ _ _ => "job_progress"
  | job_metrics _ _ _ _ _ _ => "job_metrics"
  | job_record_batch _ _ _ _ => "job_record_batch"
  end.

(** The names of the events that the handler of one callback publishes
    when it finds the job: one event per callback, none for a record
    batch without records. *)
Definition callback_events (c : Runner.callback) : list string :=
  match c with
  | Runner.OnProgress _ => ["job_progress"]
  | Runner.OnMetrics _ => ["job_metrics"]
  | Runner.OnRecordBatch payload =>
      match Runner.rp_records payload with
      | [] => []
      | _ => ["job_record_batch"]
      end
  end.

(** What one callback does to the job it finds. *)
Definition callback_update (metrics_window_seconds : Z) (now : Q)
    (c : Runner.callback) (job : ScrapingJobState) : ScrapingJobState :=
  match c with
  | Runner.OnProgress payload => progress_update metrics_window_seconds now payload job
  | Runner.OnMetrics payload => metrics_update now payload job
  | Runner.OnRecordBatch payload =>
      match Runner.rp_records payload with
      | [] => job
      | _ => record_batch_update payload job
      end
  end.

End JobService.

(** ** Executions of the registry

    Submissions, callbacks and completions of several workers interleave;
    every handler runs under the one lock, so an execution is a sequence
    of the steps below.  Besides the registry a state records what the
    code does not store: the ids whose worker is still inside
    [runner.run], the ids handed out so far, the latest clock reading and
    the clock readings appended by all accepted submissions. *)

Module Exec.
Import JobService.

Record world : Type := mkWorld {
  svc : JobService;
  active : gset string;
  used : gset string;
  clock : Q;
  accepted : list Q
}.

(** The readings of [time.time()] do not run backwards.  Nothing is
    assumed of [t_created] and [t_finished], the readings of
    [datetime.utcnow()]: on the scale of [.timestamp()] they are behind
    or ahead of [time.time()] by the local UTC offset. *)
Definition start_clock_ordered (now : Q) (clk : StartClock) : Prop :=
  (now <= t_cleanup clk)%Q ∧ (t_cleanup clk <= t_check clk)%Q ∧
  (t_check clk <= t_update clk)%Q ∧ (t_update clk <= t_append clk)%Q.

Definition finish_clock_ordered (now : Q) (clk : FinishClock) : Prop :=
  (now <= t_now clk)%Q ∧ (t_now clk <= t_sweep clk)%Q.

Inductive step : world → world → Prop :=
| step_start_accepted w clk job_id search_query total_results output_file
    append_mode fast_append state svc' :
    start_clock_ordered (clock w) clk →
    job_id ∉ used w →
    start_job clk job_id search_query total_results output_file append_mode
      fast_append (svc w) = (inr state, svc') →
    step w (mkWorld svc' ({[job_id]} ∪ active w) ({[job_id]} ∪ used w)
              (t_append clk) (accepted w ++ [t_append clk]))
| step_start_rejected w clk job_id search_query total_results output_file
    append_mode fast_append e svc' :
    start_clock_ordered (clock w) clk →
    start_job clk job_id search_query total_results output_file append_mode
      fast_append (svc w) = (inl e, svc') →
    step w (mkWorld svc' (active w) (used w) (t_check clk) (accepted w))
| step_callback w now job_id c :
    (clock w <= now)%Q →
    job_id ∈ active w →
    step w (mkWorld (deliver now job_id c (svc w)).1 (active w) (used w) now
              (accepted w))
| step_finish w clk state result :
    finish_clock_ordered (clock w) clk →
    job_id state ∈ active w →
    step w (mkWorld (finish clk state result (svc w)).1
              (active w ∖ {[job_id state]}) (used w) (t_sweep clk) (accepted w))
| step_crash w job_id (e : Py.exn) :
    job_id ∈ active w →
    step w (mkWorld (svc w) (active w ∖ {[job_id]}) (used w) (clock w)
              (accepted w)).

(** The states an execution can reach from a fresh registry. *)
Inductive reachable (init : JobService) (t0 : Q) : world → Prop :=
| reachable_init : reachable init t0 (mkWorld init ∅ ∅ t0 [])
| reachable_step w w' : reachable init t0 w → step w w' → reachable init t0 w'.

(** A job whose [end_time] is set has a terminal status, and its worker
    has left [runner.run]. *)
Definition settled (w : world) : Prop :=
  ∀ job_id job, _jobs (svc w) !! job_id = Some job →
    is_Some (end_time job) → terminal (status job) = true ∧ job_id ∉ active w.

(** A submission appended at [ts] lies in the window that trails [now]. *)
Definition in_window (now : Q) (window : Z) (ts : Q) : bool :=
  Qle_bool (now - ts) (inject_Z window).

Definition submissions_in_window (now : Q) (window : Z) (starts : list Q) : Z :=
  Z.of_nat (length (List.filter (in_window now window) starts)).

(** The queue [_job_starts] holds the youngest accepted submissions; the
    ones it has dropped are out of the window by now; the clock never
    runs backwards. *)
Definition queue_tracks_window (w : world) : Prop :=
  ∃ dropped,
    accepted w = dropped ++ _job_starts (svc w)
    ∧ Forall (λ ts, in_window (clock w) (_rate_limit_window (svc w)) ts = false) dropped
    ∧ StronglySorted Qle (accepted w)
    ∧ Forall (λ ts, (ts <= clock w)%Q) (accepted w).

(** Executions that continue from a given state. *)
Definition steps : world → world → Prop := rtc step.

Definition same_settings (a b : JobService) : Prop :=
  _rate_limit a = _rate_limit b
  ∧ _rate_limit_window a = _rate_limit_window b
  ∧ _cleanup_after_seconds a = _cleanup_after_seconds b
  ∧ _metrics_window_seconds a = _metrics_window_seconds b
  ∧ _max_concurrent_jobs a = _max_concurrent_jobs b.

End Exec.

(** ** app.py: the route that starts a job *)

Module Web.

(** The fields of the submitted form.  [total_results] is what
    [int(request.form.get('total_results', 1))] evaluates to, [None] when
    it raises [ValueError]; the two check boxes are present or not. *)
Record Form : Type := mkForm {
  search_query : string;
  total_results : option Z;
  output_file : string;
  append_mode : bool;
  fast_append : bool
}.

(** What the route works on: the files, the duplicate-check caches of
    the module and the job registry. *)
Record state : Type := mkState {
  fs : Main.FS;
  caches : App.Caches;
  job_service : JobService.JobService
}.

Inductive target : Type :=
| to_index
| to_monitor (job_id : string).

(** The categories of the messages flashed, in order, and the redirect
    returned. *)
Record response : Type := mkResponse {
  flashed : list string;
  redirect : target
}.

(** [start_scraping]; [now] is the clock reading of
    [optimize_duplicate_check_caches], [clk] the readings of [start_job]
    and [job_id] the [uuid4] drawn. *)
Definition start_scraping (now : Q) (clk : JobService.StartClock) (job_id : string)
    (form : Form) (st : state) : response * state :=
  let caches := App.optimize_duplicate_check_caches now (caches st) in
  let search_query := Text.strip (search_query form) in
  match total_results form with
  | None => (mkResponse ["error"] to_index, mkState (fs st) caches (job_service st))
  | Some total_results =>
      let output_file := Text.strip (output_file form) in
      let append_mode := append_mode form in
      let fast_append := fast_append form in
      if bool_decide (search_query = "") then
        (mkResponse ["error"] to_index, mkState (fs st) caches (job_service st))
      else if total_results <? 1 then
        (mkResponse ["error"] to_index, mkState (fs st) caches (job_service st))
      else
        let '(cache, fs) := Main.load_cache (fs st) search_query output_file in
        let '(cache, append_mode, fs, flashes) :=
          match cache with
          | Some cache =>
              let existing_count :=
                if fast_append
                then Main.get_existing_data_count_lightning fs output_file
                else Main.get_existing_data_count fs output_file in
              if Main.scraped_count cache <=? existing_count
              then (Some cache, true, fs, ["info"])
              else (None, append_mode, Main.clear_cache fs search_query output_file, [])
          | None => (None, append_mode, fs, [])
          end in
        let submit (append_mode : bool) (flashes : list string)
            (caches : App.Caches) :=
          match JobService.start_job clk job_id search_query total_results
                  output_file append_mode fast_append (job_service st) with
          | (inl e, job_service) =>
              (mkResponse (flashes ++ ["error"]) to_index, mkState fs caches job_service)
          | (inr _, job_service) =>
              (mkResponse flashes (to_monitor job_id), mkState fs caches job_service)
          end in
        if negb append_mode && negb fast_append && negb (bool_decide (is_Some cache)) then
          match App.check_duplicate_file fs caches search_query [] output_file with
          | ((true, _), caches) =>
              (mkResponse (flashes ++ ["warning"]) to_index,
               mkState fs caches (job_service st))
          | ((false, _), caches) => submit append_mode flashes caches
          end
        else if fast_append then submit true (flashes ++ ["success"]) caches
        else submit append_mode flashes caches
  end.

End Web.

(** ** Concrete scenarios used by the examples below *)

Module Scenario.

Definition nl : string := String Text.newline EmptyString.

(** A results file with a header line and ten records. *)
Definition ten_records : string :=
  String.concat nl
    ["name,address"; "Cafe 1,1 Main St"; "Cafe 2,2 Main St"; "Cafe 3,3 Main St";
     "Cafe 4,4 Main St"; "Cafe 5,5 Main St"; "Cafe 6,6 Main St";
     "Cafe 7,7 Main St"; "Cafe 8,8 Main St"; "Cafe 9,9 Main St";
     "Cafe 10,10 Main St"] +:+ nl.

Definition disk : Main.FS :=
  Main.mkFS {[ "results.csv" := Main.mkFile ten_records true ]} ∅.

(** The same disk after a checkpoint that claims 25 scraped records. *)
Definition disk_with_checkpoint : Main.FS :=
  (Main.save_cache disk "coffee shops" "results.csv" 100 25 25
     "2025-01-01T00:00:00").2.

Definition checkpoint : Main.ScrapingCache :=
  Main.mkScrapingCache "coffee shops" "results.csv" 100 25 25
    "2025-01-01T00:00:00" (Main.generate_cache_id "coffee shops" "results.csv").

(** A running job with the two samples of the end-to-end scenario. *)
Definition job_two_samples : JobService.ScrapingJobState :=
  JobService.mkJob "job-1" "coffee shops" 100 "results.csv" false false
    "running" 100 100 None 0 None 0 None 0 (Some 1060%Q)
    [(1000%Q, 10); (1060%Q, 100)] [].

Definition clock_at (t : Q) : JobService.StartClock :=
  JobService.mkStartClock t t t t t.

(** The default registry after one accepted submission at time 0. *)
Definition one_job : JobService.JobService :=
  (JobService.start_job (clock_at 0) "job-1" "coffee shops" 100 "results.csv"
     false false JobService.with_defaults).2.

(** The job of [one_job], as [start_job] created it and handed it to
    the worker. *)
Definition fresh_job : JobService.ScrapingJobState :=
  JobService.mkJob "job-1" "coffee shops" 100 "results.csv" false false
    "running" 0 0 None 0 None 0 None 0 (Some 0%Q) [] [].

Definition progress_of (current : Z) (timestamp : Q) : Runner.ProgressPayload :=
  Runner.mkProgress None (Some current) None None (Some timestamp).

(** A progress payload by which the worker reports its own failure. *)
Definition failing_progress : Runner.ProgressPayload :=
  Runner.mkProgress None None (Some "browser crashed") (Some "failed") (Some 5%Q).

(** An execution: a fresh registry, one accepted submission, then the
    failing progress callback of its worker. *)
Definition world0 : Exec.world :=
  Exec.mkWorld JobService.with_defaults ∅ ∅ 0 [].

Definition world1 : Exec.world :=
  Exec.mkWorld one_job ({["job-1"]} ∪ ∅) ({["job-1"]} ∪ ∅) 0 ([] ++ [0%Q]).

Definition world2 : Exec.world :=
  Exec.mkWorld
    (JobService.deliver 5 "job-1" (Runner.OnProgress failing_progress) one_job).1
    ({["job-1"]} ∪ ∅) ({["job-1"]} ∪ ∅) 5 ([] ++ [0%Q]).

(** The same execution, ended by the worker's return with a failure. *)
Definition world3 : Exec.world :=
  Exec.mkWorld
    (JobService.finish (JobService.mkFinishClock 6 6 6) fresh_job
       (Runner.mkResult false 6 (Some (Py.OtherException "browser crashed")))
       (Exec.svc world2)).1
    (({["job-1"]} ∪ ∅) ∖ {["job-1"]}) ({["job-1"]} ∪ ∅) 6 ([] ++ [0%Q]).

(** The registry of test_job_service.py (one submission per 60 seconds),
    fresh and after one accepted submission at time 0. *)
Definition strict : JobService.JobService := JobService.new 1 60 3600 120 2.

Definition strict_world0 : Exec.world := Exec.mkWorld strict ∅ ∅ 0 [].

Definition strict_world1 : Exec.world :=
  Exec.mkWorld
    (JobService.start_job (clock_at 0) "job-rate-1" "coffee" 5 "file.csv"
       false false strict).2
    ({["job-rate-1"]} ∪ ∅) ({["job-rate-1"]} ∪ ∅) 0 ([] ++ [0%Q]).

(** The end-to-end scenario: target 100, the runner reports 10 records at
    time 1000 and 100 records at time 1060, then returns success. *)
Definition scenario_calls : list (Q * Runner.callback) :=
  [(1000%Q, Runner.OnProgress (Runner.mkProgress (Some 10%Q) (Some 10) None None (Some 1000%Q)));
   (1060%Q, Runner.OnProgress (Runner.mkProgress (Some 100%Q) (Some 100) None None (Some 1060%Q)))].

Definition is_job_progress (e : JobService.emitted) : bool :=
  match e with JobService.job_progress _ _ _ _ _ _ _ => true | _ => false end.

Definition is_job_metrics (e : JobService.emitted) : bool :=
  match e with JobService.job_metrics _ _ _ _ _ _ => true | _ => false end.

(** Twenty-six one-column records, named by their number. *)
Definition numbered (n : nat) : Main.row := [("name", Main.CInt (Z.of_nat n))].

Definition twenty_six : list Main.row := numbered <$> seq 0 26.

(** A registry that runs one job at a time: one accepted submission,
    whose runner then raises; and the same after a second submission has
    been refused. *)
Definition single : JobService.JobService := JobService.new 5 60 900 180 1.

Definition single_job : JobService.JobService :=
  (JobService.start_job (clock_at 0) "job-1" "coffee shops" 100 "results.csv"
     false false single).2.

(** That registry while the worker of its one job is still running. *)
Definition single_world0 : Exec.world := Exec.mkWorld single ∅ ∅ 0 [].

Definition single_world1 : Exec.world :=
  Exec.mkWorld single_job ({["job-1"]} ∪ ∅) ({["job-1"]} ∪ ∅) 0 ([] ++ [0%Q]).

Definition crashed_world : Exec.world :=
  Exec.mkWorld single_job (({["job-1"]} ∪ ∅) ∖ {["job-1"]}) ({["job-1"]} ∪ ∅) 0
    ([] ++ [0%Q]).

Definition crashed_world_later : Exec.world :=
  Exec.mkWorld
    (JobService.start_job (clock_at 1000) "job-2" "tea rooms" 10 "tea.csv" false false
       single_job).2
    (({["job-1"]} ∪ ∅) ∖ {["job-1"]}) ({["job-1"]} ∪ ∅) 1000 ([] ++ [0%Q]).

(** A job created when the clock read 100, on a machine five hours
    behind UTC. *)
Definition job_west : JobService.ScrapingJobState :=
  JobService.mkJob "job-1" "coffee shops" 100 "results.csv" false false
    "running" 0 0 None (JobService.utcnow_timestamp (- 18000) 100) None 0 None 0
    (Some 100%Q) [] [].

(** A results file written in Latin-1: the byte 233 of its one record
    does not begin a UTF-8 sequence here. *)
Definition latin1_record : string :=
  "Caf" +:+ String (ascii_of_nat 233) " 1,1 Main St".

Definition latin1_disk : Main.FS :=
  Main.mkFS
    {[ "results.csv" :=
         Main.mkFile (Text.unlines Text.lf ["name,address"; latin1_record]) true ]} ∅.

(** A disk on which the output file of the pair (a_b, c) exists. *)
Definition collision_disk : Main.FS :=
  Main.mkFS {[ "c" := Main.mkFile ("name,address" +:+ nl) true ]} ∅.

(** A checkpoint store whose output file is gone. *)
Definition orphan_store : Main.FS :=
  (Main.save_cache (Main.mkFS ∅ ∅) "coffee shops" "results.csv" 100 25 25
     "2025-01-01T00:00:00").2.

(** The results file rewritten with other records of the same length. *)
Definition ten_other_records : string :=
  String.concat nl
    ["name,address"; "Cake 1,1 Main St"; "Cake 2,2 Main St"; "Cake 3,3 Main St";
     "Cake 4,4 Main St"; "Cake 5,5 Main St"; "Cake 6,6 Main St";
     "Cake 7,7 Main St"; "Cake 8,8 Main St"; "Cake 9,9 Main St";
     "Cake 10,10 Main St"] +:+ nl.

Definition rewritten_disk : Main.FS :=
  Main.mkFS {[ "results.csv" := Main.mkFile ten_other_records true ]} ∅.

(** The disk with a checkpoint that the ten records on it cover, and a
    request of the web form for the same query and file. *)
Definition resumable_disk : Main.FS :=
  (Main.save_cache disk "coffee shops" "results.csv" 100 10 9
     "2025-01-01T00:00:00").2.

Definition resumable_checkpoint : Main.ScrapingCache :=
  Main.mkScrapingCache "coffee shops" "results.csv" 100 10 9
    "2025-01-01T00:00:00" (Main.generate_cache_id "coffee shops" "results.csv").

Definition web_state : Web.state :=
  Web.mkState resumable_disk App.initial JobService.with_defaults.

Definition resume_form : Web.Form :=
  Web.mkForm " coffee shops " (Some 100) "results.csv" false false.

(** A layout in which a record is the name of the place on a line of its
    own, under the header [name]; places that have a name only; one
    timestamp for all checkpoints. *)
Definition layout : Main.Layout :=
  Main.mkLayout ("name" +:+ nl) (λ place, Main.name place +:+ nl)
    (λ _, "name" +:+ nl) (λ _ place, Main.name place +:+ nl).

Definition place_named (name : string) : Main.Place :=
  Main.mkPlace name "" "" "" None None "No" "No" "No" "" "" "None Found".

Definition stamp (idx : Z) : string := "2025-01-01T00:00:00".

Definition cafe_a : Main.Place := place_named "Cafe A".
Definition cafe_b : Main.Place := place_named "Cafe B".
Definition cafe_c : Main.Place := place_named "Cafe C".

(** Eleven listings that load, followed by one that does not. *)
Definition twelve_listings : list Main.listing :=
  ((λ n : nat, Main.Loaded (place_named ("Cafe " +:+ pretty n))) <$> seq 1 11)
  ++ [Main.Failed].

(** Two listings that load, an interrupt at the third, one more. *)
Definition interrupted_listings : list Main.listing :=
  [Main.Loaded cafe_a; Main.Loaded cafe_b] ++ Main.Interrupted :: [Main.Loaded cafe_c].

(** A first run on an empty disk, without [--append] and
    [--ultra-fast]; and a run with [--append] on the disk that holds the
    ten records. *)
Definition empty_disk : Main.FS := Main.mkFS ∅ ∅.

Definition fresh_args : Main.Args :=
  Main.mkArgs (Some "coffee shops") (Some 12) "fresh.csv" false false.

Definition append_args : Main.Args :=
  Main.mkArgs (Some "coffee shops") (Some 100) "results.csv" true false.

End Scenario.

(** * Properties *)

(** ** The LRU cache *)

Section lru_facts.
Context {K V : Type} `{EqDecision K}.
Implicit Types (d : list (K * V)) (k : K) (v : V) (ks : list K).
Import LRU.

Lemma od_get_None k d : od_get k d = None ↔ k ∉ d.*1.
Proof.
  induction d as [|[k' v'] d IH]; simpl.
  - split; [intros _; apply not_elem_of_nil | done].
  - rewrite not_elem_of_cons. destruct (decide (k' = k)) as [->|Hne].
    + split; [done | intros [? _]; done].
    + rewrite IH. split; [intros ?; split; [congruence | done] | intros [_ ?]; done].
Qed.

Lemma od_get_is_Some k d : is_Some (od_get k d) ↔ k ∈ d.*1.
Proof.
  destruct (od_get k d) as [v|] eqn:E.
  - split; [intros _ | eauto].
    destruct (decide (k ∈ d.*1)) as [|Hn]; [done|].
    apply od_get_None in Hn. congruence.
  - apply od_get_None in E. split; [intros [? ?]; done | done].
Qed.

Lemma od_remove_keys k d : (od_remove k d).*1 = filter (λ k', k' ≠ k) d.*1.
Proof.
  unfold od_remove. induction d as [|[k' v'] d IH]; [done|].
  destruct (decide (k' = k)) as [->|Hne].
  - rewrite filter_cons_False by (simpl; tauto). rewrite fmap_cons.
    rewrite filter_cons_False by (simpl; tauto). done.
  - rewrite filter_cons_True by done. rewrite !fmap_cons.
    rewrite filter_cons_True by done. by rewrite IH.
Qed.

Lemma od_remove_absent k d : k ∉ (od_remove k d).*1.
Proof. rewrite od_remove_keys, list_elem_of_filter. intros [? _]; done. Qed.

Lemma filter_ne_absent k ks : k ∉ ks → filter (λ k', k' ≠ k) ks = ks.
Proof.
  induction ks as [|k' ks IH]; [done|].
  rewrite not_elem_of_cons. intros [Hne Hn].
  rewrite filter_cons_True by congruence. by rewrite IH.
Qed.

Lemma od_set_absent k v d : k ∉ d.*1 → od_set k v d = d ++ [(k, v)].
Proof.
  induction d as [|[k' v'] d IH]; [done|]. simpl.
  rewrite not_elem_of_cons. intros [Hne Hn].
  destruct (decide (k' = k)); [congruence|]. by rewrite IH.
Qed.

Lemma od_set_last k v v0 d :
  k ∉ d.*1 → od_set k v (d ++ [(k, v0)]) = d ++ [(k, v)].
Proof.
  induction d as [|[k' v'] d IH]; simpl.
  - intros _. by destruct (decide (k = k)).
  - rewrite not_elem_of_cons. intros [Hne Hn].
    destruct (decide (k' = k)); [congruence|]. by rewrite IH.
Qed.

Lemma od_get_last k v d : k ∉ d.*1 → od_get k (d ++ [(k, v)]) = Some v.
Proof.
  induction d as [|[k' v'] d IH]; simpl.
  - intros _. by destruct (decide (k = k)).
  - rewrite not_elem_of_cons. intros [Hne Hn].
    destruct (decide (k' = k)); [congruence|]. by apply IH.
Qed.

(** *** What [get] and [put] do, case by case *)

Lemma get_hit k v (c : LRUCache K V) :
  od_get k (cache c) = Some v →
  get k c = (Some v, mkLRU (od_remove k (cache c) ++ [(k, v)]) (max_size c)).
Proof.
  intros E. unfold get, move_to_end. rewrite E.
  by rewrite od_get_last by apply od_remove_absent.
Qed.

Lemma get_miss k (c : LRUCache K V) :
  od_get k (cache c) = None → get k c = (None, c).
Proof. intros E. unfold get. by rewrite E. Qed.

Lemma put_present k v v0 (c : LRUCache K V) :
  od_get k (cache c) = Some v0 →
  put k v c = inr (mkLRU (od_remove k (cache c) ++ [(k, v)]) (max_size c)).
Proof.
  intros E. unfold put, move_to_end. rewrite E.
  by rewrite od_set_last by apply od_remove_absent.
Qed.

Lemma put_fresh_room k v (c : LRUCache K V) :
  od_get k (cache c) = None →
  (Z.of_nat (length (cache c)) < max_size c)%Z →
  put k v c = inr (mkLRU (cache c ++ [(k, v)]) (max_size c)).
Proof.
  intros E Hlt. unfold put. rewrite E.
  destruct (Z.leb_spec (max_size c) (Z.of_nat (length (cache c)))); [lia|].
  apply od_get_None in E. by rewrite od_set_absent.
Qed.

Lemma put_fresh_full k v kv0 rest (c : LRUCache K V) :
  od_get k (cache c) = None →
  (max_size c ≤ Z.of_nat (length (cache c)))%Z →
  cache c = kv0 :: rest →
  put k v c = inr (mkLRU (rest ++ [(k, v)]) (max_size c)).
Proof.
  intros E Hle Hc. unfold put. rewrite E.
  destruct (Z.leb_spec (max_size c) (Z.of_nat (length (cache c)))); [|lia].
  apply od_get_None in E. rewrite Hc in *. simpl.
  rewrite od_set_absent; [done|].
  simpl in E. rewrite not_elem_of_cons in E. tauto.
Qed.

Lemma put_fresh_empty k v (c : LRUCache K V) :
  (max_size c ≤ 0)%Z → cache c = [] → put k v c = inl Py.KeyError.
Proof.
  intros Hle Hc. unfold put. rewrite Hc. cbn [od_get length popitem_first].
  change (Z.of_nat 0) with 0%Z.
  destruct (Z.leb_spec (max_size c) 0); [done | lia].
Qed.

End lru_facts.

Section lru_recency.
Context {K V : Type} `{EqDecision K}.
Implicit Types (k : K) (v : V) (ks : list K) (ops : list (LRU.op K V)).
Import LRU.

Lemma last_access_from_snoc i ops (o : op K V) k :
  last_access_from i (ops ++ [o]) k =
    if decide (op_key o = k) then Some (i + length ops)%nat
    else last_access_from i ops k.
Proof.
  revert i. induction ops as [|o' ops IH]; intros i; simpl.
  - destruct (decide (op_key o = k)); [f_equal; lia | done].
  - rewrite IH. destruct (decide (op_key o = k)); [f_equal; lia | done].
Qed.

Lemma last_access_from_bound i ops k j :
  last_access_from i ops k = Some j → (i ≤ j < i + length ops)%nat.
Proof.
  revert i. induction ops as [|o ops IH]; intros i; simpl; [done|].
  destruct (last_access_from (S i) ops k) as [j'|] eqn:E.
  - intros [= <-]. apply IH in E. lia.
  - destruct (decide (op_key o = k)); [intros [= <-]; lia | done].
Qed.

Lemma last_access_snoc ops (o : op K V) k :
  last_access (ops ++ [o]) k =
    if decide (op_key o = k) then Some (length ops) else last_access ops k.
Proof. unfold last_access. by rewrite last_access_from_snoc. Qed.

Lemma last_access_bound ops k j :
  last_access ops k = Some j → (j < length ops)%nat.
Proof. intros E. apply last_access_from_bound in E. lia. Qed.

Lemma less_recent_snoc_other ops (o : op K V) k1 k2 :
  op_key o ≠ k1 → op_key o ≠ k2 →
  less_recent ops k1 k2 → less_recent (ops ++ [o]) k1 k2.
Proof.
  intros H1 H2 (i & j & Hi & Hj & Hlt). exists i, j.
  rewrite !last_access_snoc.
  destruct (decide (op_key o = k1)); [done|].
  destruct (decide (op_key o = k2)); done.
Qed.

Lemma less_recent_snoc_new ops (o : op K V) k1 :
  op_key o ≠ k1 → is_Some (last_access ops k1) →
  less_recent (ops ++ [o]) k1 (op_key o).
Proof.
  intros H1 [i Hi]. exists i, (length ops).
  rewrite !last_access_snoc.
  destruct (decide (op_key o = k1)); [done|].
  destruct (decide (op_key o = op_key o)); [|done].
  split_and!; [done | done | by eapply last_access_bound].
Qed.

Lemma recency_sorted_untouched ops (o : op K V) ks :
  op_key o ∉ ks → recency_sorted ops ks → recency_sorted (ops ++ [o]) ks.
Proof.
  intros Hn [Hs Hf]. split.
  - induction Hs as [|k ks Hs IH Hall]; [constructor|].
    apply not_elem_of_cons in Hn as [Hne Hn].
    apply Forall_cons in Hf as [_ Hf].
    constructor; [by apply IH|].
    rewrite Forall_forall in Hall |- *. intros k' Hk'.
    apply less_recent_snoc_other; [done | | by apply Hall].
    intros Heq. by rewrite Heq in Hn.
  - rewrite Forall_forall in Hf |- *. intros k Hk.
    rewrite last_access_snoc.
    destruct (decide (op_key o = k)); [eauto | by apply Hf].
Qed.

Lemma Forall_sublist_of {A} (P : A → Prop) (l l' : list A) :
  l' `sublist_of` l → Forall P l → Forall P l'.
Proof.
  intros Hsub. rewrite !Forall_forall. intros Hl x Hx.
  apply Hl. by eapply sublist_subseteq.
Qed.

Lemma recency_sorted_sublist ops ks ks' :
  ks' `sublist_of` ks → recency_sorted ops ks → recency_sorted ops ks'.
Proof.
  intros Hsub [Hs Hf]. split; [|by eapply Forall_sublist_of].
  clear Hf. induction Hsub as [|k l1 l2 Hsub IH|k l1 l2 Hsub IH]; [done| |].
  - apply StronglySorted_cons in Hs as [Hall Hs].
    apply StronglySorted_cons. split; [by eapply Forall_sublist_of | by apply IH].
  - apply StronglySorted_cons in Hs as [_ Hs]. by apply IH.
Qed.

Lemma recency_sorted_touch ops (o : op K V) ks :
  op_key o ∉ ks → recency_sorted ops ks →
  recency_sorted (ops ++ [o]) (ks ++ [op_key o]).
Proof.
  intros Hn Hrs. pose proof (recency_sorted_untouched _ o _ Hn Hrs) as [Hs Hf].
  destruct Hrs as [_ Hf0]. split.
  - apply StronglySorted_app. split_and!; [|done|repeat constructor].
    intros k1 k2 Hk1 Hk2. apply list_elem_of_singleton in Hk2 as ->.
    apply less_recent_snoc_new.
    + intros Heq. by rewrite Heq in Hn.
    + rewrite Forall_forall in Hf0. by apply Hf0.
  - apply Forall_app. split; [done|]. constructor; [|constructor].
    rewrite last_access_snoc. destruct (decide (op_key o = op_key o)); [eauto|done].
Qed.

Lemma filter_ne_sublist k ks : filter (λ k', k' ≠ k) ks `sublist_of` ks.
Proof. apply sublist_filter. Qed.

Lemma filter_ne_absent' k ks : k ∉ filter (λ k', k' ≠ k) ks.
Proof. rewrite list_elem_of_filter. intros [? _]; done. Qed.

(** One operation: the keys either stay (miss, or a [put] that raised),
    or the named key moves to the young end, after the oldest key was
    dropped when a fresh key met a full cache. *)
Lemma step_recency ops (o : op K V) (c : LRUCache K V) :
  recency_sorted ops (keys c) →
  recency_sorted (ops ++ [o]) (keys (step c o)).
Proof.
  intros Hrs. unfold keys in *. destruct o as [k|k v]; simpl.
  - destruct (od_get k (cache c)) as [v|] eqn:E.
    + rewrite (get_hit _ _ _ E). simpl.
      rewrite fmap_app, od_remove_keys. simpl.
      apply (recency_sorted_touch ops (Get k)); [apply filter_ne_absent'|].
      eapply recency_sorted_sublist; [apply filter_ne_sublist | done].
    + rewrite (get_miss _ _ E). simpl.
      apply recency_sorted_untouched; [|done]. by apply od_get_None.
  - destruct (od_get k (cache c)) as [v0|] eqn:E.
    + rewrite (put_present _ v _ _ E). simpl.
      rewrite fmap_app, od_remove_keys. simpl.
      apply (recency_sorted_touch ops (Put k v)); [apply filter_ne_absent'|].
      eapply recency_sorted_sublist; [apply filter_ne_sublist | done].
    + pose proof E as Hn. apply od_get_None in Hn.
      destruct (Z.le_gt_cases (max_size c) (Z.of_nat (length (cache c)))) as [Hfull|Hroom].
      * destruct (cache c) as [|kv0 rest] eqn:Hc.
        -- rewrite put_fresh_empty by (simpl in Hfull; first [lia | done]).
           rewrite Hc. by apply recency_sorted_untouched.
        -- rewrite (put_fresh_full k v kv0 rest) by (rewrite ?Hc; done).
           simpl. rewrite fmap_app. simpl.
           simpl in Hn. apply not_elem_of_cons in Hn as [_ Hn].
           apply (recency_sorted_touch ops (Put k v)); [done|].
           eapply recency_sorted_sublist; [|done]. simpl. by apply sublist_cons.
      * rewrite put_fresh_room by (first [done | lia]). simpl.
        rewrite fmap_app. simpl.
        by apply (recency_sorted_touch ops (Put k v)).
Qed.

Lemma run_snoc ops (o : op K V) (c : LRUCache K V) :
  run (ops ++ [o]) c = step (run ops c) o.
Proof. unfold run. by rewrite fold_left_app. Qed.

Lemma run_recency ops m :
  recency_sorted ops (keys (run ops (empty m : LRUCache K V))).
Proof.
  induction ops as [|o ops IH] using rev_ind.
  - split; constructor.
  - rewrite run_snoc. by apply step_recency.
Qed.

(** *** The size bound *)

Lemma step_max_size (c : LRUCache K V) o : max_size (step c o) = max_size c.
Proof.
  destruct o as [k|k v]; simpl.
  - unfold get. by destruct (od_get k (cache c)).
  - unfold put. destruct (od_get k (cache c)); [done|].
    destruct (_ <=? _)%Z; [|done].
    by destruct (cache c).
Qed.

Lemma run_max_size ops m : max_size (run ops (empty m : LRUCache K V)) = m.
Proof.
  induction ops as [|o ops IH] using rev_ind; [done|].
  by rewrite run_snoc, step_max_size.
Qed.

Lemma od_remove_length k v (d : list (K * V)) :
  od_get k d = Some v → (length (od_remove k d ++ [(k, v)]) ≤ length d)%nat.
Proof.
  intros E. rewrite length_app. simpl.
  assert (k ∈ d.*1) as Hin by (apply od_get_is_Some; eauto).
  apply list_elem_of_fmap in Hin as ([k' v'] & -> & Hin).
  assert (¬ (k', v').1 ≠ k') as Hnn by (intros Hc; by apply Hc).
  pose proof (length_filter_lt (λ kv : K * V, kv.1 ≠ k') d (k', v') Hin Hnn) as Hlt.
  unfold od_remove. simpl in *. lia.
Qed.

Lemma step_bounded (c : LRUCache K V) o :
  (Z.of_nat (length (cache c)) ≤ Z.max 0 (max_size c))%Z →
  (Z.of_nat (length (cache (step c o))) ≤ Z.max 0 (max_size c))%Z.
Proof.
  intros Hb. destruct o as [k|k v]; simpl.
  - destruct (od_get k (cache c)) as [v|] eqn:E.
    + rewrite (get_hit _ _ _ E). simpl.
      pose proof (od_remove_length _ _ _ E). lia.
    + by rewrite (get_miss _ _ E).
  - destruct (od_get k (cache c)) as [v0|] eqn:E.
    + rewrite (put_present _ v _ _ E). simpl.
      pose proof (od_remove_length _ _ _ E) as Hl.
      rewrite length_app in *. simpl in *. lia.
    + destruct (Z.le_gt_cases (max_size c) (Z.of_nat (length (cache c)))) as [Hfull|Hroom].
      * destruct (cache c) as [|kv0 rest] eqn:Hc.
        -- rewrite put_fresh_empty by (simpl in Hfull; first [lia | done]).
           by rewrite Hc.
        -- rewrite (put_fresh_full k v kv0 rest) by (rewrite ?Hc; done).
           simpl. rewrite length_app. simpl in *. lia.
      * rewrite put_fresh_room by (first [done | lia]). simpl.
        rewrite length_app. simpl. lia.
Qed.

Lemma run_bounded ops m :
  (Z.of_nat (length (cache (run ops (empty m : LRUCache K V)))) ≤ Z.max 0 m)%Z.
Proof.
  induction ops as [|o ops IH] using rev_ind; [simpl; lia|].
  rewrite run_snoc. pose proof (run_max_size ops m) as Hm.
  pose proof (step_bounded (run ops (empty m)) o) as Hs.
  rewrite Hm in Hs. by apply Hs.
Qed.

End lru_recency.

(** C9. The bounded cache keeps the LRU discipline along every sequence of
    [get] and [put] from the empty cache: (1) it never holds more entries
    than its capacity; (2) a [put] of a new key into a full cache drops the
    first entry, and every entry that stays was accessed more recently
    than the dropped one; (3) a [get] of a present key returns its value
    and moves the entry to the young end, where it is more recent than
    every other key.  The duplicate cache of app.py has capacity 200. *)
Theorem lru_cache_invariant {K V : Type} `{EqDecision K}
    (m : Z) (ops : list (LRU.op K V)) :
  let c := LRU.run ops (LRU.empty m) in
  (Z.of_nat (length (LRU.cache c)) ≤ Z.max 0 m)%Z
  ∧ (∀ k v, LRU.od_get k (LRU.cache c) = None →
       (0 < m ≤ Z.of_nat (length (LRU.cache c)))%Z →
       ∃ kv0 rest,
         LRU.cache c = kv0 :: rest
         ∧ LRU.put k v c = inr (LRU.mkLRU (rest ++ [(k, v)]) m)
         ∧ ∀ k', k' ∈ rest.*1 → LRU.less_recent ops kv0.1 k')
  ∧ (∀ k v, LRU.od_get k (LRU.cache c) = Some v →
       LRU.get k c = (Some v, LRU.mkLRU (LRU.od_remove k (LRU.cache c) ++ [(k, v)]) m)
       ∧ ∀ k', k' ∈ LRU.keys c → k' ≠ k →
           LRU.less_recent (ops ++ [LRU.Get k]) k' k).
Proof.
  intros c. pose proof (run_max_size ops m) as Hm. fold c in Hm.
  pose proof (run_recency ops m) as Hrs. fold c in Hrs.
  split_and!.
  - apply run_bounded.
  - intros k v Hnew [Hpos Hfull].
    destruct (LRU.cache c) as [|kv0 rest] eqn:Hc; [simpl in Hfull; lia|].
    exists kv0, rest. split_and!; [done| |].
    + rewrite (put_fresh_full k v kv0 rest); rewrite ?Hm, ?Hc; done.
    + destruct Hrs as [Hs _]. unfold LRU.keys in Hs. rewrite Hc in Hs.
      simpl in Hs. apply StronglySorted_cons in Hs as [Hall _].
      intros k' Hk'. rewrite Forall_forall in Hall. by apply Hall.
  - intros k v Hk. split; [by rewrite (get_hit _ _ _ Hk), Hm|].
    intros k' Hk' Hne. destruct Hrs as [_ Hf].
    rewrite Forall_forall in Hf.
    apply (less_recent_snoc_new ops (LRU.Get k) k'); [simpl; congruence|].
    by apply Hf.
Qed.

Lemma lru_cache_invariant_witness :
  let ops := [LRU.Put "a" 1%nat; LRU.Put "b" 2%nat; LRU.Get "a"] in
  let c := LRU.run ops (LRU.empty 2) in
  LRU.cache c = [("b", 2%nat); ("a", 1%nat)]
  ∧ (Z.of_nat (length (LRU.cache c)) ≤ 2)%Z
  ∧ LRU.put "c" 3%nat c = inr (LRU.mkLRU [("a", 1%nat); ("c", 3%nat)] 2)
  ∧ LRU.less_recent ops "b" "a"
  ∧ LRU.get "b" c = (Some 2%nat, LRU.mkLRU [("a", 1%nat); ("b", 2%nat)] 2)
  ∧ LRU.less_recent (ops ++ [LRU.Get "b"]) "a" "b"
  ∧ (Z.of_nat (length (LRU.cache (LRU.run [LRU.Put "k" (App.mkEntry true 7)]
                                     (App._duplicate_cache App.initial)))) ≤ 200)%Z.
Proof.
  intros ops cc.
  pose proof (lru_cache_invariant 2 ops) as Hinv. cbv zeta in Hinv.
  destruct Hinv as (Hb & He & Hg).
  destruct (He "c" 3%nat) as (kv0 & rest & Hc & Hput & Hlr);
    [reflexivity | vm_compute; split; [reflexivity | discriminate] |].
  fold cc in Hb, Hg, Hc, Hput.
  assert (LRU.cache cc = [("b", 2%nat); ("a", 1%nat)]) as Hcache by reflexivity.
  rewrite Hcache in Hc. injection Hc as <- <-.
  destruct (Hg "b" 2%nat) as [Hget Hmru]; [reflexivity|].
  split_and!.
  - exact Hcache.
  - exact Hb.
  - exact Hput.
  - apply (Hlr "a"). vm_compute. apply list_elem_of_here.
  - exact Hget.
  - apply Hmru; [vm_compute; apply list_elem_of_further, list_elem_of_here | discriminate].
  - pose proof (lru_cache_invariant 200 [LRU.Put "k" (App.mkEntry true 7)]) as H200.
    cbv zeta in H200. exact (proj1 H200).
Defined.

(** ** The checkpoint fingerprint *)

Lemma le_bytes_length n x : length (MD5.le_bytes n x) = n.
Proof. revert x. induction n as [|n IH]; intros x; simpl; [done | by rewrite IH]. Qed.

Lemma hex_length bs : String.length (MD5.hex bs) = (2 * length bs)%nat.
Proof. induction bs as [|b bs IH]; simpl; [done | rewrite IH; lia]. Qed.

Lemma hexdigest_length s : String.length (MD5.hexdigest s) = 32%nat.
Proof.
  unfold MD5.hexdigest, MD5.digest. rewrite hex_length.
  destruct (fold_left _ _ _) as [[[a b] c] d].
  rewrite !length_app, !le_bytes_length. done.
Qed.

(** The model of MD5 agrees with RFC 1321 on its test vectors. *)
Example md5_test_vectors :
  MD5.hexdigest "" = "d41d8cd98f00b204e9800998ecf8427e"
  ∧ MD5.hexdigest "abc" = "900150983cd24fb0d6963f7d28e17f72"
  ∧ MD5.hexdigest "message digest" = "f96b697d7cb7938d525a2f31aaf161d0".
Proof. split_and!; vm_compute; reflexivity. Qed.

(** C10, as stated, fails: two distinct (query, output target) pairs with
    one fingerprint, because both join to the string [a_b_c]. *)
Lemma generate_cache_id_collision :
  ("a_b", "c") ≠ ("a", "b_c")
  ∧ Main.generate_cache_id "a_b" "c" = Main.generate_cache_id "a" "b_c".
Proof.
  split; [discriminate|].
  unfold Main.generate_cache_id. f_equal.
Qed.

Lemma load_after_save fs search_query output_file total_target scraped_count
    last_scraped_index now search_query' output_file' :
  Main.path_exists fs output_file = true →
  Main.generate_cache_id search_query' output_file'
    = Main.generate_cache_id search_query output_file →
  Main.load_cache
    (Main.save_cache fs search_query output_file total_target scraped_count
       last_scraped_index now).2 search_query' output_file'
  = (Some (Main.mkScrapingCache search_query output_file total_target scraped_count
             last_scraped_index now (Main.generate_cache_id search_query output_file)),
     (Main.save_cache fs search_query output_file total_target scraped_count
        last_scraped_index now).2).
Proof.
  intros Hex Hid. unfold Main.save_cache, Main.load_cache. cbn.
  rewrite Hid, lookup_insert_eq. cbn.
  unfold Main.path_exists in *. cbn. by rewrite Hex.
Qed.

(** C10, amended.  The fingerprint is a deterministic digest: the MD5 hex
    digest, 32 characters long, of the query and the output target joined
    by an underscore.  The store is addressed by nothing else: a save
    writes the record under the fingerprint of its query and output
    target, and a load with the same query and output target, the output
    target being there, finds exactly that record and leaves the store
    as it is; a second save for the same pair replaces the record under
    the same fingerprint and touches no other. *)
Theorem generate_cache_id_deterministic (fs : Main.FS)
    (search_query output_file : string)
    (total_target scraped_count last_scraped_index : Z) (now : string)
    (total_target' scraped_count' last_scraped_index' : Z) (now' : string) :
  Main.path_exists fs output_file = true →
  let fingerprint := Main.generate_cache_id search_query output_file in
  let saved :=
    Main.save_cache fs search_query output_file total_target scraped_count
      last_scraped_index now in
  let record :=
    Main.mkScrapingCache search_query output_file total_target scraped_count
      last_scraped_index now fingerprint in
  let again :=
    Main.save_cache saved.2 search_query output_file total_target' scraped_count'
      last_scraped_index' now' in
  let record' :=
    Main.mkScrapingCache search_query output_file total_target' scraped_count'
      last_scraped_index' now' fingerprint in
  fingerprint = MD5.hexdigest (search_query +:+ "_" +:+ output_file)
  ∧ String.length fingerprint = 32%nat
  ∧ saved.1 = fingerprint
  ∧ Main.cache_files saved.2 = <[fingerprint := Some record]> (Main.cache_files fs)
  ∧ Main.load_cache saved.2 search_query output_file = (Some record, saved.2)
  ∧ again.1 = fingerprint
  ∧ Main.cache_files again.2 = <[fingerprint := Some record']> (Main.cache_files fs)
  ∧ Main.load_cache again.2 search_query output_file = (Some record', again.2)
  ∧ Main.files again.2 = Main.files fs.
Proof.
  intros Hex fingerprint saved record again record'.
  assert (Main.path_exists saved.2 output_file = true) as Hex' by exact Hex.
  split_and!.
  - reflexivity.
  - apply hexdigest_length.
  - reflexivity.
  - reflexivity.
  - by apply load_after_save.
  - reflexivity.
  - subst again saved. unfold Main.save_cache. cbn. apply insert_insert_eq.
  - by apply load_after_save.
  - reflexivity.
Qed.

Lemma generate_cache_id_deterministic_witness :
  let saved :=
    (Main.save_cache Scenario.disk "coffee shops" "results.csv" 100 10 9
       "2025-01-01T00:00:00").2 in
  let again :=
    (Main.save_cache saved "coffee shops" "results.csv" 100 20 19
       "2025-01-01T00:05:00").2 in
  Main.generate_cache_id "coffee shops" "results.csv" = "ab76139721f76a0518df9f69dbbcf1fd"
  ∧ (Main.last_scraped_index <$> (Main.load_cache saved "coffee shops" "results.csv").1)
    = Some 9
  ∧ (Main.last_scraped_index <$> (Main.load_cache again "coffee shops" "results.csv").1)
    = Some 19
  ∧ size (Main.cache_files again) = 1%nat.
Proof.
  cbv zeta.
  destruct (generate_cache_id_deterministic Scenario.disk "coffee shops" "results.csv"
              100 10 9 "2025-01-01T00:00:00" 100 20 19 "2025-01-01T00:05:00" eq_refl)
    as (Hid & _ & _ & _ & Hload & _ & Hstore & Hload' & _).
  split_and!.
  - rewrite Hid. vm_compute. reflexivity.
  - rewrite Hload. reflexivity.
  - rewrite Hload'. reflexivity.
  - rewrite Hstore. vm_compute. reflexivity.
Defined.

(** ** Checkpoint reconciliation at the start of [scrape_places] *)

Lemma load_cache_Some fs search_for output_path cache fs' :
  Main.load_cache fs search_for output_path = (Some cache, fs') →
  fs' = fs ∧ Main.path_exists fs (Main.output_file cache) = true.
Proof.
  unfold Main.load_cache.
  destruct (Main.cache_files fs !! _) as [[c|]|]; [|done..].
  destruct (Main.path_exists fs (Main.output_file c)) eqn:E; [|done].
  by intros [= <- <-].
Qed.

(** C3, as stated, fails: [scrape_places] does not discard a stale
    checkpoint.  The checkpoint claims 25 records, the output file holds
    10, fast append is requested (as [main] requests it for every
    checkpoint it finds): scraping starts at index 0, but the checkpoint
    store is left as it is, and the next start loads the same stale
    record again. *)
Lemma stale_checkpoint_not_discarded :
  let start :=
    Main.scrape_places_start Scenario.disk_with_checkpoint "coffee shops" 100
      "results.csv" true in
  (Main.load_cache Scenario.disk_with_checkpoint "coffee shops" "results.csv").1
    = Some Scenario.checkpoint
  ∧ Main.scraped_count Scenario.checkpoint = 25
  ∧ start.1 = Main.mkStart 0 true 10 false
  ∧ start.2 = Scenario.disk_with_checkpoint
  ∧ Main.cache_files start.2 !! Main.generate_cache_id "coffee shops" "results.csv"
    = Some (Some Scenario.checkpoint)
  ∧ (Main.load_cache start.2 "coffee shops" "results.csv").1 = Some Scenario.checkpoint
  ∧ (Main.scrape_places_start start.2 "coffee shops" 100 "results.csv" true).1
    = Main.mkStart 0 true 10 false.
Proof. split_and!; vm_compute; reflexivity. Qed.

(** C3, amended.  For every loaded checkpoint (its output target then
    exists): if the measured count of existing records is at least the
    checkpoint's scraped count, the start index is
    [last_scraped_index + 1] and append mode is forced, and the run
    returns at once when the scraped count has reached the requested
    total; otherwise the run starts exactly as the same call starts on a
    store without the checkpoint: at index 0, nothing returned early, and
    append mode as it was set before the checkpoint was read (on when the
    output target exists or fast append was requested).  In both cases
    the start leaves the checkpoint in the store, where the next load
    finds it. *)
Theorem scrape_places_start_reconciles (fs fs0 : Main.FS)
    (search_for : string) (total : Z) (output_path : string)
    (ultra_fast_append : bool) (cache : Main.ScrapingCache) :
  Main.load_cache fs search_for output_path = (Some cache, fs0) →
  let measured :=
    if ultra_fast_append then Main.get_existing_data_count_lightning fs output_path
    else Main.get_existing_data_count fs output_path in
  let '(st, fs') :=
    Main.scrape_places_start fs search_for total output_path ultra_fast_append in
  fs' = fs
  ∧ Main.load_cache fs' search_for output_path = (Some cache, fs')
  ∧ Main.path_exists fs (Main.output_file cache) = true
  ∧ Main.existing_count st = measured
  ∧ (Main.scraped_count cache ≤ measured →
       Main.start_index st = Main.last_scraped_index cache + 1
       ∧ Main.is_append_mode st = true
       ∧ Main.returned_early st = bool_decide (total ≤ Main.scraped_count cache))
  ∧ (measured < Main.scraped_count cache →
       Main.start_index st = 0
       ∧ Main.is_append_mode st = Main.path_exists fs output_path || ultra_fast_append
       ∧ Main.returned_early st = false
       ∧ st = (Main.scrape_places_start (Main.clear_cache fs search_for output_path)
                 search_for total output_path ultra_fast_append).1).
Proof.
  intros Hload measured. unfold Main.scrape_places_start. rewrite Hload.
  pose proof Hload as Hagain.
  apply load_cache_Some in Hload as [-> Hex]. fold measured.
  destruct (Z.leb_spec (Main.scraped_count cache) measured) as [Hge|Hlt].
  - destruct (Z.leb_spec total (Main.scraped_count cache)) as [Hdone|Hmore];
      (split_and!; [done | done | done | done | | intros ?; lia]);
      intros _; split_and!; try done; simpl.
    + by rewrite bool_decide_eq_true_2.
    + by rewrite bool_decide_eq_false_2 by lia.
  - split_and!; [done | done | done | done | intros ?; lia |].
    intros _. split_and!; [done | done | done |].
    unfold Main.load_cache, Main.clear_cache. cbn [Main.cache_files Main.files].
    rewrite lookup_delete_eq. reflexivity.
Qed.

Lemma scrape_places_start_reconciles_witness :
  let st := (Main.scrape_places_start Scenario.disk_with_checkpoint
               "coffee shops" 100 "results.csv" true).1 in
  Main.existing_count st = 10
  ∧ Main.start_index st = 0
  ∧ Main.is_append_mode st = true
  ∧ Main.returned_early st = false.
Proof.
  cbv zeta.
  pose proof (scrape_places_start_reconciles Scenario.disk_with_checkpoint
    Scenario.disk_with_checkpoint "coffee shops" 100 "results.csv" true
    Scenario.checkpoint ltac:(vm_compute; reflexivity)) as H.
  cbv zeta in H.
  destruct (Main.scrape_places_start _ _ _ _ _) as [st fs'].
  destruct H as (_ & _ & _ & Hcount & _ & Hstale). simpl.
  destruct Hstale as (Hidx & Happ & Hret & _); [vm_compute; reflexivity|].
  split_and!.
  - rewrite Hcount. vm_compute. reflexivity.
  - exact Hidx.
  - rewrite Happ. vm_compute. reflexivity.
  - exact Hret.
Defined.

(** ** The in-process runner *)

Lemma run_call_does_not_bind :
  PyCall.bind "scrape_places" Runner.scrape_places_params 2 Runner.run_call_keywords
  = Some (Py.TypeError
            "scrape_places() got an unexpected keyword argument 'progress_callback'").
Proof. vm_compute. reflexivity. Qed.

Lemma finish_update_status finished now result state :
  JobService.status (JobService.finish_update finished now result state) =
    if bool_decide (JobService.status state = "interrupted")
       || bool_decide (JobService.status state = "failed")
    then JobService.status state
    else if Runner.success result then "completed" else "failed".
Proof.
  destruct state, result as [ok el err]. unfold JobService.finish_update.
  cbn [JobService.status JobService.set_end_time JobService.set_elapsed_seconds
       JobService.start_time Runner.success Runner.error].
  destruct (_ || _), ok, err; cbn; unfold JobService._update_metrics_locked; cbn;
    repeat (match goal with |- context [if ?b then _ else _] => destruct b end; cbn);
    repeat (match goal with |- context [match ?x with _ => _ end] => destruct x end; cbn);
    reflexivity.
Qed.

(** C4. Whatever the job configuration, the callbacks supplied and what
    the scraping routine would do, [InProcessScraperRunner.run] delivers
    no callback and returns a result with [success = False] whose error
    is the [TypeError] of the call: [scrape_places] has no parameter
    [progress_callback].  Reconciled by [_run_job], such a result never
    gives the status [completed]. *)
Theorem in_process_runner_always_fails
    (body : Runner.scrape_behaviour) (save : option Py.exn)
    (start_time end_time : Q) (config : Runner.ScraperJobConfig)
    (cbs : Runner.ScraperCallbacks) :
  let failure :=
    Runner.mkResult false (end_time - start_time)%Q
      (Some (Py.TypeError
               "scrape_places() got an unexpected keyword argument 'progress_callback'")) in
  Runner.run body save start_time end_time config cbs = ([], inr failure)
  ∧ ∀ finished now state,
      JobService.status (JobService.finish_update finished now failure state)
        ≠ "completed".
Proof.
  intros failure. split.
  - unfold Runner.run, Runner.run_with, Runner.run_try.
    rewrite run_call_does_not_bind. reflexivity.
  - intros finished now state. rewrite finish_update_status.
    destruct (bool_decide _ || bool_decide _) eqn:E; [|done].
    apply orb_true_iff in E as [E|E]; apply bool_decide_eq_true in E; by rewrite E.
Qed.

(** ** Throughput and ETA *)

Lemma Qltb_true a b : JobService.Qltb a b = true ↔ (a < b)%Q.
Proof.
  unfold JobService.Qltb. rewrite negb_true_iff.
  destruct (Qle_bool b a) eqn:E.
  - apply Qle_bool_iff in E. split; [done | intros ?; lra].
  - split; [intros _ | done].
    apply Qnot_le_lt. intros Hle. apply Qle_bool_iff in Hle. congruence.
Qed.

Lemma Qltb_false a b : JobService.Qltb a b = false ↔ (b <= a)%Q.
Proof.
  unfold JobService.Qltb. rewrite negb_false_iff. apply Qle_bool_iff.
Qed.

Lemma Qle_bool_false a b : Qle_bool a b = false ↔ (b < a)%Q.
Proof.
  destruct (Qle_bool a b) eqn:E.
  - apply Qle_bool_iff in E. split; [done | intros ?; lra].
  - split; [intros _ | done].
    apply Qnot_le_lt. intros Hle. apply Qle_bool_iff in Hle. congruence.
Qed.

Lemma rate_positive (delta_count : Z) (delta_time : Q) :
  0 < delta_count → (0 < delta_time)%Q → (0 < inject_Z delta_count / delta_time)%Q.
Proof.
  intros Hc Ht. apply Qlt_shift_div_l; [done|].
  assert (0 < inject_Z delta_count)%Q by (unfold Qlt; simpl; lia). lra.
Qed.

Lemma samples_ends {A} (x y : A) (mid : list A) :
  head (x :: mid ++ [y]) = Some x
  ∧ last (x :: mid ++ [y]) = Some y
  ∧ (2 ≤ length (x :: mid ++ [y]))%nat.
Proof.
  split_and!; [done | | simpl; rewrite length_app; simpl; lia].
  by rewrite app_comm_cons, last_snoc.
Qed.

Lemma update_metrics_frame (job : JobService.ScrapingJobState) :
  JobService.progress_samples (JobService._update_metrics_locked job)
    = JobService.progress_samples job
  ∧ JobService.result_count (JobService._update_metrics_locked job)
    = JobService.result_count job
  ∧ JobService.status (JobService._update_metrics_locked job)
    = JobService.status job
  ∧ JobService.end_time (JobService._update_metrics_locked job)
    = JobService.end_time job.
Proof.
  unfold JobService._update_metrics_locked.
  split_and!; repeat case_match; by destruct job.
Qed.

(** C2. The throughput and the ETA that [_update_metrics_locked] stores
    are determined by the sample buffer (and, for the ETA, the target and
    current counts): with fewer than two samples the throughput is 0 and
    the ETA undefined; with oldest sample [(t0, c0)] and newest
    [(t1, c1)], they are 0 and undefined when [t1 - t0 <= 0] or
    [c1 - c0 <= 0], and otherwise the throughput per minute is
    [((c1 - c0) / (t1 - t0)) * 60] and the ETA is
    [max (target - current, 0) / ((c1 - c0) / (t1 - t0))]. *)
Theorem update_metrics_throughput_eta (job : JobService.ScrapingJobState) :
  let job' := JobService._update_metrics_locked job in
  ((length (JobService.progress_samples job) < 2)%nat →
     JobService.throughput_per_minute job' = 0%Q
     ∧ JobService.eta_seconds job' = None)
  ∧ (∀ t0 c0 mid t1 c1,
       JobService.progress_samples job = (t0, c0) :: mid ++ [(t1, c1)] →
       ((t1 - t0 <= 0)%Q ∨ c1 - c0 ≤ 0 →
          JobService.throughput_per_minute job' = 0%Q
          ∧ JobService.eta_seconds job' = None)
       ∧ ((0 < t1 - t0)%Q → 0 < c1 - c0 →
          JobService.throughput_per_minute job'
            = ((inject_Z (c1 - c0) / (t1 - t0)) * 60)%Q
          ∧ JobService.eta_seconds job'
            = Some (inject_Z (Z.max (JobService.total_results job
                                     - JobService.result_count job) 0)
                    / (inject_Z (c1 - c0) / (t1 - t0)))%Q))
  ∧ JobService.progress_samples job' = JobService.progress_samples job
  ∧ JobService.result_count job' = JobService.result_count job
  ∧ JobService.status job' = JobService.status job
  ∧ JobService.end_time job' = JobService.end_time job.
Proof.
  intros job'. subst job'.
  destruct (update_metrics_frame job) as (Hf1 & Hf2 & Hf3 & Hf4).
  unfold JobService._update_metrics_locked in *.
  split_and!; [| |exact Hf1|exact Hf2|exact Hf3|exact Hf4].
  - intros Hlt. apply Nat.ltb_lt in Hlt. rewrite Hlt. by destruct job.
  - intros t0 c0 mid t1 c1 Hs. rewrite Hs.
    destruct (samples_ends (t0, c0) (t1, c1) mid) as (-> & -> & Hlen).
    destruct (Nat.ltb_spec (length ((t0, c0) :: mid ++ [(t1, c1)])) 2); [lia|].
    split.
    + intros Hdeg.
      assert (Qle_bool (t1 - t0) 0 || (c1 - c0 <=? 0) = true) as ->.
      { apply orb_true_iff. destruct Hdeg as [Ht|Hc].
        - left. by apply Qle_bool_iff.
        - right. by apply Z.leb_le. }
      by destruct job.
    + intros Ht Hc.
      assert (Qle_bool (t1 - t0) 0 || (c1 - c0 <=? 0) = false) as ->.
      { apply orb_false_iff. split; [by apply Qle_bool_false | by apply Z.leb_gt]. }
      assert (JobService.Qltb 0 (inject_Z (c1 - c0) / (t1 - t0)) = true) as Hpos
        by (apply Qltb_true; by apply rate_positive).
      destruct job. cbn. by rewrite Hpos.
Qed.

Lemma update_metrics_throughput_eta_witness :
  let job' := JobService._update_metrics_locked Scenario.job_two_samples in
  JobService.throughput_per_minute job' = ((inject_Z (100 - 10) / (1060 - 1000)) * 60)%Q
  ∧ (JobService.throughput_per_minute job' == 90)%Q
  ∧ JobService.eta_seconds job'
    = Some (inject_Z (Z.max (100 - 100) 0) / (inject_Z (100 - 10) / (1060 - 1000)))%Q.
Proof.
  cbv zeta.
  pose proof (update_metrics_throughput_eta Scenario.job_two_samples) as H.
  cbv zeta in H. destruct H as (_ & H & _).
  destruct (H 1000%Q 10 [] 1060%Q 100 eq_refl) as [_ Hrate].
  destruct Hrate as [Htp Heta]; [reflexivity | reflexivity |].
  split_and!.
  - exact Htp.
  - rewrite Htp. reflexivity.
  - exact Heta.
Defined.

(** ** How the callbacks move [result_count], [status] and [end_time] *)

Section job_updates.
Import JobService.
Implicit Types (job : ScrapingJobState).

Lemma prune_frame window job :
  result_count (_prune_progress_samples_locked window job) = result_count job
  ∧ status (_prune_progress_samples_locked window job) = status job
  ∧ end_time (_prune_progress_samples_locked window job) = end_time job.
Proof.
  unfold _prune_progress_samples_locked. destruct (last _); by destruct job.
Qed.

Lemma prune_result_count window job :
  result_count (_prune_progress_samples_locked window job) = result_count job.
Proof. apply prune_frame. Qed.

Lemma prune_status window job :
  status (_prune_progress_samples_locked window job) = status job.
Proof. apply prune_frame. Qed.

Lemma prune_end_time window job :
  end_time (_prune_progress_samples_locked window job) = end_time job.
Proof. apply prune_frame. Qed.

Lemma update_metrics_result_count job :
  result_count (_update_metrics_locked job) = result_count job.
Proof. apply update_metrics_frame. Qed.

Lemma update_metrics_status job :
  status (_update_metrics_locked job) = status job.
Proof. apply update_metrics_frame. Qed.

Lemma update_metrics_end_time job :
  end_time (_update_metrics_locked job) = end_time job.
Proof. apply update_metrics_frame. Qed.

Lemma progress_update_result_count window now payload job :
  result_count (progress_update window now payload job)
    = default (result_count job) (Runner.pp_current payload).
Proof.
  unfold progress_update.
  rewrite prune_result_count.
  destruct job, payload as [? ? err st ?]; cbn.
  destruct (truthy err), (truthy st); cbn; try done;
    by destruct (bool_decide _).
Qed.

Lemma progress_update_status window now payload job :
  status (progress_update window now payload job)
    = match truthy (Runner.pp_status payload) with
      | Some s => s
      | None => if bool_decide (status job = "pending") then "running" else status job
      end.
Proof.
  unfold progress_update.
  rewrite prune_status.
  destruct job, payload as [? ? err st ?]; cbn.
  destruct (truthy err), (truthy st); cbn; try done;
    by destruct (bool_decide _).
Qed.

Lemma progress_update_end_time window now payload job :
  end_time (progress_update window now payload job) = end_time job.
Proof.
  unfold progress_update.
  rewrite prune_end_time.
  destruct job, payload as [? ? err st ?]; cbn.
  destruct (truthy err), (truthy st); cbn; try done;
    by destruct (bool_decide _).
Qed.

Lemma metrics_update_frame now payload job :
  result_count (metrics_update now payload job) = result_count job
  ∧ status (metrics_update now payload job) = status job
  ∧ end_time (metrics_update now payload job) = end_time job.
Proof.
  unfold metrics_update.
  rewrite update_metrics_result_count, update_metrics_status, update_metrics_end_time.
  by destruct job, (Runner.mp_elapsed_seconds payload).
Qed.

Lemma record_batch_update_result_count payload job :
  result_count (record_batch_update payload job)
    = match Runner.rp_total_scraped payload with
      | Some (Runner.IntLike n) => n
      | _ => result_count job
      end.
Proof.
  unfold record_batch_update.
  destruct (Runner.rp_total_scraped payload) as [[n|]|]; by destruct job.
Qed.

Lemma record_batch_update_frame payload job :
  status (record_batch_update payload job) = status job
  ∧ end_time (record_batch_update payload job) = end_time job.
Proof.
  unfold record_batch_update.
  destruct (Runner.rp_total_scraped payload) as [[n|]|]; by destruct job.
Qed.

Lemma finish_update_end_time finished now result job :
  end_time (finish_update finished now result job) = Some finished.
Proof.
  unfold finish_update. rewrite update_metrics_end_time.
  destruct job as [? ? ? ? ? ? ? ? ? ? ? ? ? ? ? lu ? ?], result as [ok el err]; cbn.
  destruct (_ || _), ok, err, lu; by cbn.
Qed.

Lemma finish_update_terminal finished now result job :
  terminal (status (finish_update finished now result job)) = true.
Proof.
  rewrite finish_update_status. unfold terminal.
  destruct (bool_decide (status job = "interrupted")) eqn:E1.
  { apply bool_decide_eq_true in E1. rewrite E1. done. }
  destruct (bool_decide (status job = "failed")) eqn:E2.
  { apply bool_decide_eq_true in E2. rewrite E2. done. }
  by destruct (Runner.success result).
Qed.

End job_updates.

(** C6, as stated, fails: a running job whose runner reports 10 and then
    5 is observed with [result_count] 10 and then 5, its status being
    [running] throughout; a record batch whose total-scraped hint is 3
    lowers it further. *)
Lemma result_count_can_decrease :
  let p1 := JobService._handle_progress 0 "job-1" (Scenario.progress_of 10 1000) Scenario.one_job in
  let p2 := JobService._handle_progress 0 "job-1" (Scenario.progress_of 5 1010) p1.1 in
  let p3 := JobService._handle_record_batch "job-1"
              (Runner.mkRecords [[("name", Main.CStr "Cafe 1")]] (Some (Runner.IntLike 3)))
              p2.1 in
  p1.2 = [JobService.job_progress "job-1" 0 10 "running" 1000 None None]
  ∧ p2.2 = [JobService.job_progress "job-1" 0 5 "running" 1010 None None]
  ∧ p3.2 = [JobService.job_record_batch "job-1" [[("name", Main.CStr "Cafe 1")]]
              [[("name", Main.CStr "Cafe 1")]] 3]
  ∧ (JobService.status <$> JobService._jobs p3.1 !! "job-1") = Some "running".
Proof. vm_compute. split_and!; reflexivity. Qed.

(** C6, amended.  A callback stores the count it carries: after a
    progress callback [result_count] is the payload's [current] when the
    key is present and is unchanged otherwise; after a non-empty record
    batch it is the integer value of the total-scraped hint when there is
    one that converts, and is unchanged otherwise; a metrics callback
    leaves it alone.  So the observed [result_count] does not decrease
    across a callback whose carried count is at least the count before. *)
Theorem result_count_follows_payload (svc : JobService.JobService)
    (job_id : string) (job : JobService.ScrapingJobState) (now : Q) :
  JobService._jobs svc !! job_id = Some job →
  (∀ payload, ∃ job',
      JobService._handle_progress now job_id payload svc
        = (JobService.set_jobs (<[job_id := job']> (JobService._jobs svc)) svc,
           [JobService._build_progress_payload_locked now job'])
      ∧ JobService.result_count job'
        = default (JobService.result_count job) (Runner.pp_current payload)
      ∧ ((∀ current, Runner.pp_current payload = Some current →
            JobService.result_count job ≤ current) →
         JobService.result_count job ≤ JobService.result_count job'))
  ∧ (∀ payload, Runner.rp_records payload ≠ [] → ∃ job',
      JobService._handle_record_batch job_id payload svc
        = (JobService.set_jobs (<[job_id := job']> (JobService._jobs svc)) svc,
           [JobService.job_record_batch job_id (Runner.rp_records payload)
              (JobService.recent_records job') (JobService.result_count job')])
      ∧ JobService.result_count job'
        = match Runner.rp_total_scraped payload with
          | Some (Runner.IntLike total_scraped) => total_scraped
          | _ => JobService.result_count job
          end
      ∧ ((∀ total_scraped,
            Runner.rp_total_scraped payload = Some (Runner.IntLike total_scraped) →
            JobService.result_count job ≤ total_scraped) →
         JobService.result_count job ≤ JobService.result_count job'))
  ∧ (∀ payload, ∃ job',
      JobService._handle_metrics now job_id payload svc
        = (JobService.set_jobs (<[job_id := job']> (JobService._jobs svc)) svc,
           [JobService._build_metrics_payload_locked job'])
      ∧ JobService.result_count job' = JobService.result_count job).
Proof.
  intros Hjob. split_and!.
  - intros payload. eexists. unfold JobService._handle_progress. rewrite Hjob.
    split_and!; [reflexivity | apply progress_update_result_count |].
    intros Hge. rewrite progress_update_result_count.
    destruct (Runner.pp_current payload) as [c|]; simpl; [by apply Hge | lia].
  - intros payload Hne. eexists. unfold JobService._handle_record_batch. rewrite Hjob.
    split_and!.
    + destruct (Runner.rp_records payload); [done | reflexivity].
    + apply record_batch_update_result_count.
    + intros Hge. rewrite record_batch_update_result_count.
      destruct (Runner.rp_total_scraped payload) as [[n|]|]; [by apply Hge | lia | lia].
  - intros payload. eexists. unfold JobService._handle_metrics. rewrite Hjob.
    split; [reflexivity | apply metrics_update_frame].
Qed.

Lemma result_count_follows_payload_witness :
  match (JobService._handle_progress 0 "job-1" (Scenario.progress_of 10 1000)
           Scenario.one_job).2 with
  | [JobService.job_progress _ _ result_count _ _ _ _] => result_count = 10
  | _ => False
  end.
Proof.
  destruct (result_count_follows_payload Scenario.one_job "job-1"
              (JobService.mkJob "job-1" "coffee shops" 100 "results.csv" false false
                 "running" 0 0 None 0 None 0 None 0 (Some 0%Q) [] [])
              0 ltac:(vm_compute; reflexivity)) as (Hp & _ & _).
  destruct (Hp (Scenario.progress_of 10 1000)) as (job' & Heq & Hcount & _).
  rewrite Heq. exact Hcount.
Defined.

(** ** The registry: what each operation does to the job map *)

Section registry.
Import JobService.
Implicit Types (svc : JobService) (job : ScrapingJobState).

Lemma cleanup_lookup now svc job_id job :
  _jobs (_cleanup_finished_jobs_locked now svc) !! job_id = Some job →
  _jobs svc !! job_id = Some job.
Proof.
  unfold _cleanup_finished_jobs_locked. cbn.
  intros H. apply map_lookup_filter_Some in H. tauto.
Qed.

Lemma cleanup_job_starts now svc :
  _job_starts (_cleanup_finished_jobs_locked now svc) = _job_starts svc.
Proof. done. Qed.

Lemma deliver_job_starts now job_id c svc :
  _job_starts (deliver now job_id c svc).1 = _job_starts svc.
Proof.
  destruct c as [p|p|p]; simpl.
  - unfold _handle_progress. by destruct (_jobs svc !! job_id).
  - unfold _handle_metrics. by destruct (_jobs svc !! job_id).
  - unfold _handle_record_batch.
    destruct (Runner.rp_records p); [done|]. by destruct (_jobs svc !! job_id).
Qed.

Lemma finish_job_starts clk state result svc :
  _job_starts (finish clk state result svc).1 = _job_starts svc.
Proof. unfold finish. by destruct (_jobs svc !! job_id state). Qed.

(** A callback of the worker of [job_id] touches the entry of [job_id]
    only, and leaves its [end_time] alone. *)
Lemma deliver_lookup now job_id c svc job_id' job' :
  _jobs (deliver now job_id c svc).1 !! job_id' = Some job' →
  _jobs svc !! job_id' = Some job'
  ∨ (job_id' = job_id ∧ ∃ job, _jobs svc !! job_id = Some job
                              ∧ end_time job' = end_time job).
Proof.
  destruct c as [p|p|p]; simpl.
  - unfold _handle_progress. destruct (_jobs svc !! job_id) as [job|] eqn:E; [|by left].
    cbn. destruct (decide (job_id' = job_id)) as [->|Hne].
    + rewrite lookup_insert_eq. intros [= <-]. right. split; [done|].
      exists job. split; [done | apply progress_update_end_time].
    + rewrite lookup_insert_ne by done. by left.
  - unfold _handle_metrics. destruct (_jobs svc !! job_id) as [job|] eqn:E; [|by left].
    cbn. destruct (decide (job_id' = job_id)) as [->|Hne].
    + rewrite lookup_insert_eq. intros [= <-]. right. split; [done|].
      exists job. split; [done | apply metrics_update_frame].
    + rewrite lookup_insert_ne by done. by left.
  - unfold _handle_record_batch. destruct (Runner.rp_records p); [by left|].
    destruct (_jobs svc !! job_id) as [job|] eqn:E; [|by left].
    cbn. destruct (decide (job_id' = job_id)) as [->|Hne].
    + rewrite lookup_insert_eq. intros [= <-]. right. split; [done|].
      exists job. split; [done | apply record_batch_update_frame].
    + rewrite lookup_insert_ne by done. by left.
Qed.

Lemma deliver_present now job_id c svc :
  is_Some (_jobs svc !! job_id) → is_Some (_jobs (deliver now job_id c svc).1 !! job_id).
Proof.
  intros [job Hjob]. destruct c as [p|p|p]; simpl.
  - unfold _handle_progress. rewrite Hjob. cbn. rewrite lookup_insert_eq. eauto.
  - unfold _handle_metrics. rewrite Hjob. cbn. rewrite lookup_insert_eq. eauto.
  - unfold _handle_record_batch. destruct (Runner.rp_records p); [eauto|].
    rewrite Hjob. cbn. rewrite lookup_insert_eq. eauto.
Qed.

(** The end of [_run_job] rewrites the entry of its job, then sweeps. *)
Lemma finish_lookup clk state result svc job_id' job' :
  _jobs (finish clk state result svc).1 !! job_id' = Some job' →
  (job_id' ≠ job_id state ∧ _jobs svc !! job_id' = Some job')
  ∨ (_jobs svc !! job_id state = None ∧ _jobs svc !! job_id' = Some job')
  ∨ (job_id' = job_id state ∧ ∃ job, _jobs svc !! job_id state = Some job
       ∧ job' = finish_update (t_finished clk) (t_now clk) result job).
Proof.
  unfold finish, held.
  destruct (_jobs svc !! job_id state) as [job|] eqn:E; cbn [fst default].
  - intros H. apply cleanup_lookup in H. cbn in H.
    destruct (decide (job_id' = job_id state)) as [->|Hne].
    + rewrite lookup_insert_eq in H. injection H as <-. right; right. eauto.
    + rewrite lookup_insert_ne in H by done. by left.
  - intros H. apply cleanup_lookup in H. by right; left.
Qed.

Lemma start_job_accepted clk job_id search_query total_results output_file
    append_mode fast_append svc state svc' :
  start_job clk job_id search_query total_results output_file append_mode
    fast_append svc = (inr state, svc') →
  let swept := _cleanup_finished_jobs_locked (t_cleanup clk) svc in
  state = mkJob job_id search_query total_results output_file append_mode
            fast_append "running" 0%Q 0 None (t_created clk) None 0%Q None 0%Q
            (Some (t_update clk)) [] []
  ∧ _jobs svc' = <[job_id := state]> (_jobs swept)
  ∧ _job_starts svc'
    = drop_expired (t_check clk) (_rate_limit_window svc) (_job_starts svc)
      ++ [t_append clk]
  ∧ Z.of_nat (length (drop_expired (t_check clk) (_rate_limit_window svc)
                        (_job_starts svc))) < _rate_limit svc
  ∧ _current_running_jobs_locked swept < _max_concurrent_jobs svc.
Proof.
  unfold start_job, _enforce_rate_limit_locked. cbn.
  destruct (Z.leb_spec (_rate_limit svc)
              (Z.of_nat (length (drop_expired (t_check clk) (_rate_limit_window svc)
                                   (_job_starts svc))))) as [|Hrate]; [done|].
  cbn. unfold _current_running_jobs_locked at 1. cbn.
  destruct (Z.leb_spec (_max_concurrent_jobs svc)
              (_current_running_jobs_locked
                 (_cleanup_finished_jobs_locked (t_cleanup clk) svc))) as [|Hcap].
  - unfold _current_running_jobs_locked, _cleanup_finished_jobs_locked in *. cbn in *.
    destruct (_ <=? _) eqn:E; [done|]. apply Z.leb_gt in E. lia.
  - unfold _current_running_jobs_locked, _cleanup_finished_jobs_locked in *. cbn in *.
    destruct (_ <=? _) eqn:E; [apply Z.leb_le in E; lia|].
    intros [= <- <-]. cbn. done.
Qed.

Lemma start_job_rejected clk job_id search_query total_results output_file
    append_mode fast_append svc e svc' :
  start_job clk job_id search_query total_results output_file append_mode
    fast_append svc = (inl e, svc') →
  let swept := _cleanup_finished_jobs_locked (t_cleanup clk) svc in
  _jobs svc' = _jobs swept
  ∧ _job_starts svc'
    = drop_expired (t_check clk) (_rate_limit_window svc) (_job_starts svc)
  ∧ (_rate_limit svc
       ≤ Z.of_nat (length (drop_expired (t_check clk) (_rate_limit_window svc)
                             (_job_starts svc)))
     ∨ _max_concurrent_jobs svc ≤ _current_running_jobs_locked swept)
  ∧ ∃ msg, e = Py.RateLimitExceeded msg.
Proof.
  unfold start_job, _enforce_rate_limit_locked. cbn.
  destruct (Z.leb_spec (_rate_limit svc)
              (Z.of_nat (length (drop_expired (t_check clk) (_rate_limit_window svc)
                                   (_job_starts svc))))) as [Hrate|Hrate].
  - intros [= <- <-]. cbn. split_and!; [done | done | by left | eauto].
  - cbn. unfold _current_running_jobs_locked at 1. cbn.
    destruct (_ <=? _) eqn:E; [|done]. apply Z.leb_le in E.
    intros [= <- <-]. cbn. split_and!; [done | done | by right | eauto].
Qed.

End registry.

(** ** [end_time] and the terminal statuses *)

Section lifecycle.
Import JobService Exec.

Lemma settled_step w w' : step w w' → settled w → settled w'.
Proof.
  intros Hstep Hinv.
  destruct Hstep as [w clk id q n o a f state svc' Hclk Hfresh Hstart
                    |w clk id q n o a f e svc' Hclk Hstart
                    |w now id c Hclk Hact
                    |w clk id result Hclk Hact
                    |w id e Hact];
    intros id' job' Hlook Hend; cbn in *.
  - apply start_job_accepted in Hstart as (Hstate & Hjobs & _).
    rewrite Hjobs in Hlook. destruct (decide (id' = id)) as [->|Hne].
    + rewrite lookup_insert_eq in Hlook. injection Hlook as <-.
      rewrite Hstate in Hend. by destruct Hend.
    + rewrite lookup_insert_ne in Hlook by done.
      apply cleanup_lookup in Hlook.
      destruct (Hinv _ _ Hlook Hend) as [Hterm Hout]. split; [done|].
      rewrite not_elem_of_union, not_elem_of_singleton. done.
  - apply start_job_rejected in Hstart as (Hjobs & _).
    rewrite Hjobs in Hlook. apply cleanup_lookup in Hlook. by apply Hinv.
  - apply deliver_lookup in Hlook as [Hlook|(-> & job & Hlook & Heq)]; [by apply Hinv|].
    rewrite Heq in Hend. destruct (Hinv _ _ Hlook Hend) as [_ Hout]. done.
  - apply finish_lookup in Hlook
      as [[Hne Hlook]|[[Hnone Hlook]|(-> & job & Hlook & ->)]].
    + destruct (Hinv _ _ Hlook Hend) as [Hterm Hout]. split; [done|].
      rewrite elem_of_difference. tauto.
    + destruct (Hinv _ _ Hlook Hend) as [Hterm Hout]. split; [done|].
      rewrite elem_of_difference. tauto.
    + split; [apply finish_update_terminal|].
      rewrite elem_of_difference, not_elem_of_singleton. tauto.
  - destruct (Hinv _ _ Hlook Hend) as [Hterm Hout]. split; [done|].
    rewrite elem_of_difference. tauto.
Qed.

Lemma reachable_settled rate_limit window cleanup_after metrics_window max_jobs t0 w :
  reachable (new rate_limit window cleanup_after metrics_window max_jobs) t0 w →
  settled w.
Proof.
  induction 1 as [|w w' _ IH Hstep].
  - intros id job Hlook. cbn in Hlook. by rewrite lookup_empty in Hlook.
  - by eapply settled_step.
Qed.

End lifecycle.

Lemma world2_reachable : Exec.reachable JobService.with_defaults 0 Scenario.world2.
Proof.
  apply (Exec.reachable_step _ _ Scenario.world1).
  - apply (Exec.reachable_step _ _ Scenario.world0); [apply Exec.reachable_init|].
    apply (Exec.step_start_accepted Scenario.world0 (Scenario.clock_at 0) "job-1"
             "coffee shops" 100 "results.csv" false false
             (JobService.mkJob "job-1" "coffee shops" 100 "results.csv" false false
                "running" 0 0 None 0 None 0 None 0 (Some 0%Q) [] [])).
    + repeat split; apply Qle_refl.
    + apply not_elem_of_empty.
    + vm_compute. reflexivity.
  - apply (Exec.step_callback Scenario.world1 5 "job-1"
             (Runner.OnProgress Scenario.failing_progress)).
    + discriminate.
    + apply elem_of_union_l, elem_of_singleton. reflexivity.
Qed.

Lemma world3_reachable : Exec.reachable JobService.with_defaults 0 Scenario.world3.
Proof.
  apply (Exec.reachable_step _ _ Scenario.world2); [apply world2_reachable|].
  apply (Exec.step_finish Scenario.world2 (JobService.mkFinishClock 6 6 6)
           Scenario.fresh_job).
  - repeat split; discriminate.
  - apply elem_of_union_l, elem_of_singleton. reflexivity.
Qed.

(** C7, as stated, fails: after an accepted submission and one progress
    callback whose payload carries the status [failed], the job is in a
    terminal status while its [end_time] is still unset. *)
Lemma terminal_status_before_end_time :
  Exec.reachable JobService.with_defaults 0 Scenario.world2
  ∧ (JobService.status <$> JobService._jobs (Exec.svc Scenario.world2) !! "job-1")
    = Some "failed"
  ∧ (JobService.end_time <$> JobService._jobs (Exec.svc Scenario.world2) !! "job-1")
    = Some None.
Proof.
  split_and!; [apply world2_reachable | vm_compute; reflexivity..].
Qed.

(** C7, amended.  In every state reachable by submissions, callbacks of
    running workers and worker completions: a job whose [end_time] is set
    has one of the statuses completed, failed, interrupted (and its
    worker has returned); while a worker is still running, its job's
    [end_time] is unset, whatever status the callbacks have given it; and
    the terminal path stamps [end_time] together with a terminal
    status. *)
Theorem end_time_set_implies_terminal
    (rate_limit window cleanup_after metrics_window max_jobs : Z) (t0 : Q)
    (w : Exec.world) :
  Exec.reachable
    (JobService.new rate_limit window cleanup_after metrics_window max_jobs) t0 w →
  (∀ job_id job, JobService._jobs (Exec.svc w) !! job_id = Some job →
     is_Some (JobService.end_time job) →
     JobService.terminal (JobService.status job) = true)
  ∧ (∀ job_id job, JobService._jobs (Exec.svc w) !! job_id = Some job →
     job_id ∈ Exec.active w → JobService.end_time job = None)
  ∧ (∀ finished now result job,
     JobService.end_time (JobService.finish_update finished now result job)
       = Some finished
     ∧ JobService.terminal
         (JobService.status (JobService.finish_update finished now result job))
       = true).
Proof.
  intros Hreach. apply reachable_settled in Hreach. split_and!.
  - intros id job Hlook Hend. by apply (Hreach id job).
  - intros id job Hlook Hact.
    destruct (JobService.end_time job) as [t|] eqn:E; [|done].
    destruct (Hreach id job Hlook) as [_ Hout]; [by rewrite E | done].
  - intros finished now result job.
    split; [apply finish_update_end_time | apply finish_update_terminal].
Qed.

Lemma end_time_set_implies_terminal_witness :
  from_option (λ job, JobService.terminal (JobService.status job)) false
    (JobService._jobs (Exec.svc Scenario.world3) !! "job-1") = true
  ∧ from_option JobService.end_time None
      (JobService._jobs (Exec.svc Scenario.world2) !! "job-1") = None.
Proof.
  split.
  - destruct (end_time_set_implies_terminal 2 60 900 180 2 0 Scenario.world3
                world3_reachable) as (Hterm & _ & _).
    destruct (JobService._jobs (Exec.svc Scenario.world3) !! "job-1") as [job|] eqn:E;
      [|vm_compute in E; discriminate].
    simpl. apply (Hterm "job-1" job E).
    vm_compute in E. injection E as <-. eexists. reflexivity.
  - destruct (end_time_set_implies_terminal 2 60 900 180 2 0 Scenario.world2
                world2_reachable) as (_ & Hrun & _).
    destruct (JobService._jobs (Exec.svc Scenario.world2) !! "job-1") as [job|] eqn:E;
      [|reflexivity].
    simpl. apply (Hrun "job-1" job E).
    apply elem_of_union_l, elem_of_singleton. reflexivity.
Defined.

(** ** Worker exceptions *)

Section worker_exceptions.
Import JobService.

Lemma deliver_all_present job_id calls svc :
  is_Some (_jobs svc !! job_id) →
  is_Some (_jobs (deliver_all job_id calls svc).1 !! job_id).
Proof.
  revert svc. induction calls as [|[now c] calls IH]; intros svc Hjob; [done|].
  simpl. pose proof (deliver_present now job_id c svc Hjob) as Hnext.
  destruct (deliver now job_id c svc) as [svc1 ev].
  specialize (IH svc1 Hnext).
  by destruct (deliver_all job_id calls svc1) as [svc2 evs].
Qed.

Lemma update_metrics_error_message job :
  error_message (_update_metrics_locked job) = error_message job.
Proof. unfold _update_metrics_locked. repeat case_match; by destruct job. Qed.

Lemma finish_update_error_message finished now elapsed exc job :
  error_message (finish_update finished now (Runner.mkResult false elapsed (Some exc)) job)
    = Some (str_of_exn exc).
Proof.
  unfold finish_update. rewrite update_metrics_error_message.
  destruct job as [? ? ? ? ? ? ? ? ? ? ? ? ? ? ? lu ? ?]; cbn.
  destruct (_ || _), lu; by cbn.
Qed.

Lemma finish_present clk state result svc job :
  _jobs svc !! job_id state = Some job →
  finish clk state result svc
    = (_cleanup_finished_jobs_locked (t_sweep clk)
         (set_jobs
            (<[job_id state := finish_update (t_finished clk) (t_now clk) result job]>
               (_jobs svc)) svc),
       [_build_progress_payload_locked (t_now clk)
          (finish_update (t_finished clk) (t_now clk) result job);
        _build_metrics_payload_locked
          (finish_update (t_finished clk) (t_now clk) result job)]).
Proof. intros Hjob. unfold finish, held. by rewrite Hjob. Qed.

(** A worker whose job is not registered stamps the object it was given
    and leaves the registry to the sweep. *)
Lemma finish_absent clk state result svc :
  _jobs svc !! job_id state = None →
  finish clk state result svc
    = (_cleanup_finished_jobs_locked (t_sweep clk) svc,
       [_build_progress_payload_locked (t_now clk)
          (finish_update (t_finished clk) (t_now clk) result state);
        _build_metrics_payload_locked
          (finish_update (t_finished clk) (t_now clk) result state)]).
Proof. intros Hjob. unfold finish, held. by rewrite Hjob. Qed.

End worker_exceptions.

(** C5, as stated, fails: the registry takes any runner, and when
    [runner.run] itself raises (here a [RuntimeError]), [_run_job] stops
    there: the exception leaves the worker, no event is published, and the
    job stays [running] with [end_time] unset. *)
Lemma raising_runner_leaves_job_running :
  JobService._run_job Scenario.fresh_job [] (inl (Py.OtherException "RuntimeError"))
    (JobService.mkFinishClock 6 6 6) Scenario.one_job
    = (Scenario.one_job, [], Some (Py.OtherException "RuntimeError"))
  ∧ Py.is_Exception (Py.OtherException "RuntimeError") = true
  ∧ (JobService.status <$> JobService._jobs Scenario.one_job !! "job-1") = Some "running"
  ∧ (JobService.end_time <$> JobService._jobs Scenario.one_job !! "job-1") = Some None.
Proof. split_and!; vm_compute; reflexivity. Qed.

(** C5, amended.  With the in-process runner, an exception (a subclass of
    [Exception]) raised inside the runner's [try] block is caught there
    and returned as a failed result; [_run_job] reconciles that result on
    the normal terminal path: nothing is raised out of the worker, the
    final progress and metrics events are published, and the job has
    [end_time] stamped, a terminal status other than [completed], and the
    error message of the exception. *)
Theorem in_process_runner_isolates_exceptions
    (params : list PyCall.param) (body : Runner.scrape_behaviour)
    (save : option Py.exn) (start_time end_time : Q)
    (config : Runner.ScraperJobConfig) (cbs : Runner.ScraperCallbacks)
    (delivered : list Runner.callback) (exc : Py.exn) :
  Runner.run_try params body save config cbs = (delivered, Some exc) →
  Py.is_Exception exc = true →
  let failure := Runner.mkResult false (end_time - start_time)%Q (Some exc) in
  Runner.run_with params body save start_time end_time config cbs
    = (delivered, inr failure)
  ∧ ∀ (svc : JobService.JobService) (state : JobService.ScrapingJobState)
      (calls : list (Q * Runner.callback)) (clk : JobService.FinishClock),
      let job_id := JobService.job_id state in
      is_Some (JobService._jobs svc !! job_id) →
      ∃ svc1 events job job',
        JobService.deliver_all job_id calls svc = (svc1, events)
        ∧ JobService._jobs svc1 !! job_id = Some job
        ∧ job' = JobService.finish_update (JobService.t_finished clk)
                   (JobService.t_now clk) failure job
        ∧ JobService._run_job state calls (inr failure) clk svc
          = (JobService._cleanup_finished_jobs_locked (JobService.t_sweep clk)
               (JobService.set_jobs (<[job_id := job']> (JobService._jobs svc1)) svc1),
             events ++ [JobService._build_progress_payload_locked (JobService.t_now clk) job';
                        JobService._build_metrics_payload_locked job'],
             None)
        ∧ JobService.end_time job' = Some (JobService.t_finished clk)
        ∧ JobService.terminal (JobService.status job') = true
        ∧ JobService.status job' ≠ "completed"
        ∧ JobService.error_message job' = Some (JobService.str_of_exn exc).
Proof.
  intros Htry Hexc failure. split.
  - unfold Runner.run_with. rewrite Htry, Hexc. reflexivity.
  - intros svc state calls clk job_id Hjob.
    pose proof (deliver_all_present job_id calls svc Hjob) as Hpresent.
    unfold JobService._run_job. fold job_id.
    destruct (JobService.deliver_all job_id calls svc) as [svc1 events].
    destruct Hpresent as [job Hjob1]. simpl in Hjob1.
    exists svc1, events, job, (JobService.finish_update (JobService.t_finished clk)
                                 (JobService.t_now clk) failure job).
    split_and!; [done | done | done | | | | |].
    + by rewrite (finish_present clk state failure svc1 job Hjob1).
    + apply finish_update_end_time.
    + apply finish_update_terminal.
    + rewrite finish_update_status.
      destruct (bool_decide _ || bool_decide _) eqn:E; [|done].
      apply orb_true_iff in E as [E|E]; apply bool_decide_eq_true in E; by rewrite E.
    + apply finish_update_error_message.
Qed.

Lemma in_process_runner_isolates_exceptions_witness :
  let exc := Py.TypeError
               "scrape_places() got an unexpected keyword argument 'progress_callback'" in
  let failure := Runner.mkResult false (7 - 1)%Q (Some exc) in
  Runner.run (Runner.mkBehaviour [] (inr [])) None 1 7
    (Runner.mkConfig "coffee shops" 100 "results.csv" false false)
    (Runner.mkCallbacks true true true) = ([], inr failure)
  ∧ (JobService._run_job Scenario.fresh_job [] (inr failure)
       (JobService.mkFinishClock 8 8 8) Scenario.one_job).2 = None.
Proof.
  cbv zeta.
  destruct (in_process_runner_isolates_exceptions Runner.scrape_places_params
              (Runner.mkBehaviour [] (inr [])) None 1 7
              (Runner.mkConfig "coffee shops" 100 "results.csv" false false)
              (Runner.mkCallbacks true true true) []
              (Py.TypeError
                 "scrape_places() got an unexpected keyword argument 'progress_callback'")
              ltac:(vm_compute; reflexivity) eq_refl) as [Hrun Hjob].
  split; [exact Hrun|].
  destruct (Hjob Scenario.one_job Scenario.fresh_job [] (JobService.mkFinishClock 8 8 8))
    as (svc1 & events & job & job' & _ & _ & _ & -> & _); [|reflexivity].
  vm_compute. eexists. reflexivity.
Defined.

(** ** Admission control *)

Section admission.
Import JobService Exec.

Lemma in_window_expired_mono now now' window ts :
  in_window now window ts = false → (now <= now')%Q →
  in_window now' window ts = false.
Proof.
  unfold in_window. rewrite !Qle_bool_false. intros. lra.
Qed.

Lemma expired_iff now window ts :
  Qltb (inject_Z window) (now - ts) = negb (in_window now window ts).
Proof. reflexivity. Qed.

Lemma drop_expired_split now window starts :
  ∃ dropped,
    starts = dropped ++ drop_expired now window starts
    ∧ Forall (λ ts, in_window now window ts = false) dropped.
Proof.
  induction starts as [|first rest (dropped & Hsplit & Hall)]; [by exists []|].
  simpl. rewrite expired_iff.
  destruct (in_window now window first) eqn:E; simpl.
  - by exists [].
  - exists (first :: dropped). split; [simpl; congruence | by constructor].
Qed.

Lemma filter_all_in {A} (f : A → bool) (l : list A) :
  Forall (λ x, f x = true) l → List.filter f l = l.
Proof.
  induction 1 as [|x l Hx _ IH]; [done|]. simpl. rewrite Hx. by rewrite IH.
Qed.

Lemma filter_all_out {A} (f : A → bool) (l : list A) :
  Forall (λ x, f x = false) l → List.filter f l = [].
Proof.
  induction 1 as [|x l Hx _ IH]; [done|]. simpl. by rewrite Hx.
Qed.

(** On a queue in clock order the loop keeps exactly the submissions of
    the trailing window. *)
Lemma drop_expired_filter now window starts :
  StronglySorted Qle starts →
  drop_expired now window starts = List.filter (in_window now window) starts.
Proof.
  induction 1 as [|first rest Hsorted IH Hfirst]; [done|].
  simpl. rewrite expired_iff.
  destruct (in_window now window first) eqn:E; simpl; [|done].
  f_equal. symmetry. apply filter_all_in.
  rewrite Forall_forall in Hfirst |- *. intros ts Hts.
  specialize (Hfirst ts Hts). unfold in_window in *.
  apply Qle_bool_iff in E. apply Qle_bool_iff. lra.
Qed.

Lemma queue_counts_window w now :
  queue_tracks_window w → (clock w <= now)%Q →
  submissions_in_window now (_rate_limit_window (svc w)) (accepted w)
  = Z.of_nat (length (drop_expired now (_rate_limit_window (svc w)) (_job_starts (svc w)))).
Proof.
  intros (dropped & Hacc & Hdropped & Hsorted & _) Hnow.
  unfold submissions_in_window. rewrite Hacc in *.
  rewrite List.filter_app, filter_all_out.
  - simpl. rewrite drop_expired_filter; [done|].
    by apply StronglySorted_app in Hsorted as (_ & _ & ?).
  - eapply Forall_impl; [exact Hdropped|]. simpl. intros ts Hts.
    by eapply in_window_expired_mono.
Qed.

Lemma start_job_settings clk job_id search_query total_results output_file
    append_mode fast_append svc :
  same_settings svc
    (start_job clk job_id search_query total_results output_file append_mode
       fast_append svc).2.
Proof.
  unfold start_job, _enforce_rate_limit_locked. cbn.
  destruct (_ <=? _); [done|]. cbn. by destruct (_ <=? _).
Qed.

Lemma deliver_settings now job_id c svc : same_settings svc (deliver now job_id c svc).1.
Proof.
  destruct c as [p|p|p]; simpl.
  - unfold _handle_progress. by destruct (_jobs svc !! job_id).
  - unfold _handle_metrics. by destruct (_jobs svc !! job_id).
  - unfold _handle_record_batch.
    destruct (Runner.rp_records p); [done|]. by destruct (_jobs svc !! job_id).
Qed.

Lemma finish_settings clk state result svc :
  same_settings svc (finish clk state result svc).1.
Proof. unfold finish. by destruct (_jobs svc !! job_id state). Qed.

Lemma step_settings w w' : step w w' → same_settings (svc w) (svc w').
Proof.
  destruct 1 as [w clk id q n o a f state svc' Hclk Hfresh Hstart
                |w clk id q n o a f e svc' Hclk Hstart
                |w now id c Hclk Hact
                |w clk id result Hclk Hact
                |w id e Hact]; cbn.
  - pose proof (start_job_settings clk id q n o a f (svc w)) as H.
    by rewrite Hstart in H.
  - pose proof (start_job_settings clk id q n o a f (svc w)) as H.
    by rewrite Hstart in H.
  - apply deliver_settings.
  - apply finish_settings.
  - done.
Qed.

Lemma queue_tracks_window_later w now starts :
  queue_tracks_window w → (clock w <= now)%Q →
  ∀ dropped',
    _job_starts (svc w) = dropped' ++ starts →
    Forall (λ ts, in_window now (_rate_limit_window (svc w)) ts = false) dropped' →
    ∃ dropped,
      accepted w = dropped ++ starts
      ∧ Forall (λ ts, in_window now (_rate_limit_window (svc w)) ts = false) dropped
      ∧ StronglySorted Qle (accepted w)
      ∧ Forall (λ ts, (ts <= now)%Q) (accepted w).
Proof.
  intros (dropped & Hacc & Hdropped & Hsorted & Hpast) Hnow dropped' Hq Hd'.
  exists (dropped ++ dropped'). split_and!.
  - by rewrite Hacc, Hq, app_assoc.
  - apply Forall_app. split; [|done].
    eapply Forall_impl; [exact Hdropped|]. simpl. intros ts Hts.
    by eapply in_window_expired_mono.
  - done.
  - eapply Forall_impl; [exact Hpast|]. simpl. intros ts Hts. lra.
Qed.

Lemma queue_tracks_window_step w w' :
  step w w' → queue_tracks_window w → queue_tracks_window w'.
Proof.
  intros Hstep Hinv. pose proof (step_settings w w' Hstep) as (_ & Hwin & _).
  unfold queue_tracks_window. rewrite <- Hwin. clear Hwin.
  destruct Hstep as [w clk id q n o a f state svc' Hclk Hfresh Hstart
                    |w clk id q n o a f e svc' Hclk Hstart
                    |w now id c Hclk Hact
                    |w clk id result Hclk Hact
                    |w id e Hact]; cbn.
  - destruct Hclk as (H1 & H2 & H3 & H4).
    apply start_job_accepted in Hstart as (_ & _ & Hq & _).
    destruct (drop_expired_split (t_check clk) (_rate_limit_window (svc w))
                (_job_starts (svc w))) as (dropped' & Hsplit & Hd').
    destruct (queue_tracks_window_later w (t_check clk) _ Hinv ltac:(lra) dropped'
                Hsplit Hd') as (dropped & Hacc & Hdropped & Hsorted & Hpast).
    exists dropped. rewrite Hq. split_and!.
    + by rewrite Hacc, app_assoc.
    + eapply Forall_impl; [exact Hdropped|]. simpl. intros ts Hts.
      eapply in_window_expired_mono; [exact Hts | lra].
    + apply StronglySorted_app. split_and!; [|done|repeat constructor].
      intros ts1 ts2 Hts1 Hts2. apply list_elem_of_singleton in Hts2 as ->.
      rewrite Forall_forall in Hpast. specialize (Hpast ts1 Hts1). lra.
    + apply Forall_app. split.
      * eapply Forall_impl; [exact Hpast|]. simpl. intros ts Hts. lra.
      * repeat constructor. apply Qle_refl.
  - destruct Hclk as (H1 & H2 & _).
    apply start_job_rejected in Hstart as (_ & Hq & _).
    destruct (drop_expired_split (t_check clk) (_rate_limit_window (svc w))
                (_job_starts (svc w))) as (dropped' & Hsplit & Hd').
    rewrite Hq.
    apply (queue_tracks_window_later w (t_check clk) _ Hinv ltac:(lra) dropped'
             Hsplit Hd').
  - rewrite deliver_job_starts.
    apply (queue_tracks_window_later w now _ Hinv Hclk []); [done | constructor].
  - destruct Hclk as (H1 & H2).
    pose proof (finish_job_starts clk id result (svc w)) as Hq. cbn in Hq. rewrite Hq.
    apply (queue_tracks_window_later w (t_sweep clk) _ Hinv ltac:(lra) []);
      [done | constructor].
  - apply (queue_tracks_window_later w (clock w) _ Hinv ltac:(apply Qle_refl) []);
      [done | constructor].
Qed.

Lemma reachable_admission init t0 w :
  _jobs init = ∅ → _job_starts init = [] →
  reachable init t0 w →
  queue_tracks_window w ∧ same_settings init (svc w) ∧ settled w.
Proof.
  intros Hjobs Hstarts. induction 1 as [|w w' _ (Hq & Hs & Ht) Hstep].
  - split_and!.
    + exists []. cbn. rewrite Hstarts. split_and!; constructor.
    + done.
    + intros id job Hlook. cbn in Hlook. by rewrite Hjobs, lookup_empty in Hlook.
  - split_and!.
    + by apply (queue_tracks_window_step w).
    + pose proof (step_settings w w' Hstep) as Hs'.
      unfold same_settings in *. destruct Hs as (-> & -> & -> & -> & ->). done.
    + by apply (settled_step w).
Qed.

(** Jobs that the sweep removes are finished, so it does not change the
    number of running jobs. *)
Lemma running_after_cleanup now w :
  settled w →
  _current_running_jobs_locked (_cleanup_finished_jobs_locked now (svc w))
  = _current_running_jobs_locked (svc w).
Proof.
  intros Hinv. unfold _current_running_jobs_locked, _cleanup_finished_jobs_locked.
  cbn. do 2 f_equal. apply map_filter_filter_l.
  intros id job Hlook Hrun. simpl in *. unfold cleanup_due.
  destruct (end_time job) as [t|] eqn:E; [|done].
  destruct (Hinv id job Hlook) as [Hterm _]; [by rewrite E|].
  rewrite Hrun in Hterm. done.
Qed.

End admission.

Lemma strict_world1_reachable : Exec.reachable Scenario.strict 0 Scenario.strict_world1.
Proof.
  apply (Exec.reachable_step _ _ Scenario.strict_world0); [apply Exec.reachable_init|].
  apply (Exec.step_start_accepted Scenario.strict_world0 (Scenario.clock_at 0)
           "job-rate-1" "coffee" 5 "file.csv" false false
           (JobService.mkJob "job-rate-1" "coffee" 5 "file.csv" false false
              "running" 0 0 None 0 None 0 None 0 (Some 0%Q) [] [])).
  - repeat split; apply Qle_refl.
  - apply not_elem_of_empty.
  - vm_compute. reflexivity.
Qed.

(** The running jobs, counted without the code: any set that holds
    exactly the ids registered with status [running] has the size that
    [_current_running_jobs_locked] returns. *)
Lemma running_jobs_count (ids : gset string) (svc : JobService.JobService) :
  (∀ id, id ∈ ids ↔
     ∃ job, JobService._jobs svc !! id = Some job ∧ JobService.status job = "running") →
  JobService._current_running_jobs_locked svc = Z.of_nat (size ids).
Proof.
  intros Hids. unfold JobService._current_running_jobs_locked.
  f_equal. rewrite <- size_dom. f_equal. apply set_eq. intros id.
  rewrite elem_of_dom, Hids. split.
  - intros [job Hjob]. apply map_lookup_filter_Some in Hjob as [Hjob Hrun]. eauto.
  - intros (job & Hjob & Hrun). exists job. by apply map_lookup_filter_Some.
Qed.

(** The two checks of [start_job], in their order. *)
Lemma start_job_outcome clk job_id search_query total_results output_file
    append_mode fast_append (svc : JobService.JobService) :
  let swept := JobService._cleanup_finished_jobs_locked (JobService.t_cleanup clk) svc in
  let queued :=
    Z.of_nat (length (JobService.drop_expired (JobService.t_check clk)
                        (JobService._rate_limit_window svc) (JobService._job_starts svc))) in
  (JobService.start_job clk job_id search_query total_results output_file append_mode
     fast_append svc).1
  = if JobService._rate_limit svc <=? queued then
      inl (Py.RateLimitExceeded "Too many scraping jobs started recently")
    else if JobService._max_concurrent_jobs svc
            <=? JobService._current_running_jobs_locked swept then
      inl (Py.RateLimitExceeded "Maximum concurrent scraping jobs in progress")
    else
      inr (JobService.mkJob job_id search_query total_results output_file append_mode
             fast_append "running" 0%Q 0 None (JobService.t_created clk) None 0%Q None
             0%Q (Some (JobService.t_update clk)) [] []).
Proof.
  unfold JobService.start_job, JobService._enforce_rate_limit_locked. cbn.
  destruct (_ <=? _); [done|]. cbn.
  unfold JobService._current_running_jobs_locked, JobService._cleanup_finished_jobs_locked.
  cbn. by destruct (_ <=? _).
Qed.

Lemma single_world1_reachable : Exec.reachable Scenario.single 0 Scenario.single_world1.
Proof.
  apply (Exec.reachable_step _ _ Scenario.single_world0); [apply Exec.reachable_init|].
  apply (Exec.step_start_accepted Scenario.single_world0 (Scenario.clock_at 0)
           "job-1" "coffee shops" 100 "results.csv" false false Scenario.fresh_job).
  - repeat split; apply Qle_refl.
  - apply not_elem_of_empty.
  - vm_compute. reflexivity.
Qed.

(** After the first accepted submission on a fresh registry the running
    jobs are that one job. *)
Lemma first_job_running clk job_id search_query total_results output_file
    append_mode fast_append (init : JobService.JobService) (id : string) :
  JobService._jobs init = ∅ →
  is_Some (JobService._jobs
             (JobService.start_job clk job_id search_query total_results output_file
                append_mode fast_append init).2 !! job_id) →
  id ∈ ({[job_id]} : gset string) ↔
  ∃ job,
    JobService._jobs
      (JobService.start_job clk job_id search_query total_results output_file
         append_mode fast_append init).2 !! id = Some job
    ∧ JobService.status job = "running".
Proof.
  intros Hinit Hin.
  destruct (JobService.start_job clk job_id search_query total_results output_file
              append_mode fast_append init) as [[e|state] svc'] eqn:E; cbn [snd] in *.
  - apply start_job_rejected in E as (Hjobs & _).
    destruct Hin as [job Hjob]. rewrite Hjobs in Hjob.
    apply cleanup_lookup in Hjob. by rewrite Hinit, lookup_empty in Hjob.
  - apply start_job_accepted in E as (Hstate & Hjobs & _).
    rewrite Hjobs, elem_of_singleton. split.
    + intros ->. rewrite lookup_insert_eq. eexists. split; [done|]. by rewrite Hstate.
    + intros (job & Hjob & _). destruct (decide (id = job_id)) as [|Hne]; [done|].
      rewrite lookup_insert_ne in Hjob by done.
      apply cleanup_lookup in Hjob. by rewrite Hinit, lookup_empty in Hjob.
Qed.

Lemma strict_world1_running id :
  id ∈ ({["job-rate-1"]} : gset string) ↔
  ∃ job, JobService._jobs (Exec.svc Scenario.strict_world1) !! id = Some job
         ∧ JobService.status job = "running".
Proof.
  apply (first_job_running (Scenario.clock_at 0) "job-rate-1" "coffee" 5 "file.csv"
           false false Scenario.strict id); [done|].
  vm_compute. eexists. reflexivity.
Qed.

Lemma single_world1_running id :
  id ∈ ({["job-1"]} : gset string) ↔
  ∃ job, JobService._jobs (Exec.svc Scenario.single_world1) !! id = Some job
         ∧ JobService.status job = "running".
Proof.
  apply (first_job_running (Scenario.clock_at 0) "job-1" "coffee shops" 100
           "results.csv" false false Scenario.single id); [done|].
  vm_compute. eexists. reflexivity.
Qed.

(** C1. In every state reachable from a fresh registry, with a clock that
    does not run backwards, let [recent] be the number of accepted
    submissions whose timestamps lie within the window that trails the
    call, and [running] the number of ids registered with status
    [running] (the size of any set that holds exactly those ids).  A call
    to [start_job] raises [RateLimitExceeded] if and only if [recent] has
    reached the rate limit or [running] has reached the concurrency cap,
    with the message of the rate limit in the first case and the message
    of the cap when only the cap is reached, and it returns the new job
    state otherwise.  So once as many submissions as the limit lie inside
    the window the next call fails, and once the window has elapsed for
    all of them a call succeeds again (the limit being positive and the
    concurrency cap not reached). *)
Theorem start_job_admission
    (rate_limit window cleanup_after metrics_window max_jobs : Z) (t0 : Q)
    (w : Exec.world) (clk : JobService.StartClock) (job_id search_query : string)
    (total_results : Z) (output_file : string) (append_mode fast_append : bool)
    (running_ids : gset string) :
  Exec.reachable
    (JobService.new rate_limit window cleanup_after metrics_window max_jobs) t0 w →
  Exec.start_clock_ordered (Exec.clock w) clk →
  (∀ id, id ∈ running_ids ↔
     ∃ job, JobService._jobs (Exec.svc w) !! id = Some job
            ∧ JobService.status job = "running") →
  let outcome :=
    (JobService.start_job clk job_id search_query total_results output_file
       append_mode fast_append (Exec.svc w)).1 in
  let recent :=
    Exec.submissions_in_window (JobService.t_check clk) window (Exec.accepted w) in
  let running := Z.of_nat (size running_ids) in
  (outcome = inl (Py.RateLimitExceeded "Too many scraping jobs started recently")
     ↔ rate_limit ≤ recent)
  ∧ (outcome = inl (Py.RateLimitExceeded "Maximum concurrent scraping jobs in progress")
     ↔ recent < rate_limit ∧ max_jobs ≤ running)
  ∧ ((∃ msg, outcome = inl (Py.RateLimitExceeded msg))
     ↔ rate_limit ≤ recent ∨ max_jobs ≤ running)
  ∧ ((∃ state, outcome = inr state) ↔ recent < rate_limit ∧ running < max_jobs)
  ∧ (rate_limit ≤ recent → ∃ msg, outcome = inl (Py.RateLimitExceeded msg))
  ∧ (Forall (λ ts, (inject_Z window < JobService.t_check clk - ts)%Q) (Exec.accepted w) →
     0 < rate_limit → running < max_jobs → ∃ state, outcome = inr state).
Proof.
  intros Hreach Hclk Hids outcome recent running.
  apply reachable_admission in Hreach as (Hq & Hs & Hsettled); [|done..].
  destruct Hs as (Hrl & Hwin & _ & _ & Hcap). cbn in Hrl, Hwin, Hcap.
  assert (Exec.clock w <= JobService.t_check clk)%Q as Hnow
    by (destruct Hclk as (? & ? & _); lra).
  pose proof (queue_counts_window w _ Hq Hnow) as Hcount.
  rewrite <- Hwin in Hcount. fold recent in Hcount.
  pose proof (running_after_cleanup (JobService.t_cleanup clk) w Hsettled) as Hrun.
  rewrite (running_jobs_count running_ids (Exec.svc w) Hids) in Hrun. fold running in Hrun.
  assert (outcome
          = if rate_limit <=? recent then
              inl (Py.RateLimitExceeded "Too many scraping jobs started recently")
            else if max_jobs <=? running then
              inl (Py.RateLimitExceeded "Maximum concurrent scraping jobs in progress")
            else
              inr (JobService.mkJob job_id search_query total_results output_file
                     append_mode fast_append "running" 0%Q 0 None
                     (JobService.t_created clk) None 0%Q None 0%Q
                     (Some (JobService.t_update clk)) [] [])) as Hout.
  { subst outcome. rewrite start_job_outcome. cbv zeta.
    by rewrite Hrun, <- Hrl, <- Hcap, <- Hwin, <- Hcount. }
  assert (Forall (λ ts, (inject_Z window < JobService.t_check clk - ts)%Q)
            (Exec.accepted w) → recent = 0) as Hnone.
  { intros Hold. subst recent. unfold Exec.submissions_in_window.
    rewrite filter_all_out; [done|].
    eapply Forall_impl; [exact Hold|]. simpl. intros ts Hts.
    unfold Exec.in_window. by apply Qle_bool_false. }
  clearbody outcome recent running. clear Hcount Hrun. rewrite Hout. clear Hout.
  destruct (Z.leb_spec rate_limit recent) as [Hfull|Hroom];
    [|destruct (Z.leb_spec max_jobs running) as [Hbusy|Hfree]].
  - split_and!.
    + done.
    + split; [intros [=] | lia].
    + split; [intros _; lia | eauto].
    + split; [intros [state [=]] | lia].
    + eauto.
    + intros Hold. rewrite (Hnone Hold) in Hfull. lia.
  - split_and!.
    + split; [intros [=] | lia].
    + done.
    + split; [intros _; lia | eauto].
    + split; [intros [state [=]] | lia].
    + lia.
    + lia.
  - split_and!.
    + split; [intros [=] | lia].
    + split; [intros [=] | lia].
    + split; [intros [msg [=]] | lia].
    + split; [done | eauto].
    + lia.
    + eauto.
Qed.

Lemma start_job_admission_witness :
  (JobService.start_job (Scenario.clock_at (1 # 10)) "job-rate-2" "coffee" 5
     "file2.csv" false false (Exec.svc Scenario.strict_world1)).1
  = inl (Py.RateLimitExceeded "Too many scraping jobs started recently")
  ∧ (∃ state,
       (JobService.start_job (Scenario.clock_at 61) "job-rate-2" "coffee" 5
          "file2.csv" false false (Exec.svc Scenario.strict_world1)).1
       = inr state)
  ∧ (JobService.start_job (Scenario.clock_at 61) "job-2" "tea rooms" 10 "tea.csv"
       false false (Exec.svc Scenario.single_world1)).1
    = inl (Py.RateLimitExceeded "Maximum concurrent scraping jobs in progress").
Proof.
  split_and!.
  - pose proof (start_job_admission 1 60 3600 120 2 0 Scenario.strict_world1
                  (Scenario.clock_at (1 # 10)) "job-rate-2" "coffee" 5 "file2.csv"
                  false false {["job-rate-1"]} strict_world1_reachable) as H.
    cbv zeta in H. destruct H as (Hrate & _).
    + repeat split; discriminate.
    + exact strict_world1_running.
    + apply Hrate. vm_compute. discriminate.
  - pose proof (start_job_admission 1 60 3600 120 2 0 Scenario.strict_world1
                  (Scenario.clock_at 61) "job-rate-2" "coffee" 5 "file2.csv"
                  false false {["job-rate-1"]} strict_world1_reachable) as H.
    cbv zeta in H. destruct H as (_ & _ & _ & _ & _ & Hagain).
    + repeat split; discriminate.
    + exact strict_world1_running.
    + apply Hagain.
      * repeat constructor.
      * reflexivity.
      * vm_compute. reflexivity.
  - pose proof (start_job_admission 5 60 900 180 1 0 Scenario.single_world1
                  (Scenario.clock_at 61) "job-2" "tea rooms" 10 "tea.csv"
                  false false {["job-1"]} single_world1_reachable) as H.
    cbv zeta in H. destruct H as (_ & Hcap & _).
    + repeat split; discriminate.
    + exact single_world1_running.
    + apply Hcap. split; [vm_compute; reflexivity | vm_compute; discriminate].
Defined.


(** ** The memoized duplicate check *)

Section lru_lookup.
Context {K V : Type} `{EqDecision K}.
Import LRU.

Lemma put_then_get (k : K) (v : V) (c : LRUCache K V) :
  (0 < max_size c)%Z →
  ∃ c', put k v c = inr c' ∧ max_size c' = max_size c
        ∧ od_get k (cache c') = Some v.
Proof.
  intros Hpos. destruct (od_get k (cache c)) as [v0|] eqn:E.
  - rewrite (put_present k v v0 c E). eexists. split_and!; [done | done |].
    cbn. apply od_get_last, od_remove_absent.
  - pose proof E as Hn. apply od_get_None in Hn.
    destruct (Z.le_gt_cases (max_size c) (Z.of_nat (length (cache c)))) as [Hfull|Hroom].
    + destruct (cache c) as [|kv0 rest] eqn:Hc; [simpl in Hfull; lia|].
      rewrite (put_fresh_full k v kv0 rest) by (rewrite ?Hc; done).
      eexists. split_and!; [done | done |]. cbn. apply od_get_last.
      simpl in Hn. apply not_elem_of_cons in Hn. tauto.
    + rewrite put_fresh_room by (first [done | lia]).
      eexists. split_and!; [done | done |]. cbn. by apply od_get_last.
Qed.

Lemma get_then_get (k : K) (v : V) (c : LRUCache K V) :
  od_get k (cache c) = Some v →
  get k c = (Some v, (get k c).2) ∧ od_get k (cache (get k c).2) = Some v.
Proof.
  intros E. rewrite (get_hit k v c E). cbn. split; [done|].
  apply od_get_last, od_remove_absent.
Qed.

End lru_lookup.


(** A call answered from the consolidated cache. *)
Lemma check_duplicate_file_hit fs st business_type areas output_file e :
  Main.path_exists fs output_file = true →
  0 < Main.getsize fs output_file →
  LRU.od_get (App.cache_key output_file (Main.getsize fs output_file) business_type)
    (LRU.cache (App._duplicate_cache st)) = Some e →
  ∃ lru,
    App.check_duplicate_file fs st business_type areas output_file
      = ((App.is_duplicate e, Some (App.count e)),
         App.mkCaches lru (App._content_hash_cache st) (App.scans st))
    ∧ LRU.max_size lru = LRU.max_size (App._duplicate_cache st)
    ∧ LRU.od_get (App.cache_key output_file (Main.getsize fs output_file) business_type)
        (LRU.cache lru) = Some e.
Proof.
  intros Hex Hsize Hhit. unfold App.check_duplicate_file. rewrite Hex. simpl.
  destruct (Z.eqb_spec (Main.getsize fs output_file) 0) as [|_]; [lia|].
  destruct (get_then_get _ _ _ Hhit) as [Hget Hagain]. rewrite Hget.
  eexists. split_and!; [reflexivity | | exact Hagain].
  by rewrite (get_hit _ _ _ Hhit).
Qed.

(** After any call on a readable, non-empty file the verdict it returned
    sits in the consolidated cache under the call's key. *)
Lemma check_duplicate_file_caches fs st business_type areas output_file :
  (0 < LRU.max_size (App._duplicate_cache st))%Z →
  is_Some (Main.open_file fs output_file) →
  0 < Main.getsize fs output_file →
  ∃ e st',
    App.check_duplicate_file fs st business_type areas output_file
      = ((App.is_duplicate e, Some (App.count e)), st')
    ∧ LRU.max_size (App._duplicate_cache st') = LRU.max_size (App._duplicate_cache st)
    ∧ LRU.od_get (App.cache_key output_file (Main.getsize fs output_file) business_type)
        (LRU.cache (App._duplicate_cache st')) = Some e.
Proof.
  intros Hpos [f Hopen] Hsize.
  assert (Main.path_exists fs output_file = true) as Hex.
  { unfold Main.path_exists, Main.open_file in *.
    destruct (Main.files fs !! output_file); [|done]. by apply bool_decide_eq_true. }
  destruct (LRU.od_get (App.cache_key output_file (Main.getsize fs output_file) business_type)
              (LRU.cache (App._duplicate_cache st))) as [e|] eqn:Hlook.
  - destruct (check_duplicate_file_hit fs st business_type areas output_file e
                Hex Hsize Hlook) as (lru & -> & Hm & Hget).
    by exists e, (App.mkCaches lru (App._content_hash_cache st) (App.scans st)).
  - unfold App.check_duplicate_file. rewrite Hex. simpl.
    destruct (Z.eqb_spec (Main.getsize fs output_file) 0) as [|_]; [lia|].
    rewrite (get_miss _ _ Hlook). unfold App._check_content_fingerprint.
    destruct st as [lru0 hashes n]. cbn [App._duplicate_cache App._content_hash_cache
                                         App.scans] in *.
    destruct (hashes !! _) as [cached|] eqn:Hc;
      [|rewrite Hopen];
      cbn [App._duplicate_cache App._content_hash_cache App.scans].
    + destruct (put_then_get
                  (App.cache_key output_file (Main.getsize fs output_file) business_type)
                  (App.mkEntry (App.is_duplicate cached) (App.count cached))
                  lru0 Hpos) as (c' & -> & Hm & Hget).
      by exists (App.mkEntry (App.is_duplicate cached) (App.count cached)),
                (App.mkCaches c' hashes n).
    + match goal with
      | |- context [LRU.put ?k ?v lru0] =>
          destruct (put_then_get k v lru0 Hpos) as (c' & -> & Hm & Hget);
          by exists v, (App.mkCaches c' (<[k := v]> hashes) (S n))
      end.
Qed.




(** ** Further properties of the registry *)

Section preview_buffer.
Import JobService.
Context {A : Type}.
Implicit Types (l d rs : list A).

Lemma deque_append_drop (n : nat) (x : A) l :
  deque_append n x (drop (length l - n) l) = drop (length (l ++ [x]) - n) (l ++ [x]).
Proof.
  unfold deque_append.
  rewrite <- drop_app_le by lia.
  rewrite drop_drop. f_equal.
  rewrite length_drop, !length_app. simpl. lia.
Qed.

Lemma deque_extend_drop (n : nat) rs l :
  fold_left (λ d x, deque_append n x d) rs (drop (length l - n) l)
  = drop (length (l ++ rs) - n) (l ++ rs).
Proof.
  revert l. induction rs as [|x rs IH]; intros l; simpl.
  - by rewrite app_nil_r.
  - rewrite deque_append_drop, IH. by rewrite <- app_assoc.
Qed.

End preview_buffer.

(** Preview buffer.  A record batch leaves in the preview buffer the most
    recent 25 of the records buffered before followed by the records of
    the batch, the oldest being dropped first. *)
Theorem preview_keeps_most_recent (payload : Runner.RecordPayload)
    (job : JobService.ScrapingJobState) :
  (length (JobService.recent_records job) ≤ 25)%nat →
  JobService.recent_records (JobService.record_batch_update payload job)
  = drop (length (JobService.recent_records job ++ Runner.rp_records payload) - 25)
      (JobService.recent_records job ++ Runner.rp_records payload).
Proof.
  intros Hlen. unfold JobService.record_batch_update.
  assert (JobService.recent_records job
          = drop (length (JobService.recent_records job) - 25)
              (JobService.recent_records job)) as Hd.
  { replace (length (JobService.recent_records job) - 25)%nat with 0%nat by lia. done. }
  pose proof (deque_extend_drop 25 (Runner.rp_records payload)
                (JobService.recent_records job)) as Hext.
  rewrite <- Hd in Hext.
  destruct (Runner.rp_total_scraped payload) as [[n|]|]; destruct job; exact Hext.
Qed.

Lemma preview_keeps_most_recent_witness :
  JobService.recent_records
    (JobService.record_batch_update (Runner.mkRecords Scenario.twenty_six None)
       Scenario.job_two_samples)
  = Scenario.numbered <$> seq 1 25.
Proof.
  rewrite (preview_keeps_most_recent (Runner.mkRecords Scenario.twenty_six None)
             Scenario.job_two_samples); [reflexivity | simpl; lia].
Defined.

(** A sweep keeps exactly the jobs that are unfinished or whose
    [end_time], read by [.timestamp()], is not older than the retention
    window. *)
Lemma cleanup_lookup_iff (now : Q) (svc : JobService.JobService)
    (job_id : string) (job : JobService.ScrapingJobState) :
  JobService._jobs (JobService._cleanup_finished_jobs_locked now svc) !! job_id = Some job
  ↔ JobService._jobs svc !! job_id = Some job
    ∧ ∀ t, JobService.end_time job = Some t →
           (now - inject_Z (JobService._cleanup_after_seconds svc) <= t)%Q.
Proof.
  unfold JobService._cleanup_finished_jobs_locked. cbn.
  rewrite map_lookup_filter_Some. simpl. unfold JobService.cleanup_due.
  split; intros [Hlook Hkeep]; (split; [done|]).
  - intros t Ht. rewrite Ht in Hkeep. by apply Qltb_false.
  - destruct (JobService.end_time job) as [t|]; [|done].
    apply Qltb_false. by apply Hkeep.
Qed.

(** End to end.  Target 100; the runner reports 10 records at time 1000,
    100 records at time 1060, and returns success: the job ends
    [completed] with [result_count] 100, a throughput of 90 per minute
    computed from the two samples and [end_time] set; [job_progress] is
    published three times (once per callback and once at the end) and
    [job_metrics] once. *)
Theorem end_to_end_scenario :
  let '(svc, events, raised) :=
    JobService._run_job Scenario.fresh_job Scenario.scenario_calls
      (inr (Runner.mkResult true 61 None))
      (JobService.mkFinishClock 1061 1061 1061) Scenario.one_job in
  raised = None
  ∧ (JobService.status <$> JobService._jobs svc !! "job-1") = Some "completed"
  ∧ (JobService.result_count <$> JobService._jobs svc !! "job-1") = Some 100
  ∧ (JobService.end_time <$> JobService._jobs svc !! "job-1") = Some (Some 1061%Q)
  ∧ from_option (λ job, Qeq_bool (JobService.throughput_per_minute job) 90) false
      (JobService._jobs svc !! "job-1") = true
  ∧ length (List.filter Scenario.is_job_progress events) = 3%nat
  ∧ length (List.filter Scenario.is_job_metrics events) = 1%nat.
Proof. vm_compute. split_and!; reflexivity. Qed.

Section registry_more.
Import JobService.
Implicit Types (svc : JobService) (job : ScrapingJobState).

Lemma last_items_suffix {A} (limit : Z) (l : list A) :
  last_items limit l `suffix_of` l.
Proof. unfold last_items. apply suffix_drop. Qed.

Lemma last_items_length {A} (limit : Z) (l : list A) :
  0 < limit →
  length (last_items limit l) = Nat.min (Z.to_nat limit) (length l).
Proof.
  intros Hpos. unfold last_items. rewrite length_drop.
  destruct (Z.ltb_spec (- limit) 0); lia.
Qed.

Lemma last_items_zero {A} (l : list A) : last_items 0 l = l.
Proof. done. Qed.

Lemma last_items_negative {A} (limit : Z) (l : list A) :
  limit < 0 → last_items limit l = drop (Z.to_nat (- limit)) l.
Proof.
  intros Hneg. unfold last_items. destruct (Z.ltb_spec (- limit) 0); [lia | done].
Qed.

(** Preview.  [get_preview] raises [JobNotFound] for an id that is not
    registered.  For a registered job it returns the job's counters and
    the last [limit] records of the preview buffer, in order (all of
    them when fewer are buffered), with the column names of the first
    record returned; a [limit] of zero does not give an empty preview but
    the whole buffer, and a negative [limit] drops that many records from
    the front. *)
Theorem get_preview_window (svc : JobService) (job_id : string) (limit : Z) :
  match _jobs svc !! job_id with
  | None => get_preview job_id limit svc = inl (Py.JobNotFound job_id)
  | Some job =>
      ∃ pv, get_preview job_id limit svc = inr pv
        ∧ pv_result_count pv = result_count job
        ∧ pv_status pv = status job
        ∧ pv_records pv `suffix_of` recent_records job
        ∧ (0 < limit →
           length (pv_records pv) = Nat.min (Z.to_nat limit) (length (recent_records job)))
        ∧ (limit = 0 → pv_records pv = recent_records job)
        ∧ (limit < 0 → pv_records pv = drop (Z.to_nat (- limit)) (recent_records job))
        ∧ pv_columns pv = from_option (λ record, record.*1) [] (head (pv_records pv))
  end.
Proof.
  unfold get_preview. destruct (_jobs svc !! job_id) as [job|]; [|done].
  eexists. split; [reflexivity|]. cbn.
  split_and!; try done.
  - apply last_items_suffix.
  - apply last_items_length.
  - by intros ->.
  - apply last_items_negative.
  - by destruct (last_items limit (recent_records job)).
Qed.

End registry_more.

Section registry_more.
Import JobService.
Implicit Types (svc : JobService) (job : ScrapingJobState).

(** A callback leaves the entries of all other jobs as they are. *)
Lemma deliver_other now job_id c svc job_id' :
  job_id' ≠ job_id →
  _jobs (deliver now job_id c svc).1 !! job_id' = _jobs svc !! job_id'.
Proof.
  intros Hne. destruct c as [p|p|p]; simpl.
  - unfold _handle_progress. destruct (_jobs svc !! job_id); [|done].
    cbn. by rewrite lookup_insert_ne.
  - unfold _handle_metrics. destruct (_jobs svc !! job_id); [|done].
    cbn. by rewrite lookup_insert_ne.
  - unfold _handle_record_batch. destruct (Runner.rp_records p); [done|].
    destruct (_jobs svc !! job_id); [|done].
    cbn. by rewrite lookup_insert_ne.
Qed.

Lemma deliver_absent now job_id c svc :
  _jobs svc !! job_id = None → deliver now job_id c svc = (svc, []).
Proof.
  intros Hnone. destruct c as [p|p|p]; simpl.
  - unfold _handle_progress. by rewrite Hnone.
  - unfold _handle_metrics. by rewrite Hnone.
  - unfold _handle_record_batch. rewrite Hnone. by destruct (Runner.rp_records p).
Qed.

Lemma deliver_same now job_id c svc job :
  _jobs svc !! job_id = Some job →
  _jobs (deliver now job_id c svc).1 !! job_id
  = Some (callback_update (_metrics_window_seconds svc) now c job).
Proof.
  intros Hjob. destruct c as [p|p|p]; simpl.
  - unfold _handle_progress. rewrite Hjob. cbn. by rewrite lookup_insert_eq.
  - unfold _handle_metrics. rewrite Hjob. cbn. by rewrite lookup_insert_eq.
  - unfold _handle_record_batch. destruct (Runner.rp_records p); [done|].
    rewrite Hjob. cbn. by rewrite lookup_insert_eq.
Qed.

Lemma deliver_events now job_id c svc job :
  _jobs svc !! job_id = Some job →
  event_name <$> (deliver now job_id c svc).2
  = match c with
    | Runner.OnProgress _ => ["job_progress"]
    | Runner.OnMetrics _ => ["job_metrics"]
    | Runner.OnRecordBatch payload =>
        match Runner.rp_records payload with [] => [] | _ => ["job_record_batch"] end
    end.
Proof.
  intros Hjob. destruct c as [p|p|p]; simpl.
  - unfold _handle_progress. by rewrite Hjob.
  - unfold _handle_metrics. by rewrite Hjob.
  - unfold _handle_record_batch. destruct (Runner.rp_records p); [done|].
    by rewrite Hjob.
Qed.

End registry_more.

Section publishing.
Import JobService Exec.
Implicit Types (svc : JobService) (job : ScrapingJobState).

Lemma deliver_event_names now job_id c svc :
  is_Some (_jobs svc !! job_id) →
  event_name <$> (deliver now job_id c svc).2 = callback_events c.
Proof.
  intros [job Hjob]. destruct c as [p|p|p]; simpl.
  - unfold _handle_progress. by rewrite Hjob.
  - unfold _handle_metrics. by rewrite Hjob.
  - unfold _handle_record_batch. destruct (Runner.rp_records p); [done|].
    by rewrite Hjob.
Qed.

Lemma deliver_all_event_names job_id calls svc :
  is_Some (_jobs svc !! job_id) →
  event_name <$> (deliver_all job_id calls svc).2 = calls.*2 ≫= callback_events.
Proof.
  revert svc. induction calls as [|[now c] calls IH]; intros svc Hjob; [done|].
  simpl.
  pose proof (deliver_event_names now job_id c svc Hjob) as Hev.
  pose proof (deliver_present now job_id c svc Hjob) as Hnext.
  destruct (deliver now job_id c svc) as [svc1 ev].
  specialize (IH svc1 Hnext).
  destruct (deliver_all job_id calls svc1) as [svc2 evs].
  cbn in *. by rewrite fmap_app, Hev, IH.
Qed.

Lemma deliver_all_absent job_id calls svc :
  _jobs svc !! job_id = None → deliver_all job_id calls svc = (svc, []).
Proof.
  intros Hnone. induction calls as [|[now c] calls IH]; [done|].
  simpl. by rewrite (deliver_absent _ _ _ _ Hnone), IH.
Qed.

(** Publication.  Run for a registered job, [_run_job] publishes one
    event per callback, in the order of the callbacks ([job_progress] for
    a progress callback, [job_metrics] for a metrics callback,
    [job_record_batch] for a record batch that has records, nothing for
    one that has none), and, when the runner returns, one final
    [job_progress] followed by one final [job_metrics]; when the runner
    raises, the exception leaves the worker and there are no final
    events.  When the job is not registered, the callbacks find nothing,
    change nothing and publish nothing; the worker, which never looks its
    job up, still stamps the state object it holds when the runner
    returns, publishes the two final events built from that object, and
    sweeps the registry. *)
Theorem run_job_publishes (svc : JobService) (state : ScrapingJobState)
    (calls : list (Q * Runner.callback))
    (outcome : Py.exn + Runner.ScraperRunResult) (clk : FinishClock) :
  match _jobs svc !! job_id state with
  | Some _ =>
      event_name <$> (_run_job state calls outcome clk svc).1.2
      = (calls.*2 ≫= callback_events)
        ++ match outcome with
           | inr _ => ["job_progress"; "job_metrics"]
           | inl _ => []
           end
  | None =>
      (_run_job state calls outcome clk svc).1
      = match outcome with
        | inl _ => (svc, [])
        | inr result =>
            let state' := finish_update (t_finished clk) (t_now clk) result state in
            (_cleanup_finished_jobs_locked (t_sweep clk) svc,
             [_build_progress_payload_locked (t_now clk) state';
              _build_metrics_payload_locked state'])
        end
  end
  ∧ (_run_job state calls outcome clk svc).2
    = match outcome with inl e => Some e | inr _ => None end.
Proof.
  unfold _run_job. split.
  - destruct (_jobs svc !! job_id state) as [job|] eqn:Hjob.
    + pose proof (deliver_all_event_names (job_id state) calls svc ltac:(eauto)) as Hev.
      pose proof (deliver_all_present (job_id state) calls svc ltac:(eauto))
        as [job1 Hjob1].
      destruct (deliver_all (job_id state) calls svc) as [svc1 events].
      cbn [fst snd] in *.
      destruct outcome as [e|result].
      * cbn. by rewrite app_nil_r.
      * rewrite (finish_present clk state result svc1 job1 Hjob1). cbn.
        by rewrite fmap_app, Hev.
    + rewrite (deliver_all_absent _ _ _ Hjob).
      destruct outcome as [e|result]; [done|].
      by rewrite (finish_absent clk state result svc Hjob).
  - destruct (deliver_all (job_id state) calls svc) as [svc1 events].
    destruct outcome as [e|result]; [done|].
    by destruct (finish clk state result svc1).
Qed.

(** Isolation of jobs.  A callback of the worker of one job leaves the
    entries of all other jobs, the rate-limit queue and the settings as
    they are.  When its own job is not registered (any more) it changes
    nothing and publishes nothing; the same holds for a record batch
    without records, whose total-scraped hint is then not stored. *)
Theorem callbacks_touch_only_their_job (now : Q) (job_id : string)
    (c : Runner.callback) (svc : JobService) :
  (∀ job_id', job_id' ≠ job_id →
     _jobs (deliver now job_id c svc).1 !! job_id' = _jobs svc !! job_id')
  ∧ _job_starts (deliver now job_id c svc).1 = _job_starts svc
  ∧ same_settings svc (deliver now job_id c svc).1
  ∧ (_jobs svc !! job_id = None → deliver now job_id c svc = (svc, []))
  ∧ (∀ hint, c = Runner.OnRecordBatch (Runner.mkRecords [] hint) →
     deliver now job_id c svc = (svc, [])).
Proof.
  split_and!.
  - intros. by apply deliver_other.
  - apply deliver_job_starts.
  - apply deliver_settings.
  - apply deliver_absent.
  - by intros hint ->.
Qed.

End publishing.

Section frozen.
Import JobService Exec.
Implicit Types (svc : JobService) (job : ScrapingJobState).

Lemma cleanup_keeps_unfinished now svc job_id job :
  _jobs svc !! job_id = Some job → end_time job = None →
  _jobs (_cleanup_finished_jobs_locked now svc) !! job_id = Some job.
Proof.
  intros Hjob Hend. unfold _cleanup_finished_jobs_locked. cbn.
  apply map_lookup_filter_Some. split; [done|].
  simpl. unfold cleanup_due. by rewrite Hend.
Qed.

Lemma finish_other clk state result svc job_id' job :
  job_id' ≠ job_id state → _jobs svc !! job_id' = Some job → end_time job = None →
  _jobs (finish clk state result svc).1 !! job_id' = Some job.
Proof.
  intros Hne Hjob Hend. unfold finish. cbn [fst].
  apply cleanup_keeps_unfinished; [|done].
  destruct (_jobs svc !! job_id state); [|done].
  cbn. by rewrite lookup_insert_ne.
Qed.

(** One step leaves alone a job whose worker has gone without stamping
    [end_time]. *)
Lemma frozen_step w w' job_id job :
  step w w' →
  job_id ∈ used w → job_id ∉ active w →
  _jobs (svc w) !! job_id = Some job → end_time job = None →
  job_id ∈ used w' ∧ (job_id ∉ active w') ∧ _jobs (svc w') !! job_id = Some job.
Proof.
  intros Hstep Hused Hout Hjob Hend.
  destruct Hstep as [w clk id q n o a f state svc' Hclk Hfresh Hstart
                    |w clk id q n o a f e svc' Hclk Hstart
                    |w now id c Hclk Hact
                    |w clk id result Hclk Hact
                    |w id e Hact]; cbn.
  - assert (job_id ≠ id) as Hne by (intros ->; done).
    apply start_job_accepted in Hstart as (_ & Hjobs & _).
    split_and!.
    + by apply elem_of_union_r.
    + rewrite not_elem_of_union, not_elem_of_singleton. done.
    + rewrite Hjobs, lookup_insert_ne by done.
      by apply cleanup_keeps_unfinished.
  - apply start_job_rejected in Hstart as (Hjobs & _).
    split_and!; [done | done |].
    rewrite Hjobs. by apply cleanup_keeps_unfinished.
  - assert (job_id ≠ id) as Hne by (intros ->; done).
    split_and!; [done | done |]. by rewrite deliver_other.
  - assert (job_id ≠ JobService.job_id id) as Hne by (intros ->; done).
    split_and!; [done | | by apply finish_other].
    rewrite elem_of_difference. tauto.
  - split_and!; [done | | done].
    rewrite elem_of_difference. tauto.
Qed.

Lemma frozen_steps w w' job_id job :
  steps w w' →
  job_id ∈ used w → job_id ∉ active w →
  _jobs (svc w) !! job_id = Some job → end_time job = None →
  job_id ∈ used w' ∧ (job_id ∉ active w') ∧ _jobs (svc w') !! job_id = Some job.
Proof.
  induction 1 as [w|w w1 w' Hstep _ IH]; intros Hused Hout Hjob Hend; [done|].
  destruct (frozen_step w w1 job_id job Hstep Hused Hout Hjob Hend) as (? & ? & ?).
  by apply IH.
Qed.

Lemma steps_settings w w' : steps w w' → same_settings (svc w) (svc w').
Proof.
  induction 1 as [w|w w1 w' Hstep _ IH]; [done|].
  apply step_settings in Hstep. unfold same_settings in *.
  destruct Hstep as (-> & -> & -> & -> & ->). done.
Qed.

Lemma running_at_least (ids : gset string) svc :
  (∀ job_id, job_id ∈ ids →
     ∃ job, _jobs svc !! job_id = Some job ∧ status job = "running") →
  Z.of_nat (size ids) ≤ _current_running_jobs_locked svc.
Proof.
  intros Hall. unfold _current_running_jobs_locked.
  apply inj_le. rewrite <- size_dom.
  apply subseteq_size. intros job_id Hin.
  destruct (Hall job_id Hin) as (job & Hjob & Hrun).
  apply elem_of_dom. exists job. by apply map_lookup_filter_Some.
Qed.

End frozen.

Section abandoned.
Import JobService Exec.
Implicit Types (svc : JobService) (job : ScrapingJobState).

(** Abandoned jobs.  A job whose worker has gone without stamping
    [end_time] (its runner raised) is out of reach of every later
    operation: no callback or completion addresses it, no submission
    reuses its id, and the sweep only removes jobs whose [end_time] is
    set.  Its entry stays in the registry, unchanged, for ever. *)
Theorem abandoned_job_is_frozen (w w' : world) (job_id : string)
    (job : ScrapingJobState) :
  steps w w' →
  job_id ∈ used w → job_id ∉ active w →
  _jobs (svc w) !! job_id = Some job → end_time job = None →
  _jobs (svc w') !! job_id = Some job ∧ (job_id ∉ active w').
Proof.
  intros Hsteps Hused Hout Hjob Hend.
  destruct (frozen_steps w w' job_id job Hsteps Hused Hout Hjob Hend) as (_ & ? & ?).
  done.
Qed.

(** Lost slots.  Such a job keeps the status [running] and so keeps
    counting against the cap on concurrent jobs: once as many workers
    have died in that way as the cap allows, every later submission is
    refused with [RateLimitExceeded], whatever the clock reads. *)
Theorem abandoned_jobs_block_submissions (w w' : world) (ids : gset string)
    (clk : StartClock) (job_id search_query : string) (total_results : Z)
    (output_file : string) (append_mode fast_append : bool) :
  steps w w' →
  (∀ id, id ∈ ids →
     id ∈ used w ∧ (id ∉ active w)
     ∧ ∃ job, _jobs (svc w) !! id = Some job
              ∧ status job = "running" ∧ end_time job = None) →
  _max_concurrent_jobs (svc w) ≤ Z.of_nat (size ids) →
  ∃ msg svc',
    start_job clk job_id search_query total_results output_file append_mode
      fast_append (svc w') = (inl (Py.RateLimitExceeded msg), svc').
Proof.
  intros Hsteps Hids Hcap.
  destruct (start_job clk job_id search_query total_results output_file append_mode
              fast_append (svc w')) as [[e|state] svc'] eqn:Hstart.
  - apply start_job_rejected in Hstart as (_ & _ & _ & msg & ->). eauto.
  - exfalso. apply start_job_accepted in Hstart as (_ & _ & _ & _ & Hroom).
    pose proof (steps_settings w w' Hsteps) as (_ & _ & _ & _ & Hsame).
    assert (Z.of_nat (size ids)
            ≤ _current_running_jobs_locked
                (_cleanup_finished_jobs_locked (t_cleanup clk) (svc w'))) as Hrun.
    { apply running_at_least. intros id Hin.
      destruct (Hids id Hin) as (Hused & Hout & job & Hjob & Hrunning & Hend).
      destruct (frozen_steps w w' id job Hsteps Hused Hout Hjob Hend) as (_ & _ & Hjob').
      exists job. split; [|done]. by apply cleanup_keeps_unfinished. }
    lia.
Qed.

End abandoned.

Lemma crashed_world_steps : Exec.steps Scenario.crashed_world Scenario.crashed_world_later.
Proof.
  apply rtc_once.
  apply (Exec.step_start_rejected Scenario.crashed_world (Scenario.clock_at 1000) "job-2"
           "tea rooms" 10 "tea.csv" false false
           (Py.RateLimitExceeded "Maximum concurrent scraping jobs in progress")).
  - repeat split; discriminate.
  - vm_compute. reflexivity.
Qed.

Lemma job_1_left_crashed_world : "job-1" ∉ Exec.active Scenario.crashed_world.
Proof.
  intros Hin. apply elem_of_difference in Hin as [_ Hout].
  apply Hout, elem_of_singleton. reflexivity.
Qed.

Lemma abandoned_job_is_frozen_witness :
  JobService._jobs (Exec.svc Scenario.crashed_world_later) !! "job-1"
  = Some Scenario.fresh_job.
Proof.
  apply (abandoned_job_is_frozen Scenario.crashed_world Scenario.crashed_world_later
           "job-1" Scenario.fresh_job).
  - apply crashed_world_steps.
  - apply elem_of_union_l, elem_of_singleton. reflexivity.
  - apply job_1_left_crashed_world.
  - vm_compute. reflexivity.
  - reflexivity.
Defined.

Lemma abandoned_jobs_block_submissions_witness :
  ∃ msg svc',
    JobService.start_job (Scenario.clock_at 100000) "job-3" "bakeries" 10 "bakeries.csv"
      false false (Exec.svc Scenario.crashed_world_later)
    = (inl (Py.RateLimitExceeded msg), svc').
Proof.
  apply (abandoned_jobs_block_submissions Scenario.crashed_world
           Scenario.crashed_world_later {["job-1"]}).
  - apply crashed_world_steps.
  - intros id Hid. apply elem_of_singleton in Hid as ->. split_and!.
    + apply elem_of_union_l, elem_of_singleton. reflexivity.
    + apply job_1_left_crashed_world.
    + exists Scenario.fresh_job. split_and!; [vm_compute| |]; reflexivity.
  - rewrite size_singleton. reflexivity.
Defined.

Section invariants.
Import JobService Exec.
Implicit Types (svc : JobService) (job : ScrapingJobState).

(** A property of job states that holds of a freshly created state and
    is kept by every handler holds of every job of every reachable
    registry. *)
Lemma reachable_jobs (P : string → ScrapingJobState → Prop) init t0 w :
  (∀ job_id job, _jobs init !! job_id = Some job → P job_id job) →
  (∀ job_id search_query total_results output_file append_mode fast_append
     t_created t_update,
     P job_id (mkJob job_id search_query total_results output_file append_mode
                 fast_append "running" 0%Q 0 None t_created None 0%Q None 0%Q
                 (Some t_update) [] [])) →
  (∀ job_id window now c job, P job_id job → P job_id (callback_update window now c job)) →
  (∀ job_id finished now result job,
     P job_id job → P job_id (finish_update finished now result job)) →
  reachable init t0 w →
  ∀ job_id job, _jobs (svc w) !! job_id = Some job → P job_id job.
Proof.
  intros Hinit Hnew Hcall Hfin. induction 1 as [|w w' _ IH Hstep]; [done|].
  intros id' job' Hlook.
  destruct Hstep as [w clk id q n o a f state svc' Hclk Hfresh Hstart
                    |w clk id q n o a f e svc' Hclk Hstart
                    |w now id c Hclk Hact
                    |w clk id result Hclk Hact
                    |w id e Hact]; cbn in *.
  - apply start_job_accepted in Hstart as (Hstate & Hjobs & _).
    rewrite Hjobs in Hlook. destruct (decide (id' = id)) as [->|Hne].
    + rewrite lookup_insert_eq in Hlook. injection Hlook as <-. rewrite Hstate. apply Hnew.
    + rewrite lookup_insert_ne in Hlook by done.
      apply cleanup_lookup in Hlook. by apply IH.
  - apply start_job_rejected in Hstart as (Hjobs & _).
    rewrite Hjobs in Hlook. apply cleanup_lookup in Hlook. by apply IH.
  - destruct (decide (id' = id)) as [->|Hne].
    + destruct (_jobs (svc w) !! id) as [job|] eqn:Hjob.
      * rewrite (deliver_same _ _ _ _ _ Hjob) in Hlook. injection Hlook as <-.
        by apply Hcall, IH.
      * rewrite (deliver_absent _ _ _ _ Hjob) in Hlook. cbn in Hlook. congruence.
    + rewrite deliver_other in Hlook by done. by apply IH.
  - apply finish_lookup in Hlook
      as [[Hne Hlook]|[[Hnone Hlook]|(-> & job & Hlook & ->)]]; [by apply IH..|].
    by apply Hfin, IH.
  - by apply IH.
Qed.

(** The fields that only [_update_metrics_locked] writes, and the preview
    buffer, which only a record batch writes. *)
Lemma prune_keeps window job :
  throughput_per_minute (_prune_progress_samples_locked window job)
    = throughput_per_minute job
  ∧ eta_seconds (_prune_progress_samples_locked window job) = eta_seconds job
  ∧ recent_records (_prune_progress_samples_locked window job) = recent_records job
  ∧ error_message (_prune_progress_samples_locked window job) = error_message job
  ∧ job_id (_prune_progress_samples_locked window job) = job_id job.
Proof.
  unfold _prune_progress_samples_locked. destruct (last _); by destruct job.
Qed.

Lemma progress_update_keeps window now payload job :
  throughput_per_minute (progress_update window now payload job)
    = throughput_per_minute job
  ∧ eta_seconds (progress_update window now payload job) = eta_seconds job
  ∧ recent_records (progress_update window now payload job) = recent_records job
  ∧ job_id (progress_update window now payload job) = job_id job.
Proof.
  unfold progress_update.
  match goal with
  | |- context [_prune_progress_samples_locked ?w ?j] =>
      destruct (prune_keeps w j) as (-> & -> & -> & _ & ->)
  end.
  destruct job, payload as [? ? err st ?]; cbn.
  destruct (truthy err), (truthy st); cbn; try done;
    by destruct (bool_decide _).
Qed.

Lemma update_metrics_keeps job :
  recent_records (_update_metrics_locked job) = recent_records job
  ∧ job_id (_update_metrics_locked job) = job_id job
  ∧ progress (_update_metrics_locked job) = progress job
  ∧ elapsed_seconds (_update_metrics_locked job) = elapsed_seconds job
  ∧ start_time (_update_metrics_locked job) = start_time job.
Proof.
  unfold _update_metrics_locked.
  split_and!; repeat case_match; by destruct job.
Qed.

(** [_update_metrics_locked] never makes the figures negative. *)
Lemma update_metrics_nonneg job :
  ((0 <= throughput_per_minute job)%Q
   ∧ ∀ eta, eta_seconds job = Some eta → (0 <= eta)%Q) →
  (0 <= throughput_per_minute (_update_metrics_locked job))%Q
  ∧ ∀ eta, eta_seconds (_update_metrics_locked job) = Some eta → (0 <= eta)%Q.
Proof.
  intros Hjob. unfold _update_metrics_locked.
  destruct (_ <? _)%nat; [by destruct job|].
  destruct (head _) as [[first_ts first_count]|]; [|done].
  destruct (last _) as [[last_ts last_count]|]; [|done].
  destruct (Qle_bool (last_ts - first_ts) 0) eqn:Htime; [by destruct job|].
  destruct (Z.leb_spec (last_count - first_count) 0) as [|Hcount]; [by destruct job|].
  apply Qle_bool_false in Htime.
  pose proof (rate_positive _ _ Hcount Htime) as Hrate.
  cbn [orb].
  assert (Qltb 0 (inject_Z (last_count - first_count) / (last_ts - first_ts)) = true)
    as -> by by apply Qltb_true.
  destruct job; cbn. split; [lra|].
  intros eta [= <-].
  apply Qle_shift_div_l; [done|].
  match goal with
  | |- context [Z.max ?a 0] =>
      assert (0 <= inject_Z (Z.max a 0))%Q by (unfold Qle; simpl; lia)
  end.
  lra.
Qed.

Lemma callback_update_nonneg window now c job :
  ((0 <= throughput_per_minute job)%Q
   ∧ ∀ eta, eta_seconds job = Some eta → (0 <= eta)%Q) →
  (0 <= throughput_per_minute (callback_update window now c job))%Q
  ∧ ∀ eta, eta_seconds (callback_update window now c job) = Some eta → (0 <= eta)%Q.
Proof.
  intros Hjob. destruct c as [p|p|p]; simpl.
  - by destruct (progress_update_keeps window now p job) as (-> & -> & _).
  - unfold metrics_update. apply update_metrics_nonneg.
    by destruct (Runner.mp_elapsed_seconds p), job.
  - destruct (Runner.rp_records p); [done|].
    unfold record_batch_update.
    by destruct (Runner.rp_total_scraped p) as [[n|]|], job.
Qed.

Lemma finish_update_nonneg finished now result job :
  ((0 <= throughput_per_minute job)%Q
   ∧ ∀ eta, eta_seconds job = Some eta → (0 <= eta)%Q) →
  (0 <= throughput_per_minute (finish_update finished now result job))%Q
  ∧ ∀ eta, eta_seconds (finish_update finished now result job) = Some eta → (0 <= eta)%Q.
Proof.
  intros Hjob. unfold finish_update. apply update_metrics_nonneg.
  destruct job as [? ? ? ? ? ? ? ? ? ? ? ? ? ? ? lu ? ?], result as [ok el err]; cbn in *.
  destruct (_ || _), ok, err, lu; by cbn.
Qed.

(** Figures shown.  In every state that submissions, callbacks and
    completions can reach, the throughput of every registered job is not
    negative, and its ETA is undefined or not negative; the metrics
    events are built from these fields. *)
Theorem metrics_never_negative
    (rate_limit window cleanup_after metrics_window max_jobs : Z) (t0 : Q)
    (w : world) (job_id : string) (job : ScrapingJobState) :
  reachable (new rate_limit window cleanup_after metrics_window max_jobs) t0 w →
  _jobs (svc w) !! job_id = Some job →
  (0 <= throughput_per_minute job)%Q
  ∧ ∀ eta, eta_seconds job = Some eta → (0 <= eta)%Q.
Proof.
  intros Hreach. revert job_id job.
  apply (reachable_jobs
           (λ _ job, (0 <= throughput_per_minute job)%Q
                     ∧ ∀ eta, eta_seconds job = Some eta → (0 <= eta)%Q)
           (new rate_limit window cleanup_after metrics_window max_jobs) t0 w);
    [| | | |exact Hreach].
  - intros id job Hlook. cbn in Hlook. by rewrite lookup_empty in Hlook.
  - intros. cbn. split; [lra | done].
  - intros. by apply callback_update_nonneg.
  - intros. by apply finish_update_nonneg.
Qed.

Lemma callback_update_preview window now c job :
  (length (recent_records job) ≤ recent_records_maxlen)%nat →
  (length (recent_records (callback_update window now c job)) ≤ recent_records_maxlen)%nat.
Proof.
  intros Hlen. destruct c as [p|p|p]; simpl.
  - by destruct (progress_update_keeps window now p job) as (_ & _ & -> & _).
  - unfold metrics_update. destruct (update_metrics_keeps
      match Runner.mp_elapsed_seconds p with
      | Some elapsed => set_elapsed_seconds elapsed job
      | None => set_elapsed_seconds (now - start_time job)%Q job
      end) as (-> & _).
    by destruct (Runner.mp_elapsed_seconds p), job.
  - destruct (Runner.rp_records p) as [|r rs] eqn:Hrs; [done|].
    unfold record_batch_update. rewrite Hrs.
    assert (recent_records job
            = drop (length (recent_records job) - recent_records_maxlen)
                (recent_records job)) as Hd.
    { replace (length (recent_records job) - recent_records_maxlen)%nat with 0%nat by lia.
      done. }
    pose proof (deque_extend_drop recent_records_maxlen (r :: rs) (recent_records job))
      as Hext.
    rewrite <- Hd in Hext.
    assert (length (fold_left (λ d x, deque_append recent_records_maxlen x d)
                      (r :: rs) (recent_records job)) ≤ recent_records_maxlen)%nat as Hle.
    { rewrite Hext, length_drop. lia. }
    destruct (Runner.rp_total_scraped p) as [[n|]|]; destruct job; exact Hle.
Qed.

(** Preview bound.  In every reachable state the preview buffer of
    every registered job holds at most 25 records, and the job is
    registered under the id it carries (the id that its events carry). *)
Theorem preview_buffer_bounded
    (rate_limit window cleanup_after metrics_window max_jobs : Z) (t0 : Q)
    (w : world) (job_id : string) (job : ScrapingJobState) :
  reachable (new rate_limit window cleanup_after metrics_window max_jobs) t0 w →
  _jobs (svc w) !! job_id = Some job →
  (length (recent_records job) ≤ 25)%nat
  ∧ JobService.job_id job = job_id.
Proof.
  intros Hreach. revert job_id job.
  apply (reachable_jobs
           (λ id job, (length (recent_records job) ≤ 25)%nat ∧ JobService.job_id job = id)
           (new rate_limit window cleanup_after metrics_window max_jobs) t0 w);
    [| | | |exact Hreach].
  - intros id job Hlook. cbn in Hlook. by rewrite lookup_empty in Hlook.
  - intros. cbn. split; [lia | done].
  - intros id win now c job [Hlen Hid]. split; [by apply callback_update_preview|].
    rewrite <- Hid. destruct c as [p|p|p]; simpl.
    + apply progress_update_keeps.
    + unfold metrics_update.
      match goal with
      | |- context [_update_metrics_locked ?j] =>
          destruct (update_metrics_keeps j) as (_ & -> & _)
      end.
      by destruct (Runner.mp_elapsed_seconds p), job.
    + destruct (Runner.rp_records p); [done|]. unfold record_batch_update.
      by destruct (Runner.rp_total_scraped p) as [[n|]|], job.
  - intros id finished now result job [Hlen Hid]. unfold finish_update.
    match goal with
    | |- context [_update_metrics_locked ?j] =>
        destruct (update_metrics_keeps j) as (-> & -> & _)
    end.
    destruct job as [? ? ? ? ? ? ? ? ? ? ? ? ? ? ? lu ? ?], result as [ok el err]; cbn in *.
    destruct (_ || _), ok, err, lu; by cbn.
Qed.

End invariants.

Lemma metrics_never_negative_witness :
  from_option (λ job, Qle_bool 0 (JobService.throughput_per_minute job)) false
    (JobService._jobs (Exec.svc Scenario.world3) !! "job-1") = true.
Proof.
  destruct (JobService._jobs (Exec.svc Scenario.world3) !! "job-1") as [job|] eqn:E;
    [|vm_compute in E; discriminate].
  simpl. apply Qle_bool_iff.
  exact (proj1 (metrics_never_negative 2 60 900 180 2 0 Scenario.world3 "job-1" job
                  world3_reachable E)).
Defined.

Lemma preview_buffer_bounded_witness :
  from_option (λ job, bool_decide (length (JobService.recent_records job) ≤ 25)%nat) false
    (JobService._jobs (Exec.svc Scenario.world3) !! "job-1") = true.
Proof.
  destruct (JobService._jobs (Exec.svc Scenario.world3) !! "job-1") as [job|] eqn:E;
    [|vm_compute in E; discriminate].
  simpl. apply bool_decide_eq_true.
  exact (proj1 (preview_buffer_bounded 2 60 900 180 2 0 Scenario.world3 "job-1" job
                  world3_reachable E)).
Defined.

Section queue.
Import JobService Exec.
Implicit Types (svc : JobService) (job : ScrapingJobState).

Lemma drop_expired_length now window starts :
  (length (drop_expired now window starts) ≤ length starts)%nat.
Proof.
  destruct (drop_expired_split now window starts) as (dropped & Hsplit & _).
  rewrite Hsplit at 2. rewrite length_app. lia.
Qed.

Lemma queue_bounded_step w w' :
  step w w' →
  Z.of_nat (length (_job_starts (svc w))) ≤ Z.max 0 (_rate_limit (svc w)) →
  Z.of_nat (length (_job_starts (svc w'))) ≤ Z.max 0 (_rate_limit (svc w')).
Proof.
  intros Hstep Hle. pose proof (step_settings w w' Hstep) as (<- & _).
  destruct Hstep as [w clk id q n o a f state svc' Hclk Hfresh Hstart
                    |w clk id q n o a f e svc' Hclk Hstart
                    |w now id c Hclk Hact
                    |w clk id result Hclk Hact
                    |w id e Hact]; cbn.
  - apply start_job_accepted in Hstart as (_ & _ & -> & Hroom & _).
    rewrite length_app. simpl. lia.
  - apply start_job_rejected in Hstart as (_ & -> & _).
    pose proof (drop_expired_length (t_check clk) (_rate_limit_window (svc w))
                  (_job_starts (svc w))). lia.
  - by rewrite deliver_job_starts.
  - pose proof (finish_job_starts clk id result (svc w)) as Hq. cbn in Hq.
    by rewrite Hq.
  - done.
Qed.

(** Rate-limit queue.  The queue of submission times never holds more
    entries than the rate limit: it grows by one on an accepted
    submission only, and only while it is shorter than the limit. *)
Theorem submission_queue_bounded
    (rate_limit window cleanup_after metrics_window max_jobs : Z) (t0 : Q)
    (w : world) :
  reachable (new rate_limit window cleanup_after metrics_window max_jobs) t0 w →
  Z.of_nat (length (_job_starts (svc w))) ≤ Z.max 0 rate_limit.
Proof.
  intros Hreach.
  assert (_rate_limit (svc w) = rate_limit
          ∧ Z.of_nat (length (_job_starts (svc w))) ≤ Z.max 0 (_rate_limit (svc w)))
    as [Hrl Hle].
  { induction Hreach as [|w w' _ [IHrl IH] Hstep]; [cbn; lia|].
    pose proof (step_settings w w' Hstep) as (Hsame & _).
    split; [congruence | by apply (queue_bounded_step w w')]. }
  by rewrite <- Hrl.
Qed.

(** Rejected submissions.  A submission refused by [start_job] raises
    [RateLimitExceeded]; it registers no job and adds no entry to the
    rate-limit queue, so it does not count against later submissions.
    The housekeeping that precedes the checks is kept: finished jobs past
    retention are swept and expired queue entries dropped. *)
Theorem rejected_submission_leaves_no_trace (clk : StartClock)
    (job_id search_query : string) (total_results : Z) (output_file : string)
    (append_mode fast_append : bool) (svc svc' : JobService) (e : Py.exn) :
  start_job clk job_id search_query total_results output_file append_mode
    fast_append svc = (inl e, svc') →
  (∃ msg, e = Py.RateLimitExceeded msg)
  ∧ _jobs svc' = _jobs (_cleanup_finished_jobs_locked (t_cleanup clk) svc)
  ∧ (∀ id job, _jobs svc' !! id = Some job → _jobs svc !! id = Some job)
  ∧ _job_starts svc' `suffix_of` _job_starts svc.
Proof.
  intros Hstart. apply start_job_rejected in Hstart as (Hjobs & Hstarts & _ & Hmsg).
  split_and!; [done | done | |].
  - intros id job. rewrite Hjobs. apply cleanup_lookup.
  - rewrite Hstarts.
    destruct (drop_expired_split (t_check clk) (_rate_limit_window svc) (_job_starts svc))
      as (dropped & Hsplit & _).
    exists dropped. done.
Qed.

End queue.

Lemma submission_queue_bounded_witness :
  Z.of_nat (length (JobService._job_starts (Exec.svc Scenario.world3))) ≤ 2.
Proof.
  exact (submission_queue_bounded 2 60 900 180 2 0 Scenario.world3 world3_reachable).
Defined.

Lemma rejected_submission_leaves_no_trace_witness :
  let out :=
    JobService.start_job (Scenario.clock_at 1) "job-rate-2" "coffee" 5 "file2.csv"
      false false (Exec.svc Scenario.strict_world1) in
  JobService._jobs out.2 !! "job-rate-2" = None
  ∧ JobService._job_starts out.2 `suffix_of` JobService._job_starts (Exec.svc Scenario.strict_world1).
Proof.
  cbv zeta.
  destruct (JobService.start_job (Scenario.clock_at 1) "job-rate-2" "coffee" 5
              "file2.csv" false false (Exec.svc Scenario.strict_world1))
    as [[e|state] svc'] eqn:E; [|vm_compute in E; discriminate].
  destruct (rejected_submission_leaves_no_trace _ _ _ _ _ _ _ _ _ _ E)
    as (_ & _ & Hold & Hqueue). cbn [snd]. split; [|exact Hqueue].
  destruct (JobService._jobs svc' !! "job-rate-2") as [job|] eqn:Hjob; [|reflexivity].
  apply Hold in Hjob. vm_compute in Hjob. discriminate.
Defined.

Section samples.
Import JobService Exec.
Implicit Types (svc : JobService) (job : ScrapingJobState).

Lemma drop_older_split cutoff samples :
  ∃ dropped,
    samples = dropped ++ drop_older cutoff samples
    ∧ Forall (λ s, (s.1 < cutoff)%Q) dropped
    ∧ ∀ s, head (drop_older cutoff samples) = Some s → (cutoff <= s.1)%Q.
Proof.
  induction samples as [|first rest (dropped & Hsplit & Hall & Hhead)].
  { exists []. by split_and!. }
  simpl. destruct (Qltb first.1 cutoff) eqn:E.
  - apply Qltb_true in E. exists (first :: dropped).
    split_and!; [simpl; congruence | by constructor | done].
  - apply Qltb_false in E. exists []. split_and!; [done | done |].
    by intros s [= <-].
Qed.

Lemma drop_older_last cutoff samples s :
  last samples = Some s → (cutoff <= s.1)%Q → last (drop_older cutoff samples) = Some s.
Proof.
  intros Hlast Hs. induction samples as [|first rest IH]; [done|].
  simpl. destruct (Qltb first.1 cutoff) eqn:E; [|done].
  destruct rest as [|second rest].
  - simpl in Hlast. injection Hlast as ->. apply Qltb_true in E. lra.
  - apply IH. by rewrite last_cons_cons in Hlast.
Qed.

(** Sample window.  A progress callback appends the sample (timestamp,
    count) and then drops samples from the front of the buffer while
    they are older than the metrics window, measured back from the
    sample just appended.  With a window that is not negative the new
    sample is always kept (so the buffer is never empty afterwards), the
    samples dropped are a prefix all older than the window, and the
    oldest sample kept lies within the window. *)
Theorem progress_samples_window (window : Z) (now : Q)
    (payload : Runner.ProgressPayload) (job : ScrapingJobState) :
  0 ≤ window →
  let ts := default now (Runner.pp_timestamp payload) in
  let sample := (ts, default (result_count job) (Runner.pp_current payload)) in
  let kept := progress_samples (progress_update window now payload job) in
  last kept = Some sample
  ∧ last_update (progress_update window now payload job) = Some ts
  ∧ (∃ dropped,
       progress_samples job ++ [sample] = dropped ++ kept
       ∧ Forall (λ s, (s.1 < ts - inject_Z window)%Q) dropped)
  ∧ (∀ s, head kept = Some s → (ts - inject_Z window <= s.1)%Q).
Proof.
  intros Hwin ts sample kept.
  assert (kept = drop_older (ts - inject_Z window) (progress_samples job ++ [sample])
          ∧ last_update (progress_update window now payload job) = Some ts) as [Hkept Hupd].
  { subst kept sample ts. unfold progress_update, _prune_progress_samples_locked.
    destruct job as [? ? ? ? ? ? st ? count ? ? ? ? ? ? ? samples ?],
             payload as [pr cur err pst pts]; cbn.
    destruct (truthy err), (truthy pst); cbn;
      try destruct (bool_decide (st = "pending")); cbn;
      rewrite last_snoc; cbn; done. }
  rewrite Hkept, Hupd.
  assert (0 <= inject_Z window)%Q as Hq by (unfold Qle; simpl; lia).
  destruct (drop_older_split (ts - inject_Z window) (progress_samples job ++ [sample]))
    as (dropped & Hsplit & Hall & Hhead).
  split_and!; [| done | by exists dropped | done].
  apply drop_older_last; [apply last_snoc | simpl; lra].
Qed.

End samples.

Lemma progress_samples_window_witness :
  last (JobService.progress_samples
          (JobService.progress_update 180 0 (Scenario.progress_of 100 1200)
             Scenario.job_two_samples))
  = Some (1200%Q, 100).
Proof.
  pose proof (progress_samples_window 180 0 (Scenario.progress_of 100 1200)
                Scenario.job_two_samples ltac:(lia)) as H.
  cbv zeta in H. destruct H as (Hlast & _). exact Hlast.
Defined.

Section reconciliation.
Import JobService Exec.
Implicit Types (svc : JobService) (job : ScrapingJobState).

Lemma finish_update_fields finished now result job :
  error_message (finish_update finished now result job)
    = match Runner.success result, Runner.error result with
      | false, Some e => Some (str_of_exn e)
      | _, _ => error_message job
      end
  ∧ elapsed_seconds (finish_update finished now result job)
    = (finished - start_time job)%Q
  ∧ result_count (finish_update finished now result job) = result_count job
  ∧ progress (finish_update finished now result job) = progress job
  ∧ last_update (finish_update finished now result job)
    = Some (default now (last_update job)).
Proof.
  unfold finish_update.
  rewrite update_metrics_error_message, update_metrics_result_count.
  match goal with
  | |- context [_update_metrics_locked ?j] =>
      destruct (update_metrics_keeps j) as (_ & _ & -> & -> & _)
  end.
  assert (∀ j, last_update (_update_metrics_locked j) = last_update j) as ->.
  { intros j. unfold _update_metrics_locked. repeat case_match; by destruct j. }
  destruct job as [? ? ? ? ? ? ? ? ? ? ? ? ? ? ? lu ? ?], result as [ok el err]; cbn.
  destruct (_ || _), ok, err, lu; by cbn.
Qed.

(** Terminal reconciliation.  When the runner of a registered job
    returns, the registry stamps [end_time] and the elapsed time, keeps a
    status [failed] or [interrupted] that a callback has set (even when
    the runner reports success) and otherwise sets [completed] or
    [failed] by the runner's success flag; the error message becomes the
    text of the runner's error when the run failed with one and is kept
    otherwise (a successful return does not clear it); [result_count] and
    [progress] are left as the callbacks set them (success does not move
    the progress to 100).  The two final events are built from that
    state. *)
Theorem terminal_reconciliation (clk : FinishClock) (state : ScrapingJobState)
    (result : Runner.ScraperRunResult) (svc : JobService)
    (job : ScrapingJobState) :
  _jobs svc !! job_id state = Some job →
  ∃ job',
    (finish clk state result svc).2
      = [_build_progress_payload_locked (t_now clk) job';
         _build_metrics_payload_locked job']
    ∧ (∀ kept, _jobs (finish clk state result svc).1 !! job_id state = Some kept →
         kept = job')
    ∧ end_time job' = Some (t_finished clk)
    ∧ elapsed_seconds job' = (t_finished clk - start_time job)%Q
    ∧ status job'
      = (if bool_decide (status job = "interrupted") || bool_decide (status job = "failed")
         then status job
         else if Runner.success result then "completed" else "failed")
    ∧ error_message job'
      = match Runner.success result, Runner.error result with
        | false, Some e => Some (str_of_exn e)
        | _, _ => error_message job
        end
    ∧ result_count job' = result_count job
    ∧ progress job' = progress job.
Proof.
  intros Hjob. exists (finish_update (t_finished clk) (t_now clk) result job).
  destruct (finish_update_fields (t_finished clk) (t_now clk) result job)
    as (Herr & Hel & Hcount & Hprog & _).
  split_and!; try done.
  - by rewrite (finish_present clk state result svc job Hjob).
  - intros kept Hkept.
    apply finish_lookup in Hkept as [[Hne _]|[[Hnone _]|(_ & job0 & Hjob0 & ->)]];
      [done | congruence | congruence].
  - apply finish_update_end_time.
  - apply finish_update_status.
Qed.

(** What a callback does to the error message: only a progress payload
    with a non-empty [error_message] assigns it. *)
Lemma callback_update_error_message window now c job :
  error_message (callback_update window now c job)
  = match c with
    | Runner.OnProgress payload =>
        match truthy (Runner.pp_error_message payload) with
        | Some new => Some new
        | None => error_message job
        end
    | _ => error_message job
    end.
Proof.
  destruct c as [p|p|p]; simpl.
  - unfold progress_update.
    match goal with
    | |- context [_prune_progress_samples_locked ?w ?j] =>
        destruct (prune_keeps w j) as (_ & _ & _ & -> & _)
    end.
    destruct job, p as [? ? err st ?]; cbn in *.
    destruct (truthy err), (truthy st); cbn; try done;
      by destruct (bool_decide _).
  - unfold metrics_update. rewrite update_metrics_error_message.
    by destruct (Runner.mp_elapsed_seconds p), job.
  - destruct (Runner.rp_records p); [done|]. unfold record_batch_update.
    by destruct (Runner.rp_total_scraped p) as [[n|]|], job.
Qed.

(** Error messages stay.  Once a job carries an error message, no
    callback and no completion of its worker resets it to none.  A
    progress payload replaces it exactly when it brings a non-empty
    message of its own, a missing or empty one leaves it; metrics and
    record callbacks leave it.  The completion of the worker replaces it
    by the text of the runner's error, which may be the empty string,
    exactly when the run failed with an error, and keeps it otherwise,
    also when the run ends in success. *)
Theorem error_message_never_cleared (svc : JobService) (state : ScrapingJobState)
    (job : ScrapingJobState) (message : string) :
  _jobs svc !! job_id state = Some job →
  error_message job = Some message →
  (∀ now c job',
     _jobs (deliver now (job_id state) c svc).1 !! job_id state = Some job' →
     match c with
     | Runner.OnProgress payload =>
         match Runner.pp_error_message payload with
         | Some new => error_message job' = Some (if bool_decide (new = "") then message else new)
         | None => error_message job' = Some message
         end
     | _ => error_message job' = Some message
     end)
  ∧ (∀ clk result job',
     _jobs (finish clk state result svc).1 !! job_id state = Some job' →
     error_message job'
     = match Runner.success result, Runner.error result with
       | false, Some e => Some (str_of_exn e)
       | _, _ => Some message
       end).
Proof.
  intros Hjob Herr. split.
  - intros now c job'. rewrite (deliver_same _ _ _ _ _ Hjob). intros [= <-].
    rewrite callback_update_error_message, Herr.
    destruct c as [p|p|p]; [|done..].
    destruct (Runner.pp_error_message p) as [[|a new]|]; done.
  - intros clk result job' Hlook.
    apply finish_lookup in Hlook as [[Hne _]|[[Hnone _]|(_ & job0 & Hjob0 & ->)]];
      [done | congruence |].
    assert (job0 = job) as -> by congruence.
    destruct (finish_update_fields (t_finished clk) (t_now clk) result job) as (-> & _).
    rewrite Herr. by destruct (Runner.success result), (Runner.error result).
Qed.

End reconciliation.

Lemma terminal_reconciliation_witness :
  ∃ job',
    (JobService.finish (JobService.mkFinishClock 6 6 6) Scenario.fresh_job
       (Runner.mkResult true 6 None) Scenario.one_job).2
    = [JobService._build_progress_payload_locked 6 job';
       JobService._build_metrics_payload_locked job']
    ∧ JobService.status job' = "completed"
    ∧ JobService.progress job' = 0%Q.
Proof.
  destruct (terminal_reconciliation (JobService.mkFinishClock 6 6 6) Scenario.fresh_job
              (Runner.mkResult true 6 None) Scenario.one_job Scenario.fresh_job
              ltac:(vm_compute; reflexivity))
    as (job' & Hev & _ & _ & _ & Hstatus & _ & _ & Hprogress).
  exists job'. split_and!; [exact Hev | exact Hstatus | exact Hprogress].
Defined.

Lemma error_message_never_cleared_witness :
  (JobService.error_message
     <$> JobService._jobs
           (JobService.deliver 7 "job-1" (Runner.OnProgress (Scenario.progress_of 3 7))
              (Exec.svc Scenario.world2)).1 !! "job-1")
  = Some (Some "browser crashed")
  ∧ (JobService.error_message
       <$> JobService._jobs
             (JobService.finish (JobService.mkFinishClock 6 6 6) Scenario.fresh_job
                (Runner.mkResult false 6 (Some Py.KeyError))
                (Exec.svc Scenario.world2)).1 !! "job-1")
    = Some (Some "").
Proof.
  destruct (error_message_never_cleared (Exec.svc Scenario.world2) Scenario.fresh_job
              (JobService.mkJob "job-1" "coffee shops" 100 "results.csv" false false
                 "failed" 0 0 (Some "browser crashed") 0 None 0 None 0 (Some 5%Q)
                 [(5%Q, 0)] [])
              "browser crashed" ltac:(vm_compute; reflexivity) eq_refl) as [Hcall Hfin].
  split.
  - destruct (JobService._jobs _ !! "job-1") as [job'|] eqn:E;
      [|vm_compute in E; discriminate].
    simpl. f_equal.
    exact (Hcall 7%Q (Runner.OnProgress (Scenario.progress_of 3 7)) job' E).
  - destruct (JobService._jobs _ !! "job-1") as [job'|] eqn:E;
      [|vm_compute in E; discriminate].
    simpl. f_equal.
    exact (Hfin (JobService.mkFinishClock 6 6 6)
             (Runner.mkResult false 6 (Some Py.KeyError)) job' E).
Defined.

(** ** The checkpoint store *)

Section checkpoints.
Import Main.
Implicit Types (fs : FS).

(** Checkpoint round trip.  [load_cache] returns the record that
    [save_cache] last wrote under the same fingerprint, as long as the
    output file named in the record exists, and leaves the store as it
    is.  The record is found by fingerprint alone: the stored query and
    output file are not compared with the ones asked for, so every pair
    with the same fingerprint gets it. *)
Theorem checkpoint_round_trip (fs : FS) (search_query output_file : string)
    (total_target scraped_count last_scraped_index : Z) (now : string)
    (search_query' output_file' : string) :
  path_exists fs output_file = true →
  generate_cache_id search_query' output_file'
    = generate_cache_id search_query output_file →
  let saved := save_cache fs search_query output_file total_target scraped_count
                 last_scraped_index now in
  saved.1 = generate_cache_id search_query output_file
  ∧ files saved.2 = files fs
  ∧ load_cache saved.2 search_query' output_file'
    = (Some (mkScrapingCache search_query output_file total_target scraped_count
               last_scraped_index now (generate_cache_id search_query output_file)),
       saved.2).
Proof.
  intros Hex Hid saved. subst saved.
  split_and!; [done | done | by apply load_after_save].
Qed.

(** Orphaned checkpoints.  When the output file named in a checkpoint
    no longer exists, [load_cache] returns nothing and deletes the
    checkpoint file, and nothing else; the next call finds no
    checkpoint. *)
Theorem load_cache_drops_orphan (fs : FS) (search_query output_file : string)
    (cache : ScrapingCache) :
  cache_files fs !! generate_cache_id search_query output_file = Some (Some cache) →
  path_exists fs (Main.output_file cache) = false →
  let loaded := load_cache fs search_query output_file in
  loaded.1 = None
  ∧ files loaded.2 = files fs
  ∧ cache_files loaded.2
    = delete (generate_cache_id search_query output_file) (cache_files fs)
  ∧ load_cache loaded.2 search_query output_file = (None, loaded.2).
Proof.
  intros Hcache Hgone loaded. subst loaded. unfold load_cache.
  rewrite Hcache, Hgone. cbn. by rewrite lookup_delete_eq.
Qed.

(** Clearing.  After [clear_cache] no checkpoint is found for the pair;
    the checkpoints stored under other fingerprints and the output files
    are untouched, and clearing again changes nothing. *)
Theorem clear_cache_forgets (fs : FS) (search_query output_file : string) :
  load_cache (clear_cache fs search_query output_file) search_query output_file
    = (None, clear_cache fs search_query output_file)
  ∧ files (clear_cache fs search_query output_file) = files fs
  ∧ (∀ cache_id, cache_id ≠ generate_cache_id search_query output_file →
       cache_files (clear_cache fs search_query output_file) !! cache_id
       = cache_files fs !! cache_id)
  ∧ clear_cache (clear_cache fs search_query output_file) search_query output_file
    = clear_cache fs search_query output_file.
Proof.
  unfold clear_cache, load_cache. cbn. split_and!.
  - by rewrite lookup_delete_eq.
  - done.
  - intros cache_id Hne. by rewrite lookup_delete_ne.
  - f_equal. apply delete_delete_eq.
Qed.

(** Resuming.  A checkpoint written by [save_cache] is picked up by the
    next [scrape_places] with the same query and output file: when the
    output file exists and holds at least as many records as the
    checkpoint says (counted by the fast counter in ultra-fast mode and by
    the line counter otherwise), the run starts at the listing after the
    last one recorded, in append mode, and returns at once when the
    recorded count has reached the new target. *)
Theorem resume_after_checkpoint (fs : FS) (search_query output_file : string)
    (total_target scraped_count last_scraped_index : Z) (now : string)
    (total : Z) (ultra_fast_append : bool) :
  path_exists fs output_file = true →
  let measured :=
    if ultra_fast_append then get_existing_data_count_lightning fs output_file
    else get_existing_data_count fs output_file in
  scraped_count ≤ measured →
  let saved := (save_cache fs search_query output_file total_target scraped_count
                  last_scraped_index now).2 in
  scrape_places_start saved search_query total output_file ultra_fast_append
  = (mkStart (last_scraped_index + 1) true measured (total <=? scraped_count), saved).
Proof.
  intros Hex measured Hcount saved. unfold scrape_places_start. subst saved.
  rewrite load_after_save by done.
  cbn [Main.scraped_count Main.last_scraped_index].
  assert ((if ultra_fast_append
           then get_existing_data_count_lightning
                  (save_cache fs search_query output_file total_target scraped_count
                     last_scraped_index now).2 output_file
           else get_existing_data_count
                  (save_cache fs search_query output_file total_target scraped_count
                     last_scraped_index now).2 output_file) = measured) as ->.
  { subst measured. by destruct ultra_fast_append. }
  destruct (Z.leb_spec scraped_count measured) as [_|]; [|lia].
  by destruct (total <=? scraped_count).
Qed.

End checkpoints.

Lemma checkpoint_round_trip_witness :
  (Main.load_cache
     (Main.save_cache Scenario.collision_disk "a_b" "c" 50 20 19 "2025-01-01T00:00:00").2
     "a" "b_c").1
  = Some (Main.mkScrapingCache "a_b" "c" 50 20 19 "2025-01-01T00:00:00"
            (Main.generate_cache_id "a_b" "c")).
Proof.
  pose proof (checkpoint_round_trip Scenario.collision_disk "a_b" "c" 50 20 19
                "2025-01-01T00:00:00" "a" "b_c" eq_refl
                ltac:(vm_compute; reflexivity)) as H.
  cbv zeta in H. destruct H as (_ & _ & Hload). by rewrite Hload.
Defined.

Lemma load_cache_drops_orphan_witness :
  let loaded := Main.load_cache Scenario.orphan_store "coffee shops" "results.csv" in
  loaded.1 = None
  ∧ Main.load_cache loaded.2 "coffee shops" "results.csv" = (None, loaded.2).
Proof.
  pose proof (load_cache_drops_orphan Scenario.orphan_store "coffee shops" "results.csv"
                Scenario.checkpoint ltac:(apply lookup_insert_eq) eq_refl) as H.
  cbv zeta in *. destruct H as (Hnone & _ & _ & Hagain). split; [exact Hnone | exact Hagain].
Defined.

Lemma resume_after_checkpoint_witness :
  (Main.scrape_places_start Scenario.resumable_disk "coffee shops" 100 "results.csv"
     false).1
  = Main.mkStart 10 true 10 false.
Proof.
  pose proof (resume_after_checkpoint Scenario.disk "coffee shops" "results.csv" 100 10 9
                "2025-01-01T00:00:00" 100 false eq_refl) as H.
  cbv zeta in H. unfold Scenario.resumable_disk. rewrite H; [reflexivity|].
  vm_compute. discriminate.
Defined.

Section counting.
Import Main.
Implicit Types (fs : FS) (line rest eol : string).

Lemma one_line_cons c line :
  Text.one_line (String c line) = true →
  bool_decide (c = Text.newline) = false
  ∧ bool_decide (c = Text.carriage_return) = false
  ∧ Text.one_line line = true.
Proof.
  simpl. rewrite !andb_true_iff, !negb_true_iff. tauto.
Qed.

Lemma count_lines_text_line line eol rest pending :
  Text.one_line line = true → eol = Text.lf ∨ eol = Text.crlf →
  Text.count_lines_text (line +:+ eol +:+ rest) pending
  = 1 + Text.count_lines_text rest false.
Proof.
  intros Hline Heol. revert pending.
  induction line as [|c line IH]; intros pending.
  - destruct Heol as [-> | ->]; reflexivity.
  - apply one_line_cons in Hline as (Hn & Hr & Hline).
    simpl. rewrite Hn, Hr. by apply IH.
Qed.

Lemma count_lines_binary_line line eol rest pending :
  Text.one_line line = true → eol = Text.lf ∨ eol = Text.crlf →
  Text.count_lines_binary (line +:+ eol +:+ rest) pending
  = 1 + Text.count_lines_binary rest false.
Proof.
  intros Hline Heol. revert pending.
  induction line as [|c line IH]; intros pending.
  - destruct Heol as [-> | ->]; reflexivity.
  - apply one_line_cons in Hline as (Hn & Hr & Hline).
    simpl. rewrite Hn. by apply IH.
Qed.

Lemma first_line_line line eol rest :
  Text.one_line line = true → eol = Text.lf ∨ eol = Text.crlf →
  Text.first_line (line +:+ eol +:+ rest) = line.
Proof.
  intros Hline Heol. induction line as [|c line IH].
  - destruct Heol as [-> | ->]; reflexivity.
  - apply one_line_cons in Hline as (Hn & Hr & Hline).
    simpl. rewrite Hn, Hr. simpl. f_equal. by apply IH.
Qed.

Lemma count_lines_text_unlines eol lines :
  forallb Text.one_line lines = true → eol = Text.lf ∨ eol = Text.crlf →
  Text.count_lines_text (Text.unlines eol lines) false = Z.of_nat (length lines).
Proof.
  intros Hlines Heol. induction lines as [|line lines IH]; [done|].
  simpl in Hlines. apply andb_true_iff in Hlines as [Hline Hlines].
  cbn [Text.unlines length]. rewrite count_lines_text_line by done.
  rewrite IH by done. lia.
Qed.

Lemma count_lines_binary_unlines eol lines :
  forallb Text.one_line lines = true → eol = Text.lf ∨ eol = Text.crlf →
  Text.count_lines_binary (Text.unlines eol lines) false = Z.of_nat (length lines).
Proof.
  intros Hlines Heol. induction lines as [|line lines IH]; [done|].
  simpl in Hlines. apply andb_true_iff in Hlines as [Hline Hlines].
  cbn [Text.unlines length]. rewrite count_lines_binary_line by done.
  rewrite IH by done. lia.
Qed.

(** Counting records.  For a readable file of valid UTF-8 that consists
    of a first line and any number of record lines, each ended by ["\n"]
    or each by ["\r\n"] and none with a line break inside:
    [get_existing_data_count] returns the number of record lines when
    the first line contains [name] (in any letter case) and one more
    when it does not, the first line then being counted as a record;
    [get_existing_data_count_lightning], on a file of at most 1 MiB,
    returns the number of record lines in both cases, since it always
    takes one line off.  So the two counters agree exactly on files
    whose first line is recognised as a header.  On a file that is not
    valid UTF-8 [get_existing_data_count] returns 0, whatever it holds,
    while the lightning counter, which reads bytes, still counts. *)
Theorem record_count_of_written_file (fs : FS) (path : string) (f : file)
    (eol header : string) (rows : list string) :
  files fs !! path = Some f →
  readable f = true →
  eol = Text.lf ∨ eol = Text.crlf →
  forallb Text.one_line (header :: rows) = true →
  content f = Text.unlines eol (header :: rows) →
  get_existing_data_count fs path
    = (if Text.utf8_valid (content f) then
         Z.of_nat (length rows)
         + (if Text.startswith "name," (Text.strip header)
               || Text.contains "name" (Text.lower (Text.strip header))
            then 0 else 1)
       else 0)
  ∧ (Text.len (content f) ≤ 1024 * 1024 →
     get_existing_data_count_lightning fs path = Z.of_nat (length rows)).
Proof.
  intros Hfile Hread Heol Hlines Hcontent.
  pose proof Hlines as Hall. simpl in Hlines.
  apply andb_true_iff in Hlines as [Hheader Hrows].
  unfold get_existing_data_count, get_existing_data_count_lightning, open_file.
  rewrite Hfile, Hread, Hcontent. split.
  - destruct (Text.utf8_valid _); [|done].
    rewrite count_lines_text_unlines by done.
    cbn [Text.unlines]. rewrite first_line_line by done.
    cbn [length]. destruct (_ || _); lia.
  - rewrite <- Hcontent. intros Hsmall.
    destruct (Z.eqb_spec (Text.len (content f)) 0) as [Hempty|_].
    { exfalso. rewrite Hcontent in Hempty. unfold Text.len in Hempty.
      cbn [Text.unlines] in Hempty.
      destruct header; destruct Heol as [-> | ->]; discriminate Hempty. }
    destruct (Z.ltb_spec (1024 * 1024) (Text.len (content f))) as [|_]; [lia|].
    rewrite Hcontent, count_lines_binary_unlines by done.
    cbn [length]. lia.
Qed.

End counting.

Lemma record_count_of_written_file_witness :
  Main.get_existing_data_count Scenario.disk "results.csv" = 10
  ∧ Main.get_existing_data_count_lightning Scenario.disk "results.csv" = 10
  ∧ Main.get_existing_data_count Scenario.latin1_disk "results.csv" = 0
  ∧ Main.get_existing_data_count_lightning Scenario.latin1_disk "results.csv" = 1.
Proof.
  destruct (record_count_of_written_file Scenario.disk "results.csv"
              (Main.mkFile Scenario.ten_records true) Text.lf "name,address"
              ["Cafe 1,1 Main St"; "Cafe 2,2 Main St"; "Cafe 3,3 Main St";
               "Cafe 4,4 Main St"; "Cafe 5,5 Main St"; "Cafe 6,6 Main St";
               "Cafe 7,7 Main St"; "Cafe 8,8 Main St"; "Cafe 9,9 Main St";
               "Cafe 10,10 Main St"]
              ltac:(vm_compute; reflexivity) eq_refl ltac:(by left) eq_refl eq_refl)
    as [Htext Hfast].
  destruct (record_count_of_written_file Scenario.latin1_disk "results.csv"
              (Main.mkFile (Text.unlines Text.lf ["name,address"; Scenario.latin1_record])
                 true)
              Text.lf "name,address" [Scenario.latin1_record]
              ltac:(vm_compute; reflexivity) eq_refl ltac:(by left) eq_refl eq_refl)
    as [Htext' Hfast'].
  split_and!.
  - exact Htext.
  - apply Hfast. vm_compute. discriminate.
  - exact Htext'.
  - apply Hfast'. vm_compute. discriminate.
Defined.

(** ** The caches of the duplicate check *)

Section duplicate_caches.
Import App.

(** Clearing the caches.  [clear_duplicate_check_caches] empties the
    fingerprint cache, and so does [optimize_duplicate_check_caches]
    whenever the clock reads more than 3600 (its entries carry no
    timestamp and count as written at time 0); neither touches the
    consolidated verdict cache, so a verdict memoized there is still
    returned afterwards, without a scan of the file. *)
Theorem clearing_keeps_memoized_verdicts (fs : Main.FS) (st : Caches)
    (business_type : string) (areas : list string) (output_file : string)
    (e : entry) (now : Q) :
  Main.path_exists fs output_file = true →
  0 < Main.getsize fs output_file →
  LRU.od_get (cache_key output_file (Main.getsize fs output_file) business_type)
    (LRU.cache (_duplicate_cache st)) = Some e →
  _content_hash_cache (clear_duplicate_check_caches st) = ∅
  ∧ ((3600 < now)%Q → _content_hash_cache (optimize_duplicate_check_caches now st) = ∅)
  ∧ (∀ st', st' = clear_duplicate_check_caches st
            ∨ st' = optimize_duplicate_check_caches now st →
       (check_duplicate_file fs st' business_type areas output_file).1
         = (is_duplicate e, Some (count e))
       ∧ scans (check_duplicate_file fs st' business_type areas output_file).2
         = scans st).
Proof.
  intros Hex Hsize Hhit. split_and!.
  - done.
  - intros Hnow. unfold optimize_duplicate_check_caches. cbn.
    apply map_empty. intros k. apply map_lookup_filter_None. right.
    intros v _. simpl. rewrite negb_false_iff. intros Hle.
    apply Qle_bool_iff in Hle. lra.
  - intros st' [-> | ->].
    + destruct (check_duplicate_file_hit fs (clear_duplicate_check_caches st)
                  business_type areas output_file e Hex Hsize Hhit) as (lru & -> & _).
      done.
    + destruct (check_duplicate_file_hit fs (optimize_duplicate_check_caches now st)
                  business_type areas output_file e Hex Hsize Hhit) as (lru & -> & _).
      done.
Qed.

(** Stale verdicts.  The memoized verdict is found by path, size and
    business type only: after the file has been rewritten with other
    content of the same size, the check still returns the verdict
    computed for the old content, and does not look at the file. *)
Theorem same_size_rewrite_goes_unnoticed (fs fs' : Main.FS) (st : Caches)
    (business_type : string) (areas areas' : list string) (output_file : string) :
  (0 < LRU.max_size (_duplicate_cache st))%Z →
  is_Some (Main.open_file fs output_file) →
  0 < Main.getsize fs output_file →
  Main.path_exists fs' output_file = true →
  Main.getsize fs' output_file = Main.getsize fs output_file →
  let first := check_duplicate_file fs st business_type areas output_file in
  let second := check_duplicate_file fs' first.2 business_type areas' output_file in
  second.1 = first.1 ∧ scans second.2 = scans first.2.
Proof.
  intros Hpos Hopen Hsize Hex' Hsame first second. subst second first.
  destruct (check_duplicate_file_caches fs st business_type areas output_file
              Hpos Hopen Hsize) as (e & st' & -> & Hm & Hget).
  cbn [fst snd]. rewrite <- Hsame in Hget, Hsize.
  destruct (check_duplicate_file_hit fs' st' business_type areas' output_file e
              Hex' Hsize Hget) as (lru & -> & _ & _).
  done.
Qed.

End duplicate_caches.

Lemma clearing_keeps_memoized_verdicts_witness :
  let st := (App.check_duplicate_file Scenario.disk App.initial "Cafe" [] "results.csv").2 in
  (App.check_duplicate_file Scenario.disk (App.clear_duplicate_check_caches st)
     "Cafe" [] "results.csv").1 = (false, Some 11)
  ∧ App.scans (App.check_duplicate_file Scenario.disk (App.clear_duplicate_check_caches st)
                 "Cafe" [] "results.csv").2 = 1%nat.
Proof.
  cbv zeta.
  destruct (clearing_keeps_memoized_verdicts Scenario.disk
              (App.check_duplicate_file Scenario.disk App.initial "Cafe" [] "results.csv").2
              "Cafe" [] "results.csv" (App.mkEntry false 11) 0
              eq_refl eq_refl ltac:(vm_compute; reflexivity)) as (_ & _ & Hstill).
  destruct (Hstill _ (or_introl eq_refl)) as [Hverdict Hscans].
  split; [exact Hverdict | exact Hscans].
Defined.

Lemma same_size_rewrite_goes_unnoticed_witness :
  let first :=
    App.check_duplicate_file Scenario.disk App.initial "Cafe" [] "results.csv" in
  let second :=
    App.check_duplicate_file Scenario.rewritten_disk first.2 "Cafe" [] "results.csv" in
  second.1 = first.1 ∧ App.scans second.2 = App.scans first.2.
Proof.
  apply (same_size_rewrite_goes_unnoticed Scenario.disk Scenario.rewritten_disk
           App.initial "Cafe" [] [] "results.csv").
  - reflexivity.
  - vm_compute. eexists. reflexivity.
  - reflexivity.
  - reflexivity.
  - reflexivity.
Defined.

(** ** The route that starts a job *)

Section route.
Import Web.

(** What the call of [start_job] at the end of the route leaves. *)
Lemma submit_outcome clk job_id search_query total_results output_file
    append_mode fast_append svc :
  match JobService.start_job clk job_id search_query total_results output_file
          append_mode fast_append svc with
  | (inl e, svc') =>
      (∀ id job, JobService._jobs svc' !! id = Some job →
                 JobService._jobs svc !! id = Some job)
      ∧ JobService._job_starts svc' `suffix_of` JobService._job_starts svc
  | (inr state, svc') =>
      JobService._jobs svc' !! job_id
      = Some (JobService.mkJob job_id search_query total_results output_file
                append_mode fast_append "running" 0%Q 0 None (JobService.t_created clk)
                None 0%Q None 0%Q (Some (JobService.t_update clk)) [] [])
  end.
Proof.
  destruct (JobService.start_job clk job_id search_query total_results output_file
              append_mode fast_append svc) as [[e|state] svc'] eqn:Hstart.
  - apply start_job_rejected in Hstart as (Hjobs & Hstarts & _). split.
    + intros id job. rewrite Hjobs. apply cleanup_lookup.
    + rewrite Hstarts.
      destruct (drop_expired_split (JobService.t_check clk)
                  (JobService._rate_limit_window svc) (JobService._job_starts svc))
        as (dropped & Hsplit & _).
      by exists dropped.
  - apply start_job_accepted in Hstart as (-> & -> & _).
    by rewrite lookup_insert_eq.
Qed.

Lemma submit_registers clk job_id q total o app fast append flashes fs1 caches svc :
  1 ≤ total → q ≠ "" →
  (app = true ∨ fast = true → append = true) →
  let out :=
    match JobService.start_job clk job_id q total o append fast svc with
    | (inl _, svc') =>
        (mkResponse (flashes ++ ["error"]) to_index, mkState fs1 caches svc')
    | (inr _, svc') =>
        (mkResponse flashes (to_monitor job_id), mkState fs1 caches svc')
    end in
  match redirect out.1 with
  | to_monitor id =>
      id = job_id
      ∧ ∃ total' job,
          Some total = Some total' ∧ 1 ≤ total' ∧ q ≠ ""
          ∧ JobService.get_job job_id (job_service out.2) = inr job
          ∧ JobService.status job = "running"
          ∧ JobService.search_query job = q
          ∧ JobService.total_results job = total'
          ∧ JobService.output_file job = o
          ∧ JobService.fast_append job = fast
          ∧ (fast = true → JobService.append_mode job = true)
          ∧ (app = true → JobService.append_mode job = true)
  | to_index =>
      (∀ id job, JobService._jobs (job_service out.2) !! id = Some job →
                 JobService._jobs svc !! id = Some job)
      ∧ JobService._job_starts (job_service out.2) `suffix_of` JobService._job_starts svc
  end.
Proof.
  intros Hpos Hq Happend.
  pose proof (submit_outcome clk job_id q total o append fast svc) as H.
  destruct (JobService.start_job _ _ _ _ _ _ _ _) as [[e|state] svc']; cbn; [done|].
  split; [done|]. eexists total, _. unfold JobService.get_job. rewrite H.
  split_and!; try done; cbn; intros; apply Happend; tauto.
Qed.

(** The route.  A request is redirected to the monitor page only after
    [start_job] has accepted it, and then the job registered under the
    new id is running and carries the stripped query, a target of at
    least 1 and the stripped output file of the form, in append mode
    whenever the form asked for append or fast append; a request with a
    total that is not a number, an empty query or a total below 1, one
    stopped by the duplicate check and one refused by [start_job] are
    redirected to the index page, and none of them registers a job or
    adds to the rate-limit queue. *)
Theorem start_scraping_registers (now : Q) (clk : JobService.StartClock)
    (job_id : string) (form : Form) (st : state) :
  let out := start_scraping now clk job_id form st in
  match redirect out.1 with
  | to_monitor id =>
      id = job_id
      ∧ ∃ total job,
          total_results form = Some total ∧ 1 ≤ total
          ∧ Text.strip (search_query form) ≠ ""
          ∧ JobService.get_job job_id (job_service out.2) = inr job
          ∧ JobService.status job = "running"
          ∧ JobService.search_query job = Text.strip (search_query form)
          ∧ JobService.total_results job = total
          ∧ JobService.output_file job = Text.strip (output_file form)
          ∧ JobService.fast_append job = fast_append form
          ∧ (fast_append form = true → JobService.append_mode job = true)
          ∧ (append_mode form = true → JobService.append_mode job = true)
  | to_index =>
      (∀ id job, JobService._jobs (job_service out.2) !! id = Some job →
                 JobService._jobs (job_service st) !! id = Some job)
      ∧ JobService._job_starts (job_service out.2)
          `suffix_of` JobService._job_starts (job_service st)
  end.
Proof.
  intros out. subst out. unfold start_scraping.
  destruct form as [q [total|] o app fast];
    cbn [search_query total_results output_file append_mode fast_append]; [|by cbn].
  destruct (bool_decide (Text.strip q = "")) eqn:Hq; [by cbn|].
  apply bool_decide_eq_false in Hq.
  destruct (Z.ltb_spec total 1) as [|Hpos]; [by cbn|].
  destruct (Main.load_cache _ _ _) as [cache fs1].
  assert (bool_decide (is_Some (@None Main.ScrapingCache)) = false) as Hnone
    by (apply bool_decide_eq_false; by intros [? ?]).
  destruct cache as [cache|]; [destruct (Main.scraped_count cache <=? _)|];
    destruct app, fast; rewrite ?Hnone; cbn [negb andb];
    try (apply (submit_registers clk job_id (Text.strip q) total (Text.strip o)
                  true true); (done || tauto));
    try (apply (submit_registers clk job_id (Text.strip q) total (Text.strip o)
                  true false); (done || tauto));
    try (apply (submit_registers clk job_id (Text.strip q) total (Text.strip o)
                  false true); (done || tauto));
    try (apply (submit_registers clk job_id (Text.strip q) total (Text.strip o)
                  false false); (done || intros [|]; done));
    destruct (App.check_duplicate_file _ _ _ _ _) as [[[] cnt] caches']; [by cbn| |by cbn|];
    apply (submit_registers clk job_id (Text.strip q) total (Text.strip o)
             false false); (done || intros [|]; done).
Qed.

End route.

Section route_resume.
Import Web.

(** Resuming from the route.  For a valid request whose checkpoint is
    found: when the output file holds at least as many records as the
    checkpoint says (counted by the fast counter if fast append is
    ticked), the request is treated as a resume: the duplicate check is
    not run, the checkpoint stays, and a job that starts runs in append
    mode whatever the form said; otherwise the checkpoint is deleted
    before anything else happens, so that the run starts afresh. *)
Theorem start_scraping_resumes (now : Q) (clk : JobService.StartClock)
    (job_id : string) (form : Form) (st : state) (total : Z)
    (cache : Main.ScrapingCache) :
  total_results form = Some total → 1 ≤ total →
  Text.strip (search_query form) ≠ "" →
  let query := Text.strip (search_query form) in
  let path := Text.strip (output_file form) in
  Main.load_cache (fs st) query path = (Some cache, fs st) →
  let measured :=
    if fast_append form then Main.get_existing_data_count_lightning (fs st) path
    else Main.get_existing_data_count (fs st) path in
  let out := start_scraping now clk job_id form st in
  if Main.scraped_count cache <=? measured then
    fs out.2 = fs st
    ∧ caches out.2 = App.optimize_duplicate_check_caches now (caches st)
    ∧ head (flashed out.1) = Some "info"
    ∧ (redirect out.1 = to_monitor job_id →
       JobService.append_mode <$> JobService._jobs (job_service out.2) !! job_id
       = Some true)
  else
    fs out.2 = Main.clear_cache (fs st) query path
    ∧ Main.load_cache (fs out.2) query path = (None, fs out.2).
Proof.
  intros Htotal Hpos Hq query path Hload measured out.
  subst out. unfold start_scraping. rewrite Htotal.
  destruct (bool_decide (Text.strip (search_query form) = "")) eqn:Hqb;
    [by apply bool_decide_eq_true in Hqb|].
  destruct (Z.ltb_spec total 1) as [|_]; [lia|].
  fold query path. rewrite Hload. fold measured.
  destruct (Main.scraped_count cache <=? measured).
  - assert (bool_decide (is_Some (Some cache)) = true) as ->
      by (apply bool_decide_eq_true; eauto).
    cbn [negb andb].
    pose proof (submit_outcome clk job_id query total path true (fast_append form)
                  (job_service st)) as H.
    destruct (fast_append form);
      destruct (JobService.start_job _ _ _ _ _ _ _ _) as [[e|state] svc'];
      cbn; split_and!; try done; by rewrite H.
  - assert (∀ out : response * state,
              fs out.2 = Main.clear_cache (fs st) query path →
              fs out.2 = Main.clear_cache (fs st) query path
              ∧ Main.load_cache (fs out.2) query path = (None, fs out.2)) as Hcleared.
    { intros out ->. split; [done|].
      unfold Main.load_cache, Main.clear_cache. cbn. by rewrite lookup_delete_eq. }
    apply Hcleared.
    destruct (negb (append_mode form) && negb (fast_append form) && _).
    + destruct (App.check_duplicate_file _ _ _ _ _) as [[[] cnt] caches']; [done|].
      by destruct (JobService.start_job _ _ _ _ _ _ _ _) as [[e|state] svc'].
    + destruct (fast_append form);
        by destruct (JobService.start_job _ _ _ _ _ _ _ _) as [[e|state] svc'].
Qed.

End route_resume.

Lemma start_scraping_resumes_witness :
  let out :=
    Web.start_scraping 5000 (Scenario.clock_at 5000) "job-9" Scenario.resume_form
      Scenario.web_state in
  Web.fs out.2 = Scenario.resumable_disk
  ∧ head (Web.flashed out.1) = Some "info".
Proof.
  pose proof (start_scraping_resumes 5000 (Scenario.clock_at 5000) "job-9"
                Scenario.resume_form Scenario.web_state 100 Scenario.resumable_checkpoint
                eq_refl ltac:(lia) ltac:(vm_compute; discriminate)
                ltac:(vm_compute; reflexivity)) as H.
  cbv zeta in H.
  assert ((Main.scraped_count Scenario.resumable_checkpoint <=?
           (if Web.fast_append Scenario.resume_form
            then Main.get_existing_data_count_lightning (Web.fs Scenario.web_state)
                   (Text.strip (Web.output_file Scenario.resume_form))
            else Main.get_existing_data_count (Web.fs Scenario.web_state)
                   (Text.strip (Web.output_file Scenario.resume_form)))) = true) as Hok
    by (vm_compute; reflexivity).
  rewrite Hok in H. destruct H as (Hfs & _ & Hflash & _).
  split; [exact Hfs | exact Hflash].
Defined.

(** ** Naive timestamps and the time zone *)

Section retention.
Import JobService.
Implicit Types (svc : JobService) (job : ScrapingJobState).

(** Retention and the time zone.  [_run_job] stamps [end_time] with the
    naive [datetime.utcnow()], and the sweep compares
    [end_time.timestamp()], which reads the naive value as local time,
    with [time.time() - cleanup_after_seconds].  On a machine whose local
    time is [utc_offset] seconds ahead of UTC a job that finishes when
    the clock reads [now] is therefore kept for
    [cleanup_after_seconds - utc_offset] seconds: the sweep at the end of
    its own [_run_job] already removes it when the offset exceeds the
    retention time (with the default of 900 seconds, in every zone more
    than a quarter of an hour east of UTC), and a sweep at a later clock
    reading keeps it exactly as long as [later - now + utc_offset] has
    not passed the retention time; west of UTC the job outlives the
    retention time by the offset. *)
Theorem retention_depends_on_utc_offset (utc_offset now later : Q)
    (state job : ScrapingJobState) (result : Runner.ScraperRunResult) (svc : JobService) :
  _jobs svc !! job_id state = Some job →
  let clk := mkFinishClock (utcnow_timestamp utc_offset now) now now in
  let swept := (finish clk state result svc).1 in
  (is_Some (_jobs swept !! job_id state)
     ↔ (utc_offset <= inject_Z (_cleanup_after_seconds svc))%Q)
  ∧ (is_Some (_jobs (_cleanup_finished_jobs_locked later swept) !! job_id state)
     ↔ (utc_offset <= inject_Z (_cleanup_after_seconds svc))%Q
       ∧ (later - now + utc_offset <= inject_Z (_cleanup_after_seconds svc))%Q).
Proof.
  intros Hjob clk swept. subst swept.
  rewrite (finish_present clk state result svc job Hjob). cbn [fst].
  set (job' := finish_update (t_finished clk) (t_now clk) result job).
  assert (end_time job' = Some (now - utc_offset)%Q) as Hend
    by apply finish_update_end_time.
  set (svc1 := set_jobs (<[job_id state := job']> (_jobs svc)) svc).
  assert (_jobs svc1 !! job_id state = Some job') as Hin
    by (cbn; apply lookup_insert_eq).
  assert (is_Some (_jobs (_cleanup_finished_jobs_locked now svc1) !! job_id state)
          ↔ (utc_offset <= inject_Z (_cleanup_after_seconds svc))%Q) as Hfirst.
  { split.
    - intros [kept Hkept]. apply cleanup_lookup_iff in Hkept as [Hkept Hrecent].
      assert (kept = job') as -> by congruence.
      specialize (Hrecent _ Hend). cbn in Hrecent. lra.
    - intros Hle. exists job'. apply cleanup_lookup_iff. split; [done|].
      intros t Ht. rewrite Hend in Ht. injection Ht as <-. cbn. lra. }
  split; [exact Hfirst|]. cbn [t_sweep clk]. split.
  - intros [kept Hkept]. apply cleanup_lookup_iff in Hkept as [Hkept Hrecent].
    pose proof Hkept as Hkept'. apply cleanup_lookup_iff in Hkept' as [Hkept' _].
    assert (kept = job') as -> by congruence.
    split; [apply Hfirst; eauto|].
    specialize (Hrecent _ Hend). cbn in Hrecent. lra.
  - intros [Hle Hlater]. exists job'. apply cleanup_lookup_iff. split.
    + apply cleanup_lookup_iff. split; [done|].
      intros t Ht. rewrite Hend in Ht. injection Ht as <-. cbn. lra.
    + intros t Ht. rewrite Hend in Ht. injection Ht as <-. cbn. lra.
Qed.

End retention.

Lemma retention_depends_on_utc_offset_witness :
  JobService.get_job "job-1"
    (JobService.finish
       (JobService.mkFinishClock (JobService.utcnow_timestamp 19800 6) 6 6)
       Scenario.fresh_job (Runner.mkResult true 6 None) Scenario.one_job).1
  = inl (Py.JobNotFound "job-1")
  ∧ is_Some
      (JobService._jobs
         (JobService.finish
            (JobService.mkFinishClock (JobService.utcnow_timestamp 0 6) 6 6)
            Scenario.fresh_job (Runner.mkResult true 6 None) Scenario.one_job).1
       !! "job-1").
Proof.
  split.
  - destruct (retention_depends_on_utc_offset 19800 6 6 Scenario.fresh_job
                Scenario.fresh_job (Runner.mkResult true 6 None) Scenario.one_job
                ltac:(vm_compute; reflexivity)) as [Hgone _].
    unfold JobService.get_job.
    destruct (JobService._jobs _ !! "job-1") as [kept|] eqn:E; [|reflexivity].
    exfalso. assert (19800 <= inject_Z 900)%Q as Habsurd by (apply Hgone; eauto).
    vm_compute in Habsurd. by apply Habsurd.
  - destruct (retention_depends_on_utc_offset 0 6 6 Scenario.fresh_job
                Scenario.fresh_job (Runner.mkResult true 6 None) Scenario.one_job
                ltac:(vm_compute; reflexivity)) as [Hkept _].
    apply Hkept. vm_compute. discriminate.
Defined.

Section elapsed.
Import JobService.
Implicit Types (job : ScrapingJobState).

(** Elapsed time and the time zone.  [start_time] is the naive
    [datetime.utcnow()] of the job's creation.  A metrics callback that
    brings no [elapsed_seconds] of its own computes
    [time.time() - job.start_time.timestamp()], which reads the naive
    value as local time: on a machine [utc_offset] seconds ahead of UTC
    the figure is the true elapsed time plus the offset, and west of UTC
    it is negative for as long as the job is younger than the offset.  A
    payload that carries [elapsed_seconds] is taken as it is.  The
    completion of the worker subtracts two naive values and gets the true
    elapsed time in every zone. *)
Theorem elapsed_seconds_and_utc_offset (utc_offset created now finished : Q)
    (job : ScrapingJobState) (payload : Runner.MetricsPayload)
    (result : Runner.ScraperRunResult) :
  start_time job = utcnow_timestamp utc_offset created →
  (elapsed_seconds (metrics_update now payload job)
   == match Runner.mp_elapsed_seconds payload with
      | Some elapsed => elapsed
      | None => now - created + utc_offset
      end)%Q
  ∧ (elapsed_seconds
       (finish_update (utcnow_timestamp utc_offset finished) finished result job)
     == finished - created)%Q
  ∧ start_time (metrics_update now payload job) = start_time job.
Proof.
  intros Hstart. split_and!.
  - unfold metrics_update.
    destruct (update_metrics_keeps
                match Runner.mp_elapsed_seconds payload with
                | Some elapsed => set_elapsed_seconds elapsed job
                | None => set_elapsed_seconds (now - start_time job)%Q job
                end) as (_ & _ & _ & -> & _).
    destruct (Runner.mp_elapsed_seconds payload) as [elapsed|]; cbn; [reflexivity|].
    rewrite Hstart. unfold utcnow_timestamp. lra.
  - destruct (finish_update_fields (utcnow_timestamp utc_offset finished) finished
                result job) as (_ & -> & _).
    rewrite Hstart. unfold utcnow_timestamp. lra.
  - unfold metrics_update.
    match goal with
    | |- context [_update_metrics_locked ?j] =>
        destruct (update_metrics_keeps j) as (_ & _ & _ & _ & ->)
    end.
    by destruct (Runner.mp_elapsed_seconds payload).
Qed.

End elapsed.

Lemma elapsed_seconds_and_utc_offset_witness :
  (JobService.elapsed_seconds
     (JobService.metrics_update 160 (Runner.mkMetrics None) Scenario.job_west)
   == - 17940)%Q
  ∧ (JobService.elapsed_seconds
       (JobService.finish_update (JobService.utcnow_timestamp (- 18000) 160) 160
          (Runner.mkResult true 60 None) Scenario.job_west)
     == 60)%Q.
Proof.
  destruct (elapsed_seconds_and_utc_offset (- 18000) 100 160 160 Scenario.job_west
              (Runner.mkMetrics None) (Runner.mkResult true 60 None)
              ltac:(vm_compute; reflexivity)) as (Hmetrics & Hfinish & _).
  split.
  - etrans; [exact Hmetrics|]. vm_compute. reflexivity.
  - etrans; [exact Hfinish|]. vm_compute. reflexivity.
Defined.

(** ** The writers, the loop over the listings and the command line *)

Section writers.
Import Main.
Implicit Types (fs : FS) (layout : Layout) (places : list Place).

Lemma string_app_cons (x : ascii) (a b : string) :
  String x a +:+ b = String x (a +:+ b).
Proof. reflexivity. Qed.

Lemma string_app_nil_l (a : string) : "" +:+ a = a.
Proof. reflexivity. Qed.

Lemma string_app_assoc (a b c : string) : (a +:+ b) +:+ c = a +:+ (b +:+ c).
Proof.
  induction a as [|x a IH]; [done|]. by rewrite !string_app_cons, IH.
Qed.

Lemma records_app render places places' :
  records render (places ++ places')
  = records render places +:+ records render places'.
Proof.
  induction places as [|p places IH]; simpl; [done|].
  by rewrite IH, string_app_assoc.
Qed.

Lemma file_text_congr fs fs' path :
  files fs = files fs' → file_text fs path = file_text fs' path.
Proof. unfold file_text. by intros ->. Qed.

Lemma path_exists_congr fs fs' path :
  files fs = files fs' → path_exists fs path = path_exists fs' path.
Proof. unfold path_exists. by intros ->. Qed.

Lemma append_text_congr fs fs' path text :
  files fs = files fs' →
  files (append_text fs path text) = files (append_text fs' path text).
Proof. unfold append_text, write_text, file_text. cbn. by intros ->. Qed.

Lemma file_text_save_cache fs search_query output_file total_target scraped_count
    last_scraped_index now path :
  file_text (save_cache fs search_query output_file total_target scraped_count
               last_scraped_index now).2 path = file_text fs path.
Proof. reflexivity. Qed.

Lemma path_exists_save_cache fs search_query output_file total_target scraped_count
    last_scraped_index now path :
  path_exists (save_cache fs search_query output_file total_target scraped_count
                 last_scraped_index now).2 path = path_exists fs path.
Proof. reflexivity. Qed.

Lemma file_text_write fs path text : file_text (write_text fs path text) path = text.
Proof. unfold file_text, write_text. cbn. by rewrite lookup_insert_eq. Qed.

Lemma file_text_append fs path text :
  file_text (append_text fs path text) path = file_text fs path +:+ text.
Proof. apply file_text_write. Qed.

Lemma path_exists_write fs path text : path_exists (write_text fs path text) path = true.
Proof.
  unfold path_exists, write_text. cbn. rewrite lookup_insert_eq.
  apply bool_decide_eq_true. eauto.
Qed.

Lemma path_exists_append fs path text : path_exists (append_text fs path text) path = true.
Proof. apply path_exists_write. Qed.

Lemma file_text_write_ne fs path path' text :
  path' ≠ path → file_text (write_text fs path text) path' = file_text fs path'.
Proof. intros Hne. unfold file_text, write_text. cbn. by rewrite lookup_insert_ne. Qed.

Lemma append_append fs path text text' :
  append_text (append_text fs path text) path text'
  = append_text fs path (text +:+ text').
Proof.
  unfold append_text. rewrite file_text_write.
  unfold write_text. cbn. rewrite lookup_insert_eq, insert_insert_eq. cbn.
  by rewrite string_app_assoc.
Qed.

Lemma write_missing fs path text :
  path_exists fs path = false → write_text fs path text = append_text fs path text.
Proof.
  intros Hmiss. unfold append_text, file_text.
  unfold path_exists in Hmiss. apply bool_decide_eq_false in Hmiss.
  destruct (files fs !! path) as [f|] eqn:E; [exfalso; eauto | done].
Qed.

(** The two writers that bypass pandas leave the same files; both add
    the header when the file is new and then the records. *)
Lemma fast_writers_append layout fs places output_path :
  places ≠ [] →
  save_places_to_csv_batch_optimized layout fs places output_path
  = append_text fs output_path
      ((if path_exists fs output_path then "" else csv_header layout)
       +:+ records (csv_record layout) places)
  ∧ save_places_to_csv_ultra_fast layout fs places output_path
    = append_text fs output_path
        ((if path_exists fs output_path then "" else csv_header layout)
         +:+ records (csv_record layout) places).
Proof.
  intros Hne. unfold save_places_to_csv_batch_optimized, save_places_to_csv_ultra_fast.
  destruct places as [|p places]; [done|].
  destruct (path_exists fs output_path) eqn:Hex; [done|]. split.
  - by apply write_missing.
  - rewrite (write_missing _ _ _ Hex). apply append_append.
Qed.

Lemma save_pending_appends layout ultra fs places output_path :
  places ≠ [] →
  save_pending layout ultra true fs places output_path
  = append_text fs output_path
      ((if path_exists fs output_path then "" else csv_header layout)
       +:+ records (csv_record layout) places).
Proof.
  intros Hne. unfold save_pending.
  destruct (fast_writers_append layout fs places output_path Hne) as [-> ->].
  by destruct ultra.
Qed.

End writers.

Section loop.
Import Main.
Context (layout : Layout) (now : Z → string) (search_for : string) (total : Z)
        (output_path : string) (ultra : bool) (start_index len_listings : Z).
Implicit Types (s : session) (listings : list listing) (flushed : list Place).

Lemma loop_writes_wider lo hi lo' hi' s s' flushed :
  lo' ≤ lo → hi ≤ hi' →
  loop_writes layout now search_for total output_path lo hi s s' flushed →
  loop_writes layout now search_for total output_path lo' hi' s s' flushed.
Proof.
  intros Hlo Hhi [?|(Hne & Hfs & last_idx & ? & ? & Hcache)]; [by left|].
  right. split_and!; [done | done |]. exists last_idx. split_and!; [lia | lia | done].
Qed.

Lemma loop_writes_same_state lo hi s1 s s' flushed :
  s_total_scraped s1 - Z.of_nat (length (s_places s1))
    = s_total_scraped s - Z.of_nat (length (s_places s)) →
  s_fs s1 = s_fs s →
  loop_writes layout now search_for total output_path lo hi s1 s' flushed →
  loop_writes layout now search_for total output_path lo hi s s' flushed.
Proof. unfold loop_writes. by intros -> ->. Qed.

(** One batch written at listing [at_idx], followed by a stretch that
    starts from the state the batch leaves. *)
Lemma loop_writes_after_batch lo hi at_idx s s' place scraped flushed :
  lo ≤ at_idx → at_idx < hi →
  loop_writes layout now search_for total output_path (at_idx + 1) hi
    (mkSession [] scraped (s_total_scraped s + 1) true
       (save_cache
          (save_pending layout ultra true (s_fs s) (s_places s ++ [place]) output_path)
          search_for output_path total (s_total_scraped s + 1) at_idx (now at_idx)).2)
    s' flushed →
  loop_writes layout now search_for total output_path lo hi s s'
    ((s_places s ++ [place]) ++ flushed).
Proof.
  intros Hlo Hhi Hrest.
  assert (s_places s ++ [place] ≠ []) as Hbatch
    by (intros Habs; by apply app_eq_nil in Habs as [_ ?]).
  rewrite save_pending_appends in Hrest by done.
  right. split; [intros Habs; by apply app_eq_nil in Habs as [? _]|].
  destruct Hrest as [[-> Hfs]|(Hne & Hfs & last_idx & Hfrom & Hto & Hcache)];
    cbn [s_fs s_places s_total_scraped save_cache snd files cache_files] in *.
  - rewrite app_nil_r, Hfs. cbn [files cache_files]. split; [done|].
    exists at_idx. split_and!; [done | done |].
    rewrite length_app. cbn [length]. do 3 f_equal; lia.
  - split.
    + rewrite Hfs.
      match goal with
      | |- files (append_text ?fs1 _ _) = _ =>
          rewrite (append_text_congr fs1
                     (append_text (s_fs s) output_path
                        ((if path_exists (s_fs s) output_path then ""
                          else csv_header layout)
                         +:+ records (csv_record layout) (s_places s ++ [place])))
                     output_path _ eq_refl);
          rewrite (path_exists_congr fs1
                     (append_text (s_fs s) output_path
                        ((if path_exists (s_fs s) output_path then ""
                          else csv_header layout)
                         +:+ records (csv_record layout) (s_places s ++ [place])))
                     output_path eq_refl)
      end.
      rewrite path_exists_append.
      by rewrite string_app_nil_l, append_append, string_app_assoc, <- records_app.
    + exists last_idx. split_and!; [lia | done |].
      rewrite Hcache, insert_insert_eq, !length_app. cbn [length].
      do 3 f_equal; lia.
Qed.

Lemma named_places_cons listing rest :
  named_places (listing :: rest)
  = match listing with
    | Loaded place =>
        if bool_decide (name place = "") then named_places rest
        else place :: named_places rest
    | _ => named_places rest
    end.
Proof.
  destruct listing as [place| |]; [|done..].
  unfold named_places. cbn. by destruct (bool_decide (name place = "")).
Qed.

Lemma named_places_app listings listings' :
  named_places (listings ++ listings') = named_places listings ++ named_places listings'.
Proof. apply omap_app. Qed.

(** A run of the loop that starts in append mode and is not interrupted:
    the places kept are written in order, the ones after the last write
    stay pending; the file grows by the header, if it is new, and the
    records written; the checkpoint of the last write counts them. *)
Lemma scrape_loop_runs listings idx s s' :
  s_is_append_mode s = true →
  scrape_loop layout now search_for total output_path ultra start_index len_listings
    idx listings s = inr s' →
  ∃ flushed,
    s_places s ++ named_places listings = flushed ++ s_places s'
    ∧ s_total_scraped s'
      = s_total_scraped s + Z.of_nat (length (named_places listings))
    ∧ s_scraped_in_session s'
      = s_scraped_in_session s + Z.of_nat (length (named_places listings))
    ∧ s_is_append_mode s' = true
    ∧ loop_writes layout now search_for total output_path (start_index + idx)
        (start_index + idx + Z.of_nat (length listings)) s s' flushed.
Proof.
  revert idx s. induction listings as [|listing rest IH]; intros idx s Happend Hloop.
  { injection Hloop as <-. exists []. rewrite app_nil_r. simpl.
    split_and!; [done | lia | lia | done | by left]. }
  assert (scrape_loop layout now search_for total output_path ultra start_index
            len_listings (idx + 1) rest s = inr s' →
          ∃ flushed,
            s_places s ++ named_places rest = flushed ++ s_places s'
            ∧ s_total_scraped s'
              = s_total_scraped s + Z.of_nat (length (named_places rest))
            ∧ s_scraped_in_session s'
              = s_scraped_in_session s + Z.of_nat (length (named_places rest))
            ∧ s_is_append_mode s' = true
            ∧ loop_writes layout now search_for total output_path (start_index + idx)
                (start_index + idx + Z.of_nat (length (listing :: rest))) s s' flushed)
    as Hskip.
  { intros Hloop1.
    destruct (IH (idx + 1) s Happend Hloop1)
      as (flushed & Hsplit & Htotal & Hcount & Hmode & Hfiles).
    exists flushed. split_and!; [done..|].
    eapply loop_writes_wider; [| |exact Hfiles]; cbn [length]; lia. }
  rewrite named_places_cons.
  destruct listing as [place| |]; cbn [scrape_loop] in Hloop; [| |done].
  - (* a listing that loads *)
    destruct (bool_decide (name place = "")) eqn:Hname; [by apply Hskip|].
    destruct (((s_scraped_in_session s + 1) `mod` 10 =? 0)
              || (start_index + idx =? len_listings - 1)).
    + rewrite Happend in Hloop.
      apply IH in Hloop as (flushed & Hsplit & Htotal & Hcount & Hmode & Hfiles);
        [|done].
      cbn [s_places s_total_scraped s_scraped_in_session] in *.
      exists ((s_places s ++ [place]) ++ flushed). split_and!.
      * rewrite <- !app_assoc. cbn. by rewrite <- Hsplit.
      * cbn [length]. lia.
      * cbn [length]. lia.
      * done.
      * apply (loop_writes_after_batch _ _ (start_index + idx) _ _ _
                 (s_scraped_in_session s + 1)); [lia | cbn [length]; lia |].
        eapply loop_writes_wider; [| |exact Hfiles]; cbn [length]; lia.
    + apply IH in Hloop as (flushed & Hsplit & Htotal & Hcount & Hmode & Hfiles);
        [|done].
      cbn [s_places s_total_scraped s_scraped_in_session s_fs] in *.
      exists flushed. split_and!.
      * by rewrite <- Hsplit, <- app_assoc.
      * cbn [length]. lia.
      * cbn [length]. lia.
      * done.
      * apply (loop_writes_same_state _ _
                 (mkSession (s_places s ++ [place]) (s_scraped_in_session s + 1)
                    (s_total_scraped s + 1) (s_is_append_mode s) (s_fs s)));
          [cbn; rewrite length_app; cbn [length]; lia | done |].
        eapply loop_writes_wider; [| |exact Hfiles]; cbn [length]; lia.
  - (* a listing that is skipped *)
    by apply Hskip.
Qed.

End loop.

Section loop_shape.
Import Main.
Context (layout : Layout) (now : Z → string) (search_for : string) (total : Z)
        (output_path : string) (ultra : bool) (start_index len_listings : Z).
Implicit Types (s : session) (listings pre post : list listing).

Lemma scrape_loop_app pre post idx s :
  scrape_loop layout now search_for total output_path ultra start_index len_listings
    idx (pre ++ post) s
  = match scrape_loop layout now search_for total output_path ultra start_index
            len_listings idx pre s with
    | inl returned => inl returned
    | inr s1 =>
        scrape_loop layout now search_for total output_path ultra start_index
          len_listings (idx + Z.of_nat (length pre)) post s1
    end.
Proof.
  revert idx s. induction pre as [|listing pre IH]; intros idx s.
  { cbn. by rewrite Z.add_0_r. }
  assert (∀ s1,
            scrape_loop layout now search_for total output_path ultra start_index
              len_listings (idx + 1) (pre ++ post) s1
            = match scrape_loop layout now search_for total output_path ultra
                      start_index len_listings (idx + 1) pre s1 with
              | inl returned => inl returned
              | inr s2 =>
                  scrape_loop layout now search_for total output_path ultra start_index
                    len_listings (idx + Z.of_nat (length (listing :: pre))) post s2
              end) as Hnext.
  { intros s1. rewrite IH. cbn [length].
    replace (idx + 1 + Z.of_nat (length pre)) with (idx + Z.of_nat (S (length pre)))
      by lia. done. }
  destruct listing as [place| |]; cbn [scrape_loop app]; [| apply Hnext | done].
  destruct (bool_decide (name place = "")); [apply Hnext|].
  destruct (_ || _); apply Hnext.
Qed.

(** Without an interrupt the loop runs to its end. *)
Lemma scrape_loop_ends listings idx s :
  Interrupted ∉ listings →
  ∃ s',
    scrape_loop layout now search_for total output_path ultra start_index len_listings
      idx listings s = inr s'
    ∧ (s_is_append_mode s = true → s_is_append_mode s' = true)
    ∧ s_scraped_in_session s'
      = s_scraped_in_session s + Z.of_nat (length (named_places listings)).
Proof.
  revert idx s. induction listings as [|listing rest IH]; intros idx s Hnone.
  { exists s. cbn. split_and!; [done | done | lia]. }
  apply not_elem_of_cons in Hnone as [Hhead Hrest].
  rewrite named_places_cons.
  destruct listing as [place| |]; cbn [scrape_loop]; [| by apply IH | done].
  destruct (bool_decide (name place = "")); [by apply IH|].
  destruct (_ || _).
  - destruct (IH (idx + 1)
                (mkSession [] (s_scraped_in_session s + 1) (s_total_scraped s + 1) true
                   (save_cache
                      (save_pending layout ultra (s_is_append_mode s) (s_fs s)
                         (s_places s ++ [place]) output_path)
                      search_for output_path total (s_total_scraped s + 1)
                      (start_index + idx) (now (start_index + idx))).2) Hrest)
      as (s' & -> & Hmode & Hcount).
    exists s'. cbn [s_scraped_in_session s_is_append_mode length] in *.
    split_and!; [done | by intros _; apply Hmode | lia].
  - destruct (IH (idx + 1)
                (mkSession (s_places s ++ [place]) (s_scraped_in_session s + 1)
                   (s_total_scraped s + 1) (s_is_append_mode s) (s_fs s)) Hrest)
      as (s' & -> & Hmode & Hcount).
    exists s'. cbn [s_scraped_in_session s_is_append_mode length] in *.
    split_and!; [done | done | lia].
Qed.

End loop_shape.

(** End-of-list write.  Take a run of the loop that is not interrupted
    and whose last listing yields a place with a name.  In a session that
    starts at index 0 that listing always triggers a write and a
    checkpoint, so the loop ends with nothing pending.  In a resumed
    session (start index above 0) the test
    [actual_idx == len(listings) - 1] compares the index in the full list
    with the length of the shortened list and fails at the last listing:
    the loop ends with nothing pending only if the number of places
    scraped in the session is a multiple of ten; otherwise the places
    since the last write are left to the caller, and no checkpoint
    covers them. *)
Theorem end_of_list_write (layout : Main.Layout) (now : Z → string)
    (search_for : string) (total : Z) (output_path : string) (ultra : bool)
    (start_index : Z) (pre : list Main.listing) (place : Main.Place)
    (s : Main.session) :
  Main.Interrupted ∉ pre →
  Main.name place ≠ "" →
  ∃ s',
    Main.scrape_loop layout now search_for total output_path ultra start_index
      (Z.of_nat (length (pre ++ [Main.Loaded place]))) 0 (pre ++ [Main.Loaded place]) s
    = inr s'
    ∧ Main.s_scraped_in_session s'
      = Main.s_scraped_in_session s
        + Z.of_nat (length (Main.named_places (pre ++ [Main.Loaded place])))
    ∧ (Main.s_places s' = []
       ↔ start_index = 0 ∨ Main.s_scraped_in_session s' `mod` 10 = 0).
Proof.
  intros Hnone Hname.
  destruct (scrape_loop_ends layout now search_for total output_path ultra start_index
              (Z.of_nat (length (pre ++ [Main.Loaded place]))) pre 0 s Hnone)
    as (s1 & Hpre & _ & Hcount).
  rewrite scrape_loop_app, Hpre. cbn [Main.scrape_loop].
  rewrite bool_decide_eq_false_2 by done.
  rewrite named_places_app, named_places_cons, bool_decide_eq_false_2 by done.
  change (Main.named_places []) with (@nil Main.Place).
  rewrite !length_app. cbn [length].
  destruct (Z.eqb_spec ((Main.s_scraped_in_session s1 + 1) `mod` 10) 0) as [Hten|Hten];
    [|destruct (Z.eqb_spec (start_index + (0 + Z.of_nat (length pre)))
                  (Z.of_nat (length pre + 1) - 1)) as [Hlast|Hlast]];
    cbn [orb]; eexists; (split; [reflexivity|]);
    cbn [Main.s_scraped_in_session Main.s_places]; (split; [lia|]).
  - split; [by right | done].
  - split; [intros _; left; lia | done].
  - split.
    + intros Habs. by apply app_eq_nil in Habs as [_ ?].
    + intros [?|?]; [lia | done].
Qed.

Section accounting.
Import Main.
Implicit Types (fs : FS) (layout : Layout) (s : session).

Lemma files_append_other fs path path' text :
  path' ≠ path → files (append_text fs path text) !! path' = files fs !! path'.
Proof. intros Hne. unfold append_text, write_text. cbn. by rewrite lookup_insert_ne. Qed.

(** What [loop_writes] says about the text of the output file, the other
    files and the checkpoint. *)
Lemma loop_writes_text layout now search_for total output_path lo hi s s' flushed :
  loop_writes layout now search_for total output_path lo hi s s' flushed →
  flushed ≠ [] →
  file_text (s_fs s') output_path
  = file_text (s_fs s) output_path
    +:+ (if path_exists (s_fs s) output_path then "" else csv_header layout)
    +:+ records (csv_record layout) flushed
  ∧ (∀ path, path ≠ output_path → files (s_fs s') !! path = files (s_fs s) !! path)
  ∧ ∃ last_idx,
      lo ≤ last_idx ∧ last_idx < hi
      ∧ cache_files (s_fs s') !! generate_cache_id search_for output_path
        = Some (Some (mkScrapingCache search_for output_path total
                        (s_total_scraped s - Z.of_nat (length (s_places s))
                         + Z.of_nat (length flushed))
                        last_idx (now last_idx)
                        (generate_cache_id search_for output_path))).
Proof.
  intros [[? _]|(_ & Hfs & last_idx & Hlo & Hhi & Hcache)] Hne; [done|].
  split_and!.
  - rewrite (file_text_congr _ _ _ Hfs). apply file_text_append.
  - intros path Hpath. rewrite Hfs. by apply files_append_other.
  - exists last_idx. split_and!; [done | done |]. rewrite Hcache. apply lookup_insert_eq.
Qed.

(** Checkpoints and the file.  Take a run of the loop that starts in
    append mode with nothing pending, [existing_count] records counted
    in the output file, and is not interrupted.  The places it keeps are
    the named places of the listings, in order; those up to the last
    write have been added to the end of the output file, after the
    header if the file was new, and nothing else in the file or in the
    other files has changed; those after the last write are pending.  The
    checkpoint left by the last write records exactly
    [existing_count] plus the number of records written, so the
    checkpoint never claims more records than the run has put into the
    file; with no write the files are as before. *)
Theorem checkpoint_counts_written_records (layout : Layout) (now : Z → string)
    (search_for : string) (total : Z) (output_path : string) (ultra : bool)
    (start_index len_listings : Z) (listings : list listing)
    (scraped_in_session existing_count : Z) (fs : FS) (s' : session) :
  scrape_loop layout now search_for total output_path ultra start_index len_listings
    0 listings (mkSession [] scraped_in_session existing_count true fs) = inr s' →
  ∃ flushed,
    named_places listings = flushed ++ s_places s'
    ∧ s_total_scraped s' = existing_count + Z.of_nat (length (named_places listings))
    ∧ (flushed = [] → s_fs s' = fs)
    ∧ (flushed ≠ [] →
       file_text (s_fs s') output_path
       = file_text fs output_path
         +:+ (if path_exists fs output_path then "" else csv_header layout)
         +:+ records (csv_record layout) flushed
       ∧ (∀ path, path ≠ output_path → files (s_fs s') !! path = files fs !! path)
       ∧ ∃ last_idx,
           start_index ≤ last_idx
           ∧ last_idx < start_index + Z.of_nat (length listings)
           ∧ cache_files (s_fs s') !! generate_cache_id search_for output_path
             = Some (Some (mkScrapingCache search_for output_path total
                             (existing_count + Z.of_nat (length flushed))
                             last_idx (now last_idx)
                             (generate_cache_id search_for output_path)))).
Proof.
  intros Hloop.
  apply scrape_loop_runs in Hloop as (flushed & Hsplit & Htotal & _ & _ & Hwrites);
    [|done].
  cbn [s_places s_total_scraped s_fs app] in *.
  exists flushed. split_and!; [done | done | |].
  - intros ->. by destruct Hwrites as [[_ ?]|[? _]].
  - intros Hne.
    destruct (loop_writes_text _ _ _ _ _ _ _ _ _ _ Hwrites Hne)
      as (Htext & Hother & last_idx & Hlo & Hhi & Hcache).
    cbn [s_places s_total_scraped s_fs length] in *.
    split_and!; [done | done |]. exists last_idx.
    split_and!; [lia | lia |]. rewrite Hcache. do 3 f_equal. lia.
Qed.

End accounting.

Section interrupts.
Import Main.
Implicit Types (fs : FS) (layout : Layout) (s : session).

(** The interrupt handler in an append-mode session. *)
Lemma scrape_loop_interrupt layout now search_for total output_path ultra
    start_index len_listings pre post scraped_in_session existing_count fs :
  Interrupted ∉ pre →
  ∃ flushed pending fs',
    scrape_loop layout now search_for total output_path ultra start_index len_listings
      0 (pre ++ Interrupted :: post)
      (mkSession [] scraped_in_session existing_count true fs)
    = inl (pending, fs')
    ∧ named_places pre = flushed ++ pending
    ∧ (named_places pre = [] → files fs' = files fs)
    ∧ (named_places pre ≠ [] →
       file_text fs' output_path
       = file_text fs output_path
         +:+ (if path_exists fs output_path then "" else csv_header layout)
         +:+ records (csv_record layout) (named_places pre))
    ∧ (pending ≠ [] → path_exists fs' output_path = true)
    ∧ cache_files fs' !! generate_cache_id search_for output_path
      = Some (Some (mkScrapingCache search_for output_path total
                      (existing_count + Z.of_nat (length (named_places pre)))
                      (start_index + Z.of_nat (length pre))
                      (now (start_index + Z.of_nat (length pre)))
                      (generate_cache_id search_for output_path))).
Proof.
  intros Hnone.
  destruct (scrape_loop_ends layout now search_for total output_path ultra start_index
              len_listings pre 0
              (mkSession [] scraped_in_session existing_count true fs) Hnone)
    as (s1 & Hpre & Hmode & _).
  specialize (Hmode eq_refl).
  pose proof Hpre as Hruns.
  apply scrape_loop_runs in Hruns as (flushed & Hsplit & Htotal & _ & _ & Hwrites);
    [|done].
  cbn [s_places s_total_scraped s_fs app] in *.
  rewrite scrape_loop_app, Hpre. cbn [scrape_loop]. rewrite Z.add_0_l, Hmode, Htotal.
  exists flushed, (s_places s1).
  destruct (s_places s1) as [|place pending] eqn:Hpending.
  - (* nothing pending: the handler writes the checkpoint only *)
    eexists. split; [reflexivity|]. rewrite app_nil_r in Hsplit.
    rewrite file_text_save_cache, path_exists_save_cache.
    split_and!; [by rewrite app_nil_r | | | done | apply lookup_insert_eq].
    + intros Hnil. rewrite Hnil in Hsplit. subst flushed. cbn [save_cache snd files].
      by destruct Hwrites as [[_ ->]|[? _]].
    + intros Hne. rewrite Hsplit in *.
      by destruct (loop_writes_text _ _ _ _ _ _ _ _ _ _ Hwrites Hne) as (-> & _).
  - (* pending places: written by the handler first *)
    rewrite save_pending_appends by done.
    eexists. split; [reflexivity|].
    rewrite file_text_save_cache, path_exists_save_cache, file_text_append,
      path_exists_append.
    split_and!; [done | | | done | apply lookup_insert_eq].
    + intros Hnil. rewrite Hnil in Hsplit. by destruct flushed.
    + intros _. destruct Hwrites as [[-> ->]|Hwrites'].
      * by rewrite Hsplit.
      * assert (flushed ≠ []) as Hne by (by destruct Hwrites').
        destruct (loop_writes_text layout now search_for total output_path _ _ _ _ _
                    (or_intror Hwrites') Hne) as (-> & _).
        destruct Hwrites' as (_ & Hfs & _).
        rewrite (path_exists_congr _ _ _ Hfs), path_exists_append.
        cbn [s_fs]. rewrite string_app_nil_l, Hsplit, records_app.
        by rewrite !string_app_assoc.
Qed.

End interrupts.

Section command_line.
Import Main.
Implicit Types (fs : FS) (layout : Layout) (s : session).


Lemma start_ultra_appends fs search_for total output_path :
  is_append_mode (scrape_places_start fs search_for total output_path true).1 = true.
Proof.
  unfold scrape_places_start. rewrite orb_true_r.
  destruct (load_cache fs search_for output_path) as [[cache|] fs1]; [|done].
  destruct (_ <=? _); [|done]. by destruct (_ <=? _).
Qed.

(** Written twice.  In ultra-fast mode (asked for, or switched on by
    [--append] or by a checkpoint), when the loop is interrupted while
    places are pending, the interrupt handler appends them to the output
    file and returns them, and [main] appends what is returned once
    more: the file ends with the records of the pending places
    twice. *)
Theorem main_writes_interrupted_batch_twice (layout : Layout) (now : Z → string)
    (found : list listing) (args : Args) (fs fs0 fs1 : FS) (plan : Plan)
    (st : start_state) (pre post : list listing) :
  main_plan args fs = (plan, fs0) →
  p_ultra_fast plan = true →
  scrape_places_start fs0 (p_search_for plan) (p_total plan) (p_output_path plan) true
    = (st, fs1) →
  returned_early st = false →
  listings_to_visit (p_total plan) (start_index st) found = pre ++ Interrupted :: post →
  Interrupted ∉ pre →
  ∃ flushed pending fs',
    scrape_places layout now (Listings found) fs0 (p_search_for plan) (p_total plan)
      (p_output_path plan) true = (pending, fs')
    ∧ named_places pre = flushed ++ pending
    ∧ (pending ≠ [] →
       file_text fs' (p_output_path plan)
       = file_text fs1 (p_output_path plan)
         +:+ (if path_exists fs1 (p_output_path plan) then "" else csv_header layout)
         +:+ records (csv_record layout) (flushed ++ pending)
       ∧ file_text (main layout now (Listings found) args fs) (p_output_path plan)
         = file_text fs' (p_output_path plan) +:+ records (csv_record layout) pending).
Proof.
  intros Hplan Hultra Hstart Hearly Hvisit Hnone.
  pose proof (start_ultra_appends fs0 (p_search_for plan) (p_total plan)
                (p_output_path plan)) as Hmode.
  rewrite Hstart in Hmode. cbn [fst] in Hmode.
  destruct (scrape_loop_interrupt layout now (p_search_for plan) (p_total plan)
              (p_output_path plan) true (start_index st)
              (Z.of_nat (length (pre ++ Interrupted :: post))) pre post 0
              (existing_count st) fs1 Hnone)
    as (flushed & pending & fs' & Hloop & Hsplit & _ & Htext & Hexists & _).
  assert (scrape_places layout now (Listings found) fs0 (p_search_for plan)
            (p_total plan) (p_output_path plan) true = (pending, fs')) as Hscrape.
  { unfold scrape_places. rewrite Hstart, Hearly, Hvisit, Hmode, Hloop. done. }
  exists flushed, pending, fs'. split_and!; [done | done |].
  intros Hpending. split.
  - rewrite <- Hsplit. apply Htext. rewrite Hsplit.
    intros Habs. by apply app_eq_nil in Habs as [_ ?].
  - unfold main. rewrite Hplan, Hultra, Hscrape.
    destruct pending as [|place pending]; [done|].
    destruct (fast_writers_append layout fs' (place :: pending) (p_output_path plan)
                ltac:(done)) as [-> _].
    rewrite (Hexists ltac:(done)). apply file_text_append.
Qed.

(** Overwritten.  When [main] runs without [--append] and
    [--ultra-fast] and finds no checkpoint, and [scrape_places] returns
    places (the ones left pending at the end of the loop, or at an
    interrupt), the final save opens the output file for writing: the
    file then holds the frame of the returned places and nothing else.
    The batches that the loop wrote during the run are lost. *)
Theorem main_overwrites_with_leftover (layout : Layout) (now : Z → string)
    (page : browser) (args : Args) (fs fs0 fs1 : FS) (plan : Plan)
    (places : list Place) :
  main_plan args fs = (plan, fs0) →
  p_ultra_fast plan = false →
  scrape_places layout now page fs0 (p_search_for plan) (p_total plan)
    (p_output_path plan) false = (places, fs1) →
  places ≠ [] →
  p_append plan = false
  ∧ file_text (main layout now page args fs) (p_output_path plan)
    = frame_header layout places +:+ records (frame_record layout places) places.
Proof.
  intros Hplan Hultra Hscrape Hplaces.
  assert (p_append plan = false) as Happend.
  { unfold main_plan in Hplan.
    destruct (load_cache fs _ _) as [[cache|] fs'];
      injection Hplan as <- <-; cbn in *; [done|].
    by destruct (a_append args), (a_ultra_fast args). }
  split; [done|].
  unfold main. rewrite Hplan, Hultra, Hscrape, Happend.
  destruct places as [|place places]; [done|].
  unfold save_places_to_csv. cbn [andb negb]. apply file_text_write.
Qed.

End command_line.

Section command_line_plan.
Import Main.
Implicit Types (fs : FS).

(** What [main] decides before it calls [scrape_places].  The query
    defaults to the built-in one and the total to 1 (also when [-t 0] is
    given); [--append] switches ultra-fast mode on; and every checkpoint
    that [load_cache] returns for the query and the output file switches
    both append and ultra-fast mode on, before the checkpoint has been
    compared with the file.  So with a checkpoint that the fast counter
    then finds stale, the run starts from index 0 as a fresh run does,
    but in ultra-fast append mode, whatever the flags were, and the
    checkpoint is still in the store. *)
Theorem main_forces_fast_append_on_checkpoint (args : Args) (fs : FS) :
  let plan := (main_plan args fs).1 in
  let found := load_cache fs (p_search_for plan) (p_output_path plan) in
  p_search_for plan
    = match a_search args with
      | Some s => if bool_decide (s = "") then "turkish stores in toronto Canada" else s
      | None => "turkish stores in toronto Canada"
      end
  ∧ p_total plan = match a_total args with
                   | Some t => if t =? 0 then 1 else t
                   | None => 1
                   end
  ∧ p_output_path plan = a_output args
  ∧ (main_plan args fs).2 = found.2
  ∧ match found.1 with
    | Some cache =>
        p_append plan = true ∧ p_ultra_fast plan = true
        ∧ found.2 = fs
        ∧ (get_existing_data_count_lightning fs (p_output_path plan) < scraped_count cache →
           scrape_places_start fs (p_search_for plan) (p_total plan) (p_output_path plan)
             (p_ultra_fast plan)
           = (mkStart 0 true (get_existing_data_count_lightning fs (p_output_path plan))
                false, fs))
    | None =>
        p_append plan = a_append args
        ∧ p_ultra_fast plan = a_append args || a_ultra_fast args
    end.
Proof.
  cbv zeta. unfold main_plan.
  set (search_for := match a_search args with
                     | Some s => if bool_decide (s = "")
                                 then "turkish stores in toronto Canada" else s
                     | None => "turkish stores in toronto Canada"
                     end).
  set (total := match a_total args with
                | Some t => if t =? 0 then 1 else t
                | None => 1
                end).
  destruct (load_cache fs search_for (a_output args)) as [[cache|] fs1] eqn:Hload;
    cbn [fst snd p_search_for p_total p_output_path p_append p_ultra_fast];
    rewrite Hload; cbn [fst snd].
  - split_and!; try done.
    + by apply load_cache_Some in Hload as [-> _].
    + apply load_cache_Some in Hload as Hsame. destruct Hsame as [-> _].
      intros Hstale. unfold scrape_places_start. rewrite Hload, orb_true_r.
      by destruct (Z.leb_spec (scraped_count cache)
                     (get_existing_data_count_lightning fs (a_output args))); [lia|].
  - split_and!; try done.
    by destruct (a_append args), (a_ultra_fast args).
Qed.

End command_line_plan.

Lemma end_of_list_write_witness :
  ∃ s',
    Main.scrape_loop Scenario.layout Scenario.stamp "coffee shops" 100 "results.csv" true
      5 3 0 [Main.Loaded Scenario.cafe_a; Main.Loaded Scenario.cafe_b;
             Main.Loaded Scenario.cafe_c]
      (Main.mkSession [] 0 10 true Scenario.disk) = inr s'
    ∧ Main.s_scraped_in_session s' = 3.
Proof.
  destruct (end_of_list_write Scenario.layout Scenario.stamp "coffee shops" 100
              "results.csv" true 5
              [Main.Loaded Scenario.cafe_a; Main.Loaded Scenario.cafe_b] Scenario.cafe_c
              (Main.mkSession [] 0 10 true Scenario.disk))
    as (s' & Hloop & Hcount & _).
  - intros H. repeat (apply elem_of_cons in H as [H|H]; [discriminate H|]).
    by apply elem_of_nil in H.
  - discriminate.
  - exists s'. split; [exact Hloop | exact Hcount].
Defined.

Lemma checkpoint_counts_written_records_witness :
  ∃ flushed s',
    Main.scrape_loop Scenario.layout Scenario.stamp "coffee shops" 100 "results.csv" true
      0 12 0 Scenario.twelve_listings (Main.mkSession [] 0 10 true Scenario.disk)
    = inr s'
    ∧ Main.named_places Scenario.twelve_listings = flushed ++ Main.s_places s'
    ∧ Main.s_total_scraped s' = 10 + 11.
Proof.
  destruct (Main.scrape_loop Scenario.layout Scenario.stamp "coffee shops" 100
              "results.csv" true 0 12 0 Scenario.twelve_listings
              (Main.mkSession [] 0 10 true Scenario.disk)) as [returned|s'] eqn:E;
    [vm_compute in E; discriminate|].
  destruct (checkpoint_counts_written_records _ _ _ _ _ _ _ _ _ _ _ _ _ E)
    as (flushed & Hsplit & Htotal & _).
  exists flushed, s'. split_and!; [reflexivity | exact Hsplit | exact Htotal].
Defined.


Lemma main_overwrites_with_leftover_witness :
  let scraped :=
    Main.scrape_places Scenario.layout Scenario.stamp
      (Main.Listings Scenario.twelve_listings) Scenario.empty_disk "coffee shops" 12
      "fresh.csv" false in
  Main.file_text scraped.2 "fresh.csv"
  = Text.unlines Text.lf
      ["name"; "Cafe 1"; "Cafe 2"; "Cafe 3"; "Cafe 4"; "Cafe 5"; "Cafe 6"; "Cafe 7";
       "Cafe 8"; "Cafe 9"; "Cafe 10"]
  ∧ Main.file_text
      (Main.main Scenario.layout Scenario.stamp (Main.Listings Scenario.twelve_listings)
         Scenario.fresh_args Scenario.empty_disk) "fresh.csv"
    = Text.unlines Text.lf ["name"; "Cafe 11"].
Proof.
  cbv zeta. split; [vm_compute; reflexivity|].
  destruct (main_overwrites_with_leftover Scenario.layout Scenario.stamp
              (Main.Listings Scenario.twelve_listings) Scenario.fresh_args
              Scenario.empty_disk Scenario.empty_disk
              (Main.scrape_places Scenario.layout Scenario.stamp
                 (Main.Listings Scenario.twelve_listings) Scenario.empty_disk
                 "coffee shops" 12 "fresh.csv" false).2
              (Main.mkPlan "coffee shops" 12 "fresh.csv" false false)
              [Scenario.place_named "Cafe 11"]
              ltac:(vm_compute; reflexivity) eq_refl
              ltac:(vm_compute; reflexivity) ltac:(discriminate)) as [_ Htext].
  etrans; [exact Htext | reflexivity].
Defined.

Lemma main_writes_interrupted_batch_twice_witness :
  Main.file_text
    (Main.main Scenario.layout Scenario.stamp (Main.Listings Scenario.interrupted_listings)
       Scenario.append_args Scenario.disk) "results.csv"
  = Scenario.ten_records
    +:+ Text.unlines Text.lf ["Cafe A"; "Cafe B"; "Cafe A"; "Cafe B"].
Proof.
  destruct (main_writes_interrupted_batch_twice Scenario.layout Scenario.stamp
              Scenario.interrupted_listings Scenario.append_args Scenario.disk
              Scenario.disk Scenario.disk
              (Main.mkPlan "coffee shops" 100 "results.csv" true true)
              (Main.mkStart 0 true 10 false)
              [Main.Loaded Scenario.cafe_a; Main.Loaded Scenario.cafe_b]
              [Main.Loaded Scenario.cafe_c]
              ltac:(vm_compute; reflexivity) eq_refl ltac:(vm_compute; reflexivity)
              eq_refl eq_refl)
    as (flushed & pending & fs' & Hscrape & Hsplit & Htwice).
  - intros H. repeat (apply elem_of_cons in H as [H|H]; [discriminate H|]).
    by apply elem_of_nil in H.
  - assert (pending = [Scenario.cafe_a; Scenario.cafe_b]) as ->.
    { clear Hsplit Htwice. vm_compute in Hscrape. injection Hscrape as <- _.
      reflexivity. }
    assert (flushed = []) as ->.
    { clear Hscrape Htwice. apply (f_equal length) in Hsplit.
      rewrite length_app in Hsplit. destruct flushed; [done|].
      replace (Main.named_places [Main.Loaded Scenario.cafe_a; Main.Loaded Scenario.cafe_b])
        with [Scenario.cafe_a; Scenario.cafe_b] in Hsplit by (vm_compute; reflexivity).
      cbn [length] in Hsplit. lia. }
    destruct (Htwice ltac:(discriminate)) as [Hbefore Hmain].
    cbn [Main.p_output_path] in Hbefore, Hmain.
    etrans; [exact Hmain|]. rewrite Hbefore. vm_compute. reflexivity.
Defined.
